(* ===== verification/_CoqProject ===== *)
-Q . S2P
Prelude.v
Config.v
Generator.v
Dataset.v
GenMachine.v
GenTermination.v
Vocab.v
Tensor.v
Attention.v
ModelGraph.v
Mfu.v
Decode.v
Training.v
Loss.v
Checkpoint.v
