(* ===== verification/Prelude.v ===== *)
(** * A verification development for fast-js-language-model ([src/train.py])

    ** The program

    [src/train.py] is one training script.  Its parts:
    - the configuration [cfg] (lines 43-49) and the names of the model
      and checkpoint files derived from it (51-53);
    - the vector dictionary: [vec.vec] is read into the dict [w2v]
      (lines 217-227), [convert] looks a token up with an 8-zero fallback
      and an error log (270-275), [reverser] decodes a vector to the key of
      the nearest row by [np.argmin] (262-267) and [reparse] decodes a list
      of vectors (256-258);
    - the attention block [TransformerLayer] (83-194): a constructor check,
      [build] with two residual gates initialised to zero, [call] and
      [get_config];
    - the batch generator nested in [run] (344-392), which slides windows
      over each tokenized book and yields a batch each time the module
      globals [setx] and [last_batch] hold [batchSize] windows;
    - the training glue: the learning-rate schedule (67-79), [addler]
      (196-204), [estimate_mfu] (235-253), the book listing (279) and
      [hash_based_split] (286-298), the Keras graph of [run]
      (316-341), [estimate_loss] (301-312), the datasets (394-404),
      [on_epoch_end] (407-465) and the arguments of [model.fit] (467-477);
    - the checkpoint: [checkpoint_data] (34-37) read from the file at
      start (61-69), rewritten at each epoch end (421-424), beside the
      model store that [run] loads or builds (335-341).

    ** Files

    - [Prelude] (this file): Python's exceptions as the error monad
      [result] with [let*]; slicing [py_slice] with Python's negative and
      clamped bounds ([l.[a:b]]); [str.split], [str(n)], [int(s)];
      [np.argmin]; [np.array] at the level of shapes; dicts as
      insertion-ordered association lists ([dict_get], [dict_set]); a
      generator monad [gen E A] (the yielded events and the result) for
      Python generators, with [gcatch] for [try]/[except].  Hint
      databases [fjlm], [fjlm_len], [fjlm_rw].
    - [Config]: the record [cfg], the script's values [default_cfg], and
      [model_id], [model_path], [checkpoint_path] with the decimal
      formatting [str_nat] of the f-strings.
    - [Generator], [Module WindowBatchGenerator]: the generator of [run],
      parameterised (a Section) by [convert], the configuration and the
      tokenized-book cache.  The globals [setx], [last_batch] are the record
      [globals] threaded through [gen]; each yield carries the batch and a
      snapshot of the globals.  [make_window] is one pass of the [k] loop,
      [inner_loop] the [k] loop, [outer_loop] the [range(len(book) //
      batchSize)] loop with its flush and yield, [process_book] one book
      and [generator] the loop over the books.
    - [Vocab], [Module VectorDictionary]: the dictionary code over any
      number type with the typeclass interface [Numeric] (parsing,
      equality, subtraction, the norm and its order) and its laws
      [NumericLaws]; [Module QInstance] gives the executable instance over
      [Q] (decimal parser, squared Euclidean norm, which orders vectors as
      the norm does).  [load_w2v], [convert], [reverser], [reparse_ids].
    - [GenMachine], [Module GenMachine]: the same generator as a
      statement-level machine ([step] on a program counter and the shared
      [globals]), run alone ([run], with fuel), interleaved step by step
      with a second generator over one store of globals ([run2]: the
      prefetching [train_dataset] and the [estimate_loss] pulls of
      [val_dataset]), or by whole pulls ([pull], [run_turns]: the spec's
      lockstep pipeline).
    - [Dataset], [Module Dataset]: [tf.data.Dataset.from_generator] with
      [output_signature]: the generator's elements checked against the
      declared shapes, [TypeError] at the first one that differs.
    - [GenTermination], [Module GenTermination]: a measure of the program
      counter (steps left in the group, groups left in the book, cost of
      the books still to read) that every [step] decreases.
    - [Tensor], [Module Tensor]: the TensorFlow operations the layer calls
      (reshape with [-1], transpose, broadcasting, matmul, squeeze,
      reduce_mean over axis 1, dropout with the random draw as a
      parameter, ones), over [R], with the library's shape checks, and the
      combinators [ok_shape]/[ok_bind] that carry shapes through a pipeline.
    - [Attention], [Module TransformerLayer]: [init], [build] (the
      [glorot_normal] initializer is a Section variable), and [call] as the
      composition of [input_projection], [attention_branch], [gate_add] and
      [feedforward_branch]; [compute_output_shape]; [get_config] with
      Keras's [from_config].
    - [ModelGraph], [Module ModelGraph]: the Keras graph of [run()]
      ([Permute], [Conv1D] with [mish], the two layers, [Permute], [Dense])
      as [forward] on a batch, and [make_layers], the two constructors.
    - [Mfu], [Module Mfu]: [estimate_mfu] (235-253) over [Q], with the
      passes per iteration and [dt] as inputs and the parameter count
      taken on [trainable_variables], the variables of the graph of
      [ModelGraph] (3939916 with the script's [cfg]).
    - [Training]: [Module Adler] ([addler]), [Module Split]
      ([hash_based_split], the MD5 digest a parameter, the [os.walk]
      listing of line 210 and the listing of line 279 split on line 298), [Module Schedule]
      ([decay_steps] and the staircase [ExponentialDecay]), [Module
      EpochEnd] ([on_epoch_end] as the list of its effects in the
      generator monad, the [try] around [wandb.log] with [gcatch],
      [estimate_loss], the epochs of one [model.fit] and the resumption
      from the checkpoint).
    - [Loss], [Module Loss]: Keras's Huber loss ([delta = 1.0], mean over
      the last axis, then the sum over the per-sample losses divided by
      their number) and the whole of [estimate_loss] with the model as a
      parameter ([loss_loop] is its [for] loop).
    - [Decode], [Module Decode]: the [Numeric] instance the code means,
      over [R] with [np.linalg.norm] as [sqrt] of the sum of squares, its
      laws, and [reverser_Q_R]: the executable [Q] model of [reverser]
      returns the same key as the real one, so the [Q] theorems are about
      the real search; then the sample display of [on_epoch_end] (427-441):
      [model.predict] on a batch of one window, [res[0]], and the INPUT,
      REAL and PREDICT lines ([show_sample]).
    - [Checkpoint], [Module Checkpoint]: [checkpoint_data] as a [json]
      value; the read at start ([startup], lines 61-69: [json.load],
      [checkpoint_data['last_epoch']] and the [-] of line 69, with their
      [ValueError], [KeyError] and [TypeError]); the assignment and
      [json.dump] at each epoch end ([save_checkpoint], 421-424); runs
      chained through the file ([run], [reachable]); and the two stores,
      model and checkpoint, with the choice of lines 335-341 between
      loading the saved model and building one ([train_schedule],
      [run_disk], [disk_reachable]).

    ** What is proved

    - Generator (C1-C9): the exact trace of one book (one batch per group,
      [len(book) // batchSize] of them, group [n] made of the windows at
      offsets [n + k], so consecutive groups overlap in all but one
      window); the targets of a window are its inputs shifted by
      [predictSteps] only while the slice is full, and shifted by less
      (down to zero) near the end of a book; a book of [batchSize <= L <
      batchSize - 1 + sequenceSize] tokens raises [ValueError]; every
      yield leaves [setx] empty and [last_batch] equal to the batch.
    - Dictionary (C10-C11, C13-C14, C30): nearest-neighbour decoding
      inverts [convert] on a table of distinct rows of width 8, and
      [reparse] inverts [convert] on a list of in-vocabulary ids;
      [load_w2v] builds the dict with last-duplicate-wins and raises on a
      malformed line; [reverser] returns the first row at least distance
      (ties to the lowest insertion index).  The lemma [reverser_Q_R]
      ([Decode]) shows that the executable search over [Q] with the
      squared norm returns what the search over the reals with
      [np.linalg.norm] returns; [convert]'s result and log are
      [convert_spec].
    - Corrupt checkpoint (C12): an existing checkpoint file that is not
      JSON, not a dict, without [last_epoch] or with a non-numeric one
      aborts the run at start with [ValueError], [TypeError] or
      [KeyError].
    - Attention (C15-C17, C19): [call] succeeds with the shape
      [compute_output_shape] announces; with the gates [build] creates it
      returns the input projection for every dropout draw; the weights
      [sigmoid x * tanh x] lie in [(-1/2, 1)]; dropout runs on every call
      (and the mask is a no-op, [mask_logits_noop]).
    - Display (C18), composing [ModelGraph], [Decode] and [Vocab]: on the
      graph [run()] builds, the INPUT, REAL and PREDICT lines of an epoch
      end are produced, one predicted id per position, exactly when the
      dictionary's width is both [arrayDimension] and [predictSteps].
    - Training (C20-C25): the checkpoint stores the index of the last
      epoch, so a resumed run repeats an iteration; [estimate_loss] raises
      [StopIteration] out of [on_epoch_end] on a small validation set; the
      learning rate grows once [last_epoch] passes 10000 and before that
      is [0.0005 * 0.96 ^ q] on stairs of [10000 - last_epoch] steps;
      [hash_based_split] sends a file to test exactly when
      [md5 / 2^128 < test_split], each side in input order;
      failures of [wandb.log] are non-fatal: a session ends alike and
      saves alike whatever the metrics sink does (an equivalence
      [sink_equiv] coarser than equality, with [gbind] [Proper] for it).
      [addler]'s closed form is [addler_closed_form].
    - File names (C26): the checkpoint and model files are shared by
      exactly the configurations with the same [sequenceSize] and
      [dimension].
    - Shared globals (C27-C28, C31-C33), for every configuration and any
      books whose first group fits: an interleaving in which the
      validation generator starts a book inside the training generator's
      [k] loop makes the training generator yield a batch whose first
      window is the validation book's; another leaves [batchSize + 1]
      windows in [setx], so the group is never flushed; interleaving by
      whole pulls is
      harmless (each generator yields a prefix of its own batches) and,
      with enough pulls, delivers both whole streams; a generator running
      alone keeps [len(setx) <= batchSize] in every reachable state (rule
      induction on [reachable]).
    - Graph (C29): the model accepts its [Input] batches exactly when
      [arrayDimension = predictSteps].
    - Datasets (C34-C35): with vectors of [predictSteps] components and
      books in which every window fits, every element has the declared
      type and the dataset delivers exactly the generator's batches; with
      vectors of any other width the first element is refused and no batch
      is delivered.
    - Loss (C36-C37): the detailed [estimate_loss] refines the abstract
      one of [EpochEnd] (a value exactly when enough batches are there,
      [StopIteration] otherwise); its value is non-negative and zero
      exactly when the model reproduces every target it was shown.
    - Termination (C38): under any schedule of the two generators over
      the shared globals, each halts once it has had as many turns as its
      measure.
    - Persistence across runs (C39-C40), by rule induction on the runs
      from an empty disk: the checkpoint file is always absent or the
      dict [{last_epoch: le, other_data: None}] with [le >= 0], read back
      without error, and a run that saves leaves [le + e] for the last
      epoch [e] it saved at; a saved model always carries the schedule of
      [decay_steps = max_iters], so the [decay_steps] line 69 computes
      from the checkpoint reaches the optimizer only in the run that
      builds the model.
    - Other lemmas: the statement-level machine, run alone, refines
      [generator] ([machine_refines_generator], which the lockstep and
      termination results build on); [get_config] saves every
      constructor argument ([from_config_get_config]); a perfect
      prediction makes the PREDICT line the REAL line
      ([show_sample_perfect]).

    ** Bounds and parameters

    The functional models use no fuel: every loop of the modelled code is
    a bounded [for] loop and is a structural recursion over a list or a
    [nat] counter, so the definitions are total and the theorems state
    that the code returns.  Only the machine of [GenMachine] runs with
    fuel ([run], [pull], [run_turns]); [machine_refines_generator] shows
    that some fuel suffices and that any larger fuel gives the same
    result, so the generator terminates, and [GenTermination] bounds the
    fuel by an explicit measure ([run_terminates]: fuel [measure p] is
    enough from any state [p], whatever the globals).  The witnesses use small
    configurations ([sequenceSize = 2], [predictSteps = 1],
    [batchSize = 2]; a layer with one head of depth 2) or the script's own
    ([default_cfg]), evaluated by [vm_compute] or [reflexivity].  Random
    draws ([random.shuffle], [random.randint], the dropout mask, the
    initializer) and the interleaving of the two generators are
    parameters, so the theorems hold for every draw and schedule.

    ** Not modelled

    Float32 and float64 rounding (vectors are [Q], tensors [R];
    [Decode] shows the [Q] search equals the real one); file, pickle,
    logging, wandb and tiktoken I/O (the tokenizer and the cache are
    parameters, and so are the lists [os.walk] and [os.listdir] return);
    the glue with nothing a theorem could observe: the GPU switch (lines
    28-31), [setattr_time] and the epoch timer (its [dt] feeds only the
    commented-out [estimate_mfu] call), [wandb.init] with its run name
    from [datetime.now()] (55-59), and the bare expression statements
    [books] and [vw2v] (214, 230); of the model
    store, only the schedule a saved model is compiled with (Keras's
    [load_model] restores the saved optimizer) is modelled, not the
    weights; Keras's optimizer and the gradient steps; [.cache()] and
    [.prefetch()] of the datasets, which keep the elements and their order
    within an epoch, and the replay of a cached dataset across the epochs
    of [model.fit] with [steps_per_epoch] (the pairing of Keras's
    iterator with the epochs is library behaviour the sources only call);
    the empty mean of [np.mean] (NaN), which [estimate_loss] never takes
    since [eval_iters] is 10 or 100.

    ** Plan

    Every function and top-level statement of [src/train.py] that
    computes is modelled; what remains is the library behaviour listed
    above (Keras's training step and iterator, float rounding, I/O). *)

From Stdlib Require Import String Ascii DecimalString DecimalNat.
From Stdlib Require Import List Arith Lia ZArith Bool.
Import ListNotations.

(** ** Scope and notations of the development *)

Declare Scope fjlm_scope.
Delimit Scope fjlm_scope with fjlm.

(** ** Python exceptions and the error monad *)

(** The exceptions the modelled code can raise.  [IndexError]: [list.pop(0)]
    on an empty list; [ValueError]: [float()] / [int()] on a malformed
    string, [np.argmin] on an empty array, a ragged [np.array], a failing
    [tf.reshape]; [ZeroDivisionError]: [//] or [%] by zero;
    [ShapeError]: a TensorFlow op applied to incompatible shapes;
    [TypeError]: a value of the wrong type passed on (a numpy array where
    [tokenizer.decode] expects an int); [AssertionError]: a failing
    [assert]; [StopIteration]: [next] on an exhausted iterator. *)
Inductive py_error : Type :=
| IndexError
| ValueError
| ZeroDivisionError
| ShapeError
| TypeError
| AssertionError
| StopIteration
| KeyError.

Inductive result (A : Type) : Type :=
| Ok (a : A)
| Err (e : py_error).
Arguments Ok {A} a.
Arguments Err {A} e.

Definition bind {A B} (r : result A) (k : A -> result B) : result B :=
  match r with Ok a => k a | Err e => Err e end.

Notation "'let*' x ':=' c 'in' k" := (bind c (fun x => k))
  (at level 10, x name, c at level 100, k at level 200) : fjlm_scope.
Notation "'let*' ' p ':=' c 'in' k" := (bind c (fun x => match x with p => k end))
  (at level 10, p pattern, c at level 100, k at level 200) : fjlm_scope.

Open Scope fjlm_scope.

(** [for x in xs: acc = f(acc, x)] where [f] may raise. *)
Fixpoint fold_result {A B} (f : B -> A -> result B) (xs : list A) (acc : B)
  : result B :=
  match xs with
  | [] => Ok acc
  | x :: xs' => let* acc' := f acc x in fold_result f xs' acc'
  end.

(** [[f(x) for x in xs]] where [f] may raise: the first error wins. *)
Fixpoint map_result {A B} (f : A -> result B) (xs : list A) : result (list B) :=
  match xs with
  | [] => Ok []
  | x :: xs' => let* y := f x in let* ys := map_result f xs' in Ok (y :: ys)
  end.

(** ** Python list slicing [l[a:b]] (step 1) *)

(** Python normalises a slice bound [i] against the length [n]: a negative
    bound counts from the end and is clamped at 0, a positive one is clamped
    at [n].  Note that [-0] is [0], so [l[-0:]] is the whole list. *)
Definition py_bound (n : nat) (i : Z) : nat :=
  if (i <? 0)%Z then Z.to_nat (Z.of_nat n + i) else Nat.min (Z.to_nat i) n.

Definition py_slice {A} (l : list A) (start stop : option Z) : list A :=
  let n := length l in
  let a := match start with None => 0 | Some i => py_bound n i end in
  let b := match stop with None => n | Some j => py_bound n j end in
  firstn (b - a) (skipn a l).

Notation "l .[ a : b ]" := (py_slice l a b)
  (at level 1, a at level 99, b at level 99, format "l .[ a : b ]")
  : fjlm_scope.

(** ** [np.argmin]: the index of the first minimum *)

Section Argmin.
Context {D : Type} (ltb : D -> D -> bool).

Fixpoint argmin_from (i best : nat) (bd : D) (l : list D) : nat :=
  match l with
  | [] => best
  | d :: l' =>
      if ltb d bd then argmin_from (S i) i d l' else argmin_from (S i) best bd l'
  end.

(** [np.argmin] raises [ValueError] on an empty array. *)
Definition argmin (l : list D) : result nat :=
  match l with
  | [] => Err ValueError
  | d :: l' => Ok (argmin_from 1 0 d l')
  end.
End Argmin.

(** ** Python [str.split()] with no argument *)

(** The ASCII characters [str.isspace] accepts: \t \n \x0b \x0c \r,
    \x1c-\x1f and the space. *)
Definition is_py_space (c : ascii) : bool :=
  let n := nat_of_ascii c in
  ((9 <=? n) && (n <=? 13)) || ((28 <=? n) && (n <=? 32)).

Definition flush_word (cur : list ascii) (rest : list string) : list string :=
  match cur with
  | [] => rest
  | _ => string_of_list_ascii (rev cur) :: rest
  end.

(** [cur] holds the current word, reversed. *)
Fixpoint py_split_go (s : string) (cur : list ascii) : list string :=
  match s with
  | EmptyString => flush_word cur []
  | String c s' =>
      if is_py_space c then flush_word cur (py_split_go s' [])
      else py_split_go s' (c :: cur)
  end.

Definition py_split (s : string) : list string := py_split_go s [].

(** ** [str(n)] and [int(s)] on decimal token ids *)

Definition py_str_nat (n : nat) : string :=
  NilZero.string_of_uint (Nat.to_uint n).

(** [int(s)] for an optional sign followed by decimal digits. *)
Definition py_int (s : string) : result Z :=
  let digits t :=
    match NilZero.uint_of_string t with
    | Some u => Ok (Z.of_nat (Nat.of_uint u))
    | None => Err ValueError
    end in
  match s with
  | String "-"%char t => let* z := digits t in Ok (- z)%Z
  | String "+"%char t => digits t
  | _ => digits s
  end.

(** ** numpy's array constructor on nested lists (shape only) *)

(** [np.array(rows)] for a list of float lists: a 2-D array when all rows
    have the same length, the 1-D shape [(0,)] for no row, and [ValueError]
    on ragged rows (numpy >= 1.24). *)
Definition np_array2 {K} (rows : list (list K)) : result (list nat) :=
  match rows with
  | [] => Ok [0]
  | r :: _ =>
      if forallb (fun r' => length r' =? length r) rows
      then Ok [length rows; length r] else Err ValueError
  end.

(** [np.array(arrays)] for a list of arrays of the given shapes. *)
Definition np_stack (shapes : list (list nat)) : result (list nat) :=
  match shapes with
  | [] => Ok [0]
  | s :: _ =>
      if forallb (fun s' => if list_eq_dec Nat.eq_dec s' s then true else false) shapes
      then Ok (length shapes :: s) else Err ValueError
  end.

(** The shape of [np.array(rows)] for rows of one length. *)
Definition shape2 {K} (rows : list (list K)) : list nat :=
  match rows with [] => [0] | r :: _ => [length rows; length r] end.

(** ** Python dictionaries *)

(** A [dict] with string keys as an association list in insertion order
    (the order [dict.items()] returns): assigning an existing key replaces
    its value in place, a new key goes to the end. *)
Fixpoint dict_get {V} (d : list (string * V)) (k : string) : option V :=
  match d with
  | [] => None
  | (k', v) :: d' => if String.eqb k k' then Some v else dict_get d' k
  end.

Fixpoint dict_set {V} (d : list (string * V)) (k : string) (v : V) : list (string * V) :=
  match d with
  | [] => [(k, v)]
  | (k', v') :: d' => if String.eqb k k' then (k, v) :: d' else (k', v') :: dict_set d' k v
  end.

(** ** Hint databases and tactics of the development *)

Create HintDb fjlm discriminated.
Create Rewrite HintDb fjlm_len.
Create Rewrite HintDb fjlm_rw.

#[export] Hint Rewrite length_map length_app length_firstn length_skipn
  length_rev length_seq repeat_length : fjlm_len.

(** Close a goal on lengths: rewrite the length equations, then [lia]. *)
Ltac len_solve :=
  repeat (autorewrite with fjlm_len in *; simpl in *); lia.

(** Invert a hypothesis [bind r k = Ok v] into the successful first step. *)
Ltac bind_inv H :=
  match type of H with
  | bind ?r _ = _ =>
      let E := fresh "E" in
      destruct r eqn:E; simpl in H; [|discriminate H]
  end.

(** ** Generic lemmas *)

Lemma bind_Ok {A B} (r : result A) (k : A -> result B) b :
  bind r k = Ok b -> exists a, r = Ok a /\ k a = Ok b.
Proof. destruct r; simpl; [eauto | discriminate]. Qed.

Lemma map_result_length {A B} (f : A -> result B) xs ys :
  map_result f xs = Ok ys -> length ys = length xs.
Proof.
  revert ys; induction xs as [|x xs IH]; simpl; intros ys H.
  - inversion H; reflexivity.
  - bind_inv H. bind_inv H. inversion H; subst. simpl. f_equal. auto.
Qed.

Lemma map_result_ok {A B} (f : A -> B) xs :
  map_result (fun x => Ok (f x)) xs = Ok (map f xs).
Proof. induction xs as [|x xs IH]; simpl; [|rewrite IH]; reflexivity. Qed.

Lemma py_bound_nonneg n (i : nat) :
  py_bound n (Z.of_nat i) = Nat.min i n.
Proof.
  unfold py_bound. destruct (Z.ltb_spec (Z.of_nat i) 0); [lia|].
  now rewrite Nat2Z.id.
Qed.

(** [l[a:b]] with non-negative bounds is [firstn]/[skipn]. *)
Lemma py_slice_nat {A} (l : list A) (a b : nat) :
  l.[Some (Z.of_nat a) : Some (Z.of_nat b)] = firstn (b - a) (skipn a l).
Proof.
  unfold py_slice. rewrite !py_bound_nonneg.
  destruct (Nat.le_gt_cases a (length l)).
  - rewrite (Nat.min_l a) by lia.
    destruct (Nat.le_gt_cases b (length l)).
    + now rewrite Nat.min_l.
    + rewrite Nat.min_r by lia.
      rewrite !firstn_all2; auto; rewrite length_skipn; lia.
  - rewrite (Nat.min_r a) by lia.
    rewrite !skipn_all2 by lia. now rewrite !firstn_nil.
Qed.

Lemma length_py_slice_nat {A} (l : list A) (a b : nat) :
  length l.[Some (Z.of_nat a) : Some (Z.of_nat b)]
  = Nat.min (b - a) (length l - a).
Proof. rewrite py_slice_nat. len_solve. Qed.

(** [l[:n]] is [firstn n l]. *)
Lemma py_slice_prefix {A} (l : list A) (n : nat) :
  l.[None : Some (Z.of_nat n)] = firstn n l.
Proof.
  unfold py_slice. rewrite py_bound_nonneg, Nat.sub_0_r. simpl.
  destruct (Nat.le_gt_cases n (length l)).
  - now rewrite Nat.min_l.
  - rewrite Nat.min_r, firstn_all, firstn_all2 by lia. reflexivity.
Qed.

(** [l[-n:]] for [0 < n] is the suffix of length [min n (len l)]. *)
Lemma py_slice_suffix {A} (l : list A) (n : nat) :
  0 < n -> l.[Some (- Z.of_nat n)%Z : None] = skipn (length l - n) l.
Proof.
  intros Hn. unfold py_slice, py_bound.
  destruct (Z.ltb_spec (- Z.of_nat n) 0); [|lia].
  replace (Z.to_nat (Z.of_nat (length l) + - Z.of_nat n)) with (length l - n) by lia.
  apply firstn_all2. len_solve.
Qed.

(** [l[-0:]] is the whole list. *)
Lemma py_slice_suffix_0 {A} (l : list A) :
  l.[Some (- Z.of_nat 0)%Z : None] = l.
Proof. unfold py_slice, py_bound. simpl. apply firstn_all2. lia. Qed.

#[export] Hint Rewrite @py_slice_nat @py_slice_prefix : fjlm_rw.

(** [np.argmin] returns [j] when the [j]-th entry is strictly below all
    others, provided the order is asymmetric. *)
Section ArgminLemmas.
Context {D : Type} (ltb : D -> D -> bool).
Hypothesis ltb_asym : forall a b, ltb a b = true -> ltb b a = false.

Lemma argmin_from_keep i best bd l :
  (forall d, In d l -> ltb bd d = true) -> argmin_from ltb i best bd l = best.
Proof.
  revert i; induction l as [|d l IH]; intros i H; simpl; [reflexivity|].
  rewrite (ltb_asym bd d) by (apply H; left; reflexivity).
  apply IH. intros; apply H; right; assumption.
Qed.

Lemma argmin_from_strict_min i best bd l j dj :
  nth_error l j = Some dj ->
  ltb dj bd = true ->
  (forall k d, nth_error l k = Some d -> k <> j -> ltb dj d = true) ->
  argmin_from ltb i best bd l = i + j.
Proof.
  revert i best bd j; induction l as [|d l IH]; intros i best bd j Hj Hbd Hmin.
  - destruct j; discriminate.
  - destruct j as [|j]; simpl in Hj |- *.
    + inversion Hj; subst. rewrite Hbd. rewrite Nat.add_0_r.
      apply argmin_from_keep. intros d' Hd'.
      apply In_nth_error in Hd' as [k Hk].
      apply (Hmin (S k)); [exact Hk | discriminate].
    + assert (Hdj : ltb dj d = true) by (apply (Hmin 0); [reflexivity | discriminate]).
      rewrite <- Nat.add_succ_comm.
      destruct (ltb d bd).
      * apply IH; auto. intros k d' Hk Hne. apply (Hmin (S k)); auto.
      * apply IH; auto. intros k d' Hk Hne. apply (Hmin (S k)); auto.
Qed.

Lemma argmin_strict_min l j dj :
  nth_error l j = Some dj ->
  (forall k d, nth_error l k = Some d -> k <> j -> ltb dj d = true) ->
  argmin ltb l = Ok j.
Proof.
  intros Hj Hmin. destruct l as [|d l]; [destruct j; discriminate|]. simpl.
  destruct j as [|j].
  - simpl in Hj. inversion Hj; subst. f_equal. apply argmin_from_keep.
    intros d' Hd'. apply In_nth_error in Hd' as [k Hk].
    apply (Hmin (S k)); [exact Hk | discriminate].
  - f_equal. apply (argmin_from_strict_min 1 0 d l j dj); auto.
    + apply (Hmin 0); [reflexivity | discriminate].
    + intros k d' Hk Hne. apply (Hmin (S k)); auto.
Qed.

(** With a strict weak order ([<] asymmetric and its negation transitive,
    as on floats without NaN), [np.argmin] is the first minimum. *)
Hypothesis ltb_negtrans : forall a b c, ltb a b = false -> ltb b c = false -> ltb a c = false.

(** [j] is the first index of a least entry of [l]. *)
Definition first_min (l : list D) (j : nat) : Prop :=
  j < length l /\
  (forall i dj di, i < j -> nth_error l j = Some dj -> nth_error l i = Some di -> ltb dj di = true) /\
  (forall i dj di, nth_error l j = Some dj -> nth_error l i = Some di -> ltb di dj = false).

Lemma ltb_irrefl d : ltb d d = false.
Proof. destruct (ltb d d) eqn:E; [|reflexivity]. now rewrite (ltb_asym d d E) in E. Qed.

Lemma nth_error_snoc_last {A} (p : list A) d : nth_error (p ++ [d]) (length p) = Some d.
Proof. rewrite nth_error_app2, Nat.sub_diag by lia. reflexivity. Qed.

Lemma nth_error_snoc_inv {A} (p : list A) d i x :
  nth_error (p ++ [d]) i = Some x -> nth_error p i = Some x \/ (i = length p /\ x = d).
Proof.
  intros E. destruct (Nat.lt_ge_cases i (length p)).
  - left. now rewrite nth_error_app1 in E.
  - right. rewrite nth_error_app2 in E by lia. destruct (i - length p) as [|k] eqn:Ek.
    + injection E as <-. split; [lia|reflexivity].
    + destruct k; discriminate.
Qed.

Lemma argmin_from_first_min l : forall p best bd,
  nth_error p best = Some bd -> first_min p best ->
  first_min (p ++ l) (argmin_from ltb (length p) best bd l).
Proof.
  induction l as [|d l IH]; intros p best bd Hb (Hlt & H1 & H2); cbn [argmin_from].
  { rewrite app_nil_r. now split. }
  replace (p ++ d :: l) with ((p ++ [d]) ++ l) by now rewrite <- app_assoc.
  assert (Hlen : length (p ++ [d]) = S (length p)) by (rewrite length_app; simpl; lia).
  destruct (ltb d bd) eqn:Ed; rewrite <- Hlen; apply IH.
  - apply nth_error_snoc_last.
  - assert (Hall : forall i di, nth_error p i = Some di -> ltb d di = true).
    { intros i di Hi. destruct (ltb d di) eqn:E; [reflexivity|].
      rewrite (ltb_negtrans d di bd E (H2 i bd di Hb Hi)) in Ed. discriminate. }
    split; [rewrite Hlen; lia|split].
    + intros i dj di Hi Hj Hdi. rewrite nth_error_snoc_last in Hj. injection Hj as <-.
      rewrite nth_error_app1 in Hdi by lia. exact (Hall i di Hdi).
    + intros i dj di Hj Hdi. rewrite nth_error_snoc_last in Hj. injection Hj as <-.
      destruct (nth_error_snoc_inv p d i di Hdi) as [Hi|[_ ->]]; [|apply ltb_irrefl].
      exact (ltb_asym _ _ (Hall i di Hi)).
  - now rewrite nth_error_app1.
  - split; [rewrite Hlen; lia|split].
    + intros i dj di Hi Hj Hdi. rewrite nth_error_app1 in Hj, Hdi by lia. exact (H1 i dj di Hi Hj Hdi).
    + intros i dj di Hj Hdi. rewrite nth_error_app1 in Hj by lia. rewrite Hb in Hj. injection Hj as <-.
      destruct (nth_error_snoc_inv p d i di Hdi) as [Hi|[_ ->]]; [exact (H2 i bd di Hb Hi)|exact Ed].
Qed.

(** [np.argmin] of a non-empty array is its first minimum. *)
Lemma argmin_first_min l : l <> [] -> exists j, argmin ltb l = Ok j /\ first_min l j.
Proof.
  destruct l as [|d l]; [congruence|]. intros _. eexists. split; [reflexivity|].
  apply (argmin_from_first_min l [d] 0 d eq_refl). split; [simpl; lia|split].
  - intros i dj di Hi. lia.
  - intros [|i] dj di Hj Hi; [|destruct i; discriminate]. simpl in *. injection Hj as <-.
    injection Hi as <-. apply ltb_irrefl.
Qed.
End ArgminLemmas.

(** [np.argmin] only looks at the comparisons of the entries: two arrays
    computed from one list, whose entries compare alike, have the same
    argmin. *)
Lemma argmin_from_map {A D1 D2} (lt1 : D1 -> D1 -> bool) (lt2 : D2 -> D2 -> bool)
  (f : A -> D1) (g : A -> D2) (l0 : list A) :
  (forall a b, In a l0 -> In b l0 -> lt1 (f a) (f b) = lt2 (g a) (g b)) ->
  forall l i best x, In x l0 -> incl l l0 ->
  argmin_from lt1 i best (f x) (map f l) = argmin_from lt2 i best (g x) (map g l).
Proof.
  intros Hc l. induction l as [|y l IH]; intros i best x Hx Hl; simpl; [reflexivity|].
  rewrite (Hc y x) by (auto; apply Hl; left; reflexivity).
  destruct (lt2 (g y) (g x)); apply IH; auto;
    [apply Hl; left; reflexivity| |]; intros z Hz; apply Hl; right; exact Hz.
Qed.

Lemma argmin_map {A D1 D2} (lt1 : D1 -> D1 -> bool) (lt2 : D2 -> D2 -> bool)
  (f : A -> D1) (g : A -> D2) (l : list A) :
  (forall a b, In a l -> In b l -> lt1 (f a) (f b) = lt2 (g a) (g b)) ->
  argmin lt1 (map f l) = argmin lt2 (map g l).
Proof.
  intros Hc. destruct l as [|x l]; [reflexivity|]. simpl. f_equal.
  apply (argmin_from_map lt1 lt2 f g (x :: l) Hc); [left; reflexivity|].
  intros z Hz; right; exact Hz.
Qed.

Lemma np_array2_uniform {K} (d : nat) (rows : list (list K)) :
  (forall r, In r rows -> length r = d) -> np_array2 rows = Ok (shape2 rows).
Proof.
  intros H. destruct rows as [|r rows']; [reflexivity|]. simpl.
  rewrite Nat.eqb_refl. simpl.
  replace (forallb _ rows') with true; [reflexivity|].
  symmetry. apply forallb_forall. intros r' Hr'.
  apply Nat.eqb_eq. rewrite (H r'), (H r); auto with datatypes.
Qed.

Lemma shape2_uniform {K} (d : nat) (rows : list (list K)) :
  (forall r, In r rows -> length r = d) ->
  shape2 rows = match length rows with 0 => [0] | m => [m; d] end.
Proof.
  intros H. destruct rows as [|r rows']; [reflexivity|]. simpl.
  rewrite (H r); auto with datatypes.
Qed.

Lemma np_stack_const (s : list nat) (shapes : list (list nat)) :
  shapes <> [] -> (forall s', In s' shapes -> s' = s) ->
  np_stack shapes = Ok (length shapes :: s).
Proof.
  intros Hne H. destruct shapes as [|s0 rest]; [contradiction|].
  unfold np_stack.
  replace (forallb _ _) with true; [rewrite (H s0); auto with datatypes|].
  symmetry. apply forallb_forall. intros s' Hs'.
  rewrite (H s' Hs'), (H s0) by auto with datatypes.
  destruct (list_eq_dec Nat.eq_dec s s); [reflexivity | contradiction].
Qed.

(** The [i]-th entry of a list built by index. *)
Lemma nth_map_seq {A} (f : nat -> A) n i (x : A) : i < n -> nth i (map f (seq 0 n)) x = f i.
Proof.
  intros H. rewrite (nth_indep _ x (f 0)) by len_solve.
  rewrite map_nth, seq_nth by lia. reflexivity.
Qed.

(** [[f(x) for x in xs]] when no call raises. *)
Lemma map_result_all_ok {A B} (f : A -> result B) (g : A -> B) xs :
  (forall x, In x xs -> f x = Ok (g x)) -> map_result f xs = Ok (map g xs).
Proof.
  induction xs as [|x xs IH]; intros H; simpl; [reflexivity|].
  rewrite (H x) by (left; reflexivity). simpl.
  rewrite IH by (intros; apply H; right; assumption). reflexivity.
Qed.

(** The same through a [map]. *)
(** [map_result] succeeds when [f] succeeds on every element. *)
Lemma map_result_exists {A B} (f : A -> result B) xs :
  (forall x, In x xs -> exists y, f x = Ok y) ->
  exists ys, map_result f xs = Ok ys /\ length ys = length xs.
Proof.
  induction xs as [|x xs IH]; intros H; simpl; [now exists []|].
  destruct (H x (or_introl eq_refl)) as [y ->].
  destruct IH as [ys [-> Hl]]; [intros; apply H; now right|].
  exists (y :: ys). simpl. auto.
Qed.

Lemma map_result_map_ok {A B C} (f : B -> result C) (h : A -> B) (g : A -> C) xs :
  (forall x, In x xs -> f (h x) = Ok (g x)) -> map_result f (map h xs) = Ok (map g xs).
Proof.
  induction xs as [|x xs IH]; intros H; simpl; [reflexivity|].
  rewrite (H x) by (left; reflexivity). simpl.
  rewrite IH by (intros; apply H; right; assumption). reflexivity.
Qed.

(** [[f(x) for x in xs]] raises when one call raises. *)
Lemma map_result_err {A B} (f : A -> result B) xs x e :
  In x xs -> f x = Err e -> exists e', map_result f xs = Err e'.
Proof.
  induction xs as [|y xs IH]; intros Hin Hx; [destruct Hin|].
  simpl. destruct (f y) as [b|e1] eqn:Ey; simpl; [|eauto].
  destruct Hin as [->|Hin]; [congruence|].
  destruct (IH Hin Hx) as [e' ->]. simpl. eauto.
Qed.

Lemma dict_get_set {V} (d : list (string * V)) k v k' :
  dict_get (dict_set d k v) k' = if String.eqb k' k then Some v else dict_get d k'.
Proof.
  induction d as [|[k0 v0] d IH]; simpl; [reflexivity|].
  destruct (String.eqb k k0) eqn:E1; simpl.
  - apply String.eqb_eq in E1; subst k0. destruct (String.eqb k' k); reflexivity.
  - rewrite IH. destruct (String.eqb k' k0) eqn:E2, (String.eqb k' k) eqn:E3; try reflexivity.
    apply String.eqb_eq in E2, E3. subst. rewrite String.eqb_refl in E1. discriminate.
Qed.

Lemma dict_keys_set {V} (d : list (string * V)) k v k' :
  In k' (map fst (dict_set d k v)) <-> k' = k \/ In k' (map fst d).
Proof.
  induction d as [|[k0 v0] d IH]; simpl; [firstorder congruence|].
  destruct (String.eqb k k0) eqn:E1; simpl.
  - apply String.eqb_eq in E1; subst k0. firstorder congruence.
  - rewrite IH. tauto.
Qed.

(** Assigning keeps the keys of a dict distinct. *)
Lemma dict_set_nodup {V} (d : list (string * V)) k v :
  NoDup (map fst d) -> NoDup (map fst (dict_set d k v)).
Proof.
  induction d as [|[k0 v0] d IH]; intros Hnd; simpl; [repeat constructor; easy|].
  inversion Hnd as [|? ? Hnin Hnd']; subst.
  destruct (String.eqb k k0) eqn:E1; simpl.
  - apply String.eqb_eq in E1; subst k0. constructor; assumption.
  - apply String.eqb_neq in E1.
    constructor; [|auto]. rewrite dict_keys_set. intros [->|Hin]; auto.
Qed.

Lemma dict_get_nth {V} (d : list (string * V)) k v :
  dict_get d k = Some v -> exists j, nth_error d j = Some (k, v).
Proof.
  induction d as [|[k0 v0] d IH]; simpl; [discriminate|].
  destruct (String.eqb k k0) eqn:E1.
  - apply String.eqb_eq in E1; subst k0. intros Hv; inversion Hv; subst.
    exists 0. reflexivity.
  - intros Hv. destruct (IH Hv) as [j Hj]. exists (S j). exact Hj.
Qed.

Lemma flush_word_nonempty cur rest :
  (forall w, In w rest -> w <> EmptyString) ->
  forall w, In w (flush_word cur rest) -> w <> EmptyString.
Proof.
  intros Hr w Hw. destruct cur as [|c cur']; simpl in Hw; [auto|].
  destruct Hw as [<-|Hw]; [|auto].
  destruct (rev cur'); discriminate.
Qed.

(** [str.split()] returns no empty word. *)
Lemma py_split_go_nonempty s cur w :
  In w (py_split_go s cur) -> w <> EmptyString.
Proof.
  revert cur w; induction s as [|c s IH]; intros cur w Hw; simpl in Hw.
  - apply (flush_word_nonempty cur []); [intros ? []|exact Hw].
  - destruct (is_py_space c).
    + apply (flush_word_nonempty cur (py_split_go s [])); [intros; eapply IH; eauto|exact Hw].
    + eapply IH; exact Hw.
Qed.

(** [int(str(n)) = n]: a decimal rendering starts with a digit, so [int]
    reads it back without a sign. *)
Lemma py_int_str_nat n : py_int (py_str_nat n) = Ok (Z.of_nat n).
Proof.
  unfold py_str_nat, py_int.
  assert (Hne : Nat.to_uint n <> Decimal.Nil).
  { intros H. pose proof (Unsigned.of_to n) as E. rewrite H in E.
    simpl in E. subst n. discriminate H. }
  rewrite <- (Unsigned.of_to n) at 2. revert Hne.
  generalize (Nat.to_uint n); intros d Hne.
  pose proof (NilZero.usu _ Hne) as U.
  destruct d; [contradiction|..];
    cbn [NilZero.string_of_uint NilEmpty.string_of_uint] in U |- *;
    rewrite U; reflexivity.
Qed.

(** ** The generator monad: a Python generator that may raise *)

(** A computation of a Python generator function: the values it yields, in
    order, and how it ends ([Ok] when the body returns, [Err] when it
    raises).  The consumer has received every yield before the error. *)
Definition gen (E A : Type) : Type := (list E * result A)%type.

Definition gret {E A} (a : A) : gen E A := ([], Ok a).

Definition gbind {E A B} (m : gen E A) (k : A -> gen E B) : gen E B :=
  match m with
  | (ys, Ok a) => let (ys', r) := k a in (ys ++ ys', r)
  | (ys, Err e) => (ys, Err e)
  end.

Definition glift {E A} (r : result A) : gen E A := ([], r).

Definition gyield {E} (e : E) : gen E unit := ([e], Ok tt).

Notation "'do%' x '<-' c ';;' k" := (gbind c (fun x => k))
  (at level 10, x name, c at level 100, k at level 200) : fjlm_scope.

Lemma gbind_ret {E A B} (a : A) (k : A -> gen E B) : gbind (gret a) k = k a.
Proof. unfold gbind, gret. destruct (k a). reflexivity. Qed.

Lemma gbind_lift_ok {E A B} (a : A) (k : A -> gen E B) : gbind (glift (Ok a)) k = k a.
Proof. apply gbind_ret. Qed.

Lemma gbind_lift_err {E A B} e (k : A -> gen E B) : gbind (glift (Err e)) k = ([], Err e).
Proof. reflexivity. Qed.

Lemma gbind_yield {E B} (ev : E) (k : unit -> gen E B) :
  gbind (gyield ev) k = (ev :: fst (k tt), snd (k tt)).
Proof. unfold gbind, gyield. destruct (k tt). reflexivity. Qed.

Lemma gbind_assoc {E A B C} (m : gen E A) (k : A -> gen E B) (h : B -> gen E C) :
  gbind (gbind m k) h = gbind m (fun a => gbind (k a) h).
Proof.
  destruct m as [ys [a|e]]; simpl; [|reflexivity].
  destruct (k a) as [ys' [b|e]]; simpl; [|reflexivity].
  destruct (h b) as [ys'' r]. rewrite app_assoc. reflexivity.
Qed.

(** A computation that ends normally passes its result on and keeps its yields first. *)
Lemma gbind_ok {E A B} (ys : list E) (a : A) (k : A -> gen E B) :
  gbind (ys, Ok a) k = (ys ++ fst (k a), snd (k a)).
Proof. unfold gbind. destruct (k a). reflexivity. Qed.

(** [try: m] [except Exception as e: h(e)]: the events [m] yielded before
    it raised stay, and the exception is handed to the handler. *)
Definition gcatch {E A} (m : gen E A) (h : py_error -> gen E A) : gen E A :=
  match m with
  | (evs, Ok a) => (evs, Ok a)
  | (evs, Err e) => (evs ++ fst (h e), snd (h e))
  end.

Lemma gcatch_ok {E A} (evs : list E) (a : A) h : gcatch (evs, Ok a) h = (evs, Ok a).
Proof. reflexivity. Qed.

Lemma gcatch_err {E A} (evs : list E) e (h : py_error -> gen E A) :
  gcatch (evs, Err e) h = (evs ++ fst (h e), snd (h e)).
Proof. reflexivity. Qed.

#[export] Hint Rewrite @gbind_ret @gbind_lift_ok @gbind_lift_err @gbind_yield : fjlm_rw.
