(* ===== verification/Config.v ===== *)
(** * Run configuration ([src/train.py] lines 43-76)

    The [cfg] dictionary of the training script as a record, with the
    values the script fixes. *)

From Stdlib Require Import String Ascii List Arith Lia DecimalString DecimalNat.
From S2P Require Import Prelude.

(** [cfg = {'sequenceSize': ..., 'dimension': ..., 'arrayDimension': ...,
    'predictSteps': ..., 'batchSize': ...}]. *)
Record cfg : Type := {
  sequenceSize : nat;
  dimension : nat;
  arrayDimension : nat;
  predictSteps : nat;
  batchSize : nat
}.

Definition default_cfg : cfg := {|
  sequenceSize := 512;
  dimension := 512;
  arrayDimension := 8;
  predictSteps := 8;
  batchSize := 2048
|}.

(** The width of the slice [book[n + k : k + n + sequenceSize + predictSteps]]. *)
Definition window_width (c : cfg) : nat := sequenceSize c + predictSteps c.

(** [f"{n}"] for a natural number: its decimal digits. *)
Definition str_nat (n : nat) : string := NilEmpty.string_of_uint (Nat.to_uint n).

(** Line 51: [model_id = f"{cfg['sequenceSize']}_{cfg['dimension']}"]. *)
Definition model_id (c : cfg) : string :=
  (str_nat (sequenceSize c) ++ "_" ++ str_nat (dimension c))%string.

(** Line 52: [model_path = f'./models/llm_{model_id}']. *)
Definition model_path (c : cfg) : string := ("./models/llm_" ++ model_id c)%string.

(** Line 53: [checkpoint_path = f'checkpoint_{model_id}.txt']. *)
Definition checkpoint_path (c : cfg) : string := ("checkpoint_" ++ model_id c ++ ".txt")%string.

(** ** Decimal names *)

Definition is_digit (a : ascii) : bool :=
  match uint_of_char a (Some Decimal.Nil) with Some _ => true | None => false end.

(** Digits followed by a separator that is not a digit determine both
    the digits and what follows. *)
Lemma string_of_uint_sep ch d1 d2 t1 t2 :
  is_digit ch = false ->
  (NilEmpty.string_of_uint d1 ++ String ch t1 = NilEmpty.string_of_uint d2 ++ String ch t2)%string ->
  d1 = d2 /\ t1 = t2.
Proof.
  intros Hch. revert d2; induction d1; intros [] H; simpl in H; inversion H; subst;
    try discriminate Hch; try (split; reflexivity);
    try (destruct (IHd1 _ H1) as [-> ->]; split; reflexivity).
Qed.

Lemma append_cancel_l (p a b : string) : (p ++ a = p ++ b)%string -> a = b.
Proof. induction p as [|ch p IH]; simpl; intros H; [exact H|injection H; exact IH]. Qed.

Lemma append_assoc_str (a b d : string) : ((a ++ b) ++ d = a ++ (b ++ d))%string.
Proof. induction a as [|ch a IH]; simpl; [reflexivity|now rewrite IH]. Qed.

Lemma append_nil_str (a : string) : (a ++ "")%string = a.
Proof. induction a as [|ch a IH]; simpl; [reflexivity|now rewrite IH]. Qed.

Lemma str_nat_inj n1 n2 : str_nat n1 = str_nat n2 -> n1 = n2.
Proof.
  unfold str_nat. intros H. apply (f_equal NilEmpty.uint_of_string) in H.
  rewrite !NilEmpty.usu in H. injection H. apply Unsigned.to_uint_inj.
Qed.

(** The decimal name [model_id] determines [sequenceSize] and [dimension]. *)
Lemma model_id_sep c1 c2 t1 t2 :
  (model_id c1 ++ t1 = model_id c2 ++ t2)%string ->
  sequenceSize c1 = sequenceSize c2 /\ (str_nat (dimension c1) ++ t1 = str_nat (dimension c2) ++ t2)%string.
Proof.
  unfold model_id. rewrite !append_assoc_str. simpl. intros H.
  apply string_of_uint_sep in H as [H1 H2]; [|reflexivity].
  split; [apply Unsigned.to_uint_inj, H1|exact H2].
Qed.

(** C26: the files a run reads and writes (lines 51-53) are named after
    [sequenceSize] and [dimension] only: two configurations share the checkpoint file,
    and likewise the saved model, exactly when these two values agree,
    whatever their [arrayDimension], [predictSteps] or [batchSize]. *)
Theorem checkpoint_model_paths c1 c2 :
  (checkpoint_path c1 = checkpoint_path c2
   <-> sequenceSize c1 = sequenceSize c2 /\ dimension c1 = dimension c2)
  /\ (model_path c1 = model_path c2
   <-> sequenceSize c1 = sequenceSize c2 /\ dimension c1 = dimension c2).
Proof.
  unfold checkpoint_path, model_path. split; split.
  - intros H. apply append_cancel_l, model_id_sep in H as [HS HD]. split; [exact HS|].
    apply string_of_uint_sep in HD as [HD _]; [|reflexivity]. apply Unsigned.to_uint_inj, HD.
  - intros [HS HD]. unfold model_id. now rewrite HS, HD.
  - intros H. apply append_cancel_l in H.
    rewrite <- (append_nil_str (model_id c1)), <- (append_nil_str (model_id c2)) in H.
    apply model_id_sep in H as [HS HD]. rewrite !append_nil_str in HD.
    split; [exact HS|apply str_nat_inj, HD].
  - intros [HS HD]. unfold model_id. now rewrite HS, HD.
Qed.

(** A run with [predictSteps = 16] resumes the checkpoint of the default
    configuration. *)
Lemma checkpoint_shared_predict_steps :
  checkpoint_path {| sequenceSize := 512; dimension := 512; arrayDimension := 8;
                     predictSteps := 16; batchSize := 2048 |} = checkpoint_path default_cfg.
Proof. reflexivity. Qed.
