(* ===== verification/Generator.v ===== *)
(** * WindowBatchGenerator: [generator] of [src/train.py] (lines 344-392)

    The nested Python generator [generator(book_paths, is_training_dataset)]
    defined inside [run()], with the module globals [setx] and [last_batch]
    (lines 314-315) it rebinds, as a computation of the generator monad
    [gen] of the prelude.  Each yielded event carries the batch [(tx1, ty1)]
    and the globals at the moment the generator suspends, which is what a
    consumer reading [last_batch] between two pulls observes.

    The token-to-vector conversion [convert] (the vector dictionary), the
    tokenized-book cache and the tokenizer are parameters of the section. *)

From Stdlib Require Import String List Arith Lia ZArith.
From S2P Require Import Prelude Config.
Import ListNotations.
Open Scope fjlm_scope.

Module WindowBatchGenerator.

Section Generator.
Context {K : Type}.

(** [convert(n)]: token id to vector (the vector dictionary). *)
Variable convert : nat -> list K.
Variable c : cfg.
(** [pickle.load] of [./tokenized_books/<name>.tokenized.pkl], [None]
    when the [try] block raises. *)
Variable load_tokenized : string -> option (list nat).
(** [tokenizer.encode(open('./data/<name>').read())]. *)
Variable read_and_encode : string -> list nat.

Definition window : Type := (list (list K) * list (list K))%type.
Definition batch : Type := (list (list (list K)) * list (list (list K)))%type.

(** The module globals [setx] and [last_batch]. *)
Record globals : Type := mk_globals {
  setx : list window;
  last_batch : list window
}.

Definition init_globals : globals := mk_globals [] [].

Definition event : Type := (batch * globals)%type.

(** Lines 351-360: the cached token list, or on any exception the
    tokenized text of the book. *)
Definition get_book (book_path : string) : list nat :=
  match load_tokenized book_path with
  | Some book => book
  | None => read_and_encode book_path
  end.

(** Lines 366-378: one window at offset [n + k]. *)
Definition make_window (book : list nat) (n k : nat) : result window :=
  let pool_slice :=
    book.[Some (Z.of_nat (n + k))
          : Some (Z.of_nat (k + n + sequenceSize c + predictSteps c))] in
  let xs := pool_slice.[None : Some (Z.of_nat (sequenceSize c))] in
  let ys := pool_slice.[Some (- Z.of_nat (sequenceSize c))%Z : None] in
  let xs_converted := map convert xs in
  let ys_converted := map convert ys in
  let* _ := np_array2 xs_converted in
  let* _ := np_array2 ys_converted in
  Ok (xs_converted, ys_converted).

(** Lines 365-378: [for k in range(batchSize): ... setx.append(...)]. *)
Fixpoint inner_loop (book : list nat) (n : nat) (ks : list nat) (sx : list window)
  : result (list window) :=
  match ks with
  | [] => Ok sx
  | k :: ks' => let* w := make_window book n k in inner_loop book n ks' (sx ++ [w])
  end.

(** Lines 387-388: [tx1 = np.array([item[0] ...]); ty1 = np.array(...)]. *)
Definition make_batch (sx : list window) : result batch :=
  let* _ := np_stack (map (fun w => shape2 (fst w)) sx) in
  let* _ := np_stack (map (fun w => shape2 (snd w)) sx) in
  Ok (map fst sx, map snd sx).

(** Lines 364-392: [for _ in range(len(book) // batchSize)], with the
    counter [n] and the flush of [setx] when it holds a full batch. *)
Fixpoint outer_loop (book : list nat) (n iters : nat) (G : globals)
  : gen event globals :=
  match iters with
  | 0 => gret G
  | S iters' =>
      do% sx <- glift (inner_loop book n (seq 0 (batchSize c)) (setx G)) ;;
      if length sx =? batchSize c then
        do% b <- glift (make_batch sx) ;;
        let G' := mk_globals [] sx in
        do% _ <- gyield (b, G') ;;
        outer_loop book (S n) iters' G'
      else outer_loop book (S n) iters' (mk_globals sx (last_batch G))
  end.

(** Lines 349-364: one book; [len(book) // 0] raises. *)
Definition process_book (G : globals) (book_path : string) : gen event globals :=
  let book := get_book book_path in
  let G0 := mk_globals [] (last_batch G) in
  match batchSize c with
  | 0 => glift (Err ZeroDivisionError)
  | B => outer_loop book 0 (length book / B) G0
  end.

(** Line 349: [for book_path in book_paths]. *)
Fixpoint generator (book_paths : list string) (G : globals) : gen event globals :=
  match book_paths with
  | [] => gret G
  | bp :: bps => do% G' <- process_book G bp ;; generator bps G'
  end.

(** *** Windows by start offset *)

(** The slice [book[s : s + sequenceSize + predictSteps]]. *)
Definition pool_at (book : list nat) (s : nat) : list nat :=
  firstn (window_width c) (skipn s book).

(** The window [(xs_converted, ys_converted)] at start offset [s]. *)
Definition window_at (book : list nat) (s : nat) : window :=
  let pool := pool_at book s in
  (map convert (firstn (sequenceSize c) pool),
   map convert pool.[Some (- Z.of_nat (sequenceSize c))%Z : None]).

(** The windows of the [n]-th group: offsets [n + 0 .. n + batchSize - 1]. *)
Definition batch_windows (book : list nat) (n : nat) : list window :=
  map (fun k => window_at book (n + k)) (seq 0 (batchSize c)).

Definition batch_of (sx : list window) : batch := (map fst sx, map snd sx).

(** What the generator yields for group [n]: the batch and the globals
    right after [last_batch = list(setx); setx = []]. *)
Definition batch_event (book : list nat) (n : nat) : event :=
  (batch_of (batch_windows book n), mk_globals [] (batch_windows book n)).

(** Every window of the first [groups] groups lies inside the book: the
    last offset [groups - 1 + batchSize - 1] plus the window width is at
    most [len(book)]. *)
Definition book_fits (len groups : nat) : Prop :=
  groups = 0 \/ groups + batchSize c + window_width c <= len + 2.

End Generator.

(** ** Lemmas on windows *)

Section WindowLemmas.
Context {K : Type} (convert : nat -> list K) (c : cfg).

Lemma pool_slice_eq (book : list nat) n k :
  book.[Some (Z.of_nat (n + k))
        : Some (Z.of_nat (k + n + sequenceSize c + predictSteps c))]
  = pool_at c book (n + k).
Proof.
  rewrite py_slice_nat. unfold pool_at, window_width. f_equal. lia.
Qed.

Lemma length_pool_at book s :
  length (pool_at c book s) = Nat.min (window_width c) (length book - s).
Proof. unfold pool_at. len_solve. Qed.

Section Width.
Variable d : nat.
Hypothesis convert_width : forall t, length (convert t) = d.

Lemma map_convert_width (ts : list nat) :
  forall r, In r (map convert ts) -> length r = d.
Proof. intros r Hr. apply in_map_iff in Hr as [t [<- _]]. apply convert_width. Qed.

Lemma make_window_ok book n k :
  make_window convert c book n k = Ok (window_at convert c book (n + k)).
Proof.
  unfold make_window, window_at. rewrite pool_slice_eq, py_slice_prefix.
  rewrite !(np_array2_uniform d) by apply map_convert_width. reflexivity.
Qed.

Lemma inner_loop_ok book n ks sx :
  inner_loop convert c book n ks sx
  = Ok (sx ++ map (fun k => window_at convert c book (n + k)) ks).
Proof.
  revert sx; induction ks as [|k ks IH]; intros sx; simpl.
  - rewrite app_nil_r. reflexivity.
  - rewrite make_window_ok. simpl. rewrite IH, <- app_assoc. reflexivity.
Qed.

(** A window inside the book has [sequenceSize] input rows, and as many
    target rows ([predictSteps] when [sequenceSize = 0], since [-0] is
    [0] and [pool_slice[-0:]] is the whole slice). *)
Lemma window_at_full_lengths book s :
  s + window_width c <= length book ->
  length (fst (window_at convert c book s)) = sequenceSize c /\
  length (snd (window_at convert c book s))
    = match sequenceSize c with 0 => predictSteps c | _ => sequenceSize c end.
Proof.
  intros Hs. unfold window_at. simpl.
  pose proof (length_pool_at book s) as Hp.
  rewrite Nat.min_l in Hp by lia. unfold window_width in Hp.
  split; [len_solve|].
  destruct (sequenceSize c) as [|S'] eqn:HS.
  - rewrite py_slice_suffix_0. len_solve.
  - rewrite py_slice_suffix by lia. len_solve.
Qed.

(** [np.array] of the inputs and of the targets (lines 387-388) of
    windows that all lie inside their books, whichever books they come
    from: every window has the same shapes, so both stacks succeed. *)
Lemma make_batch_fits (sx : list (@window K)) :
  sx <> [] ->
  (forall w, In w sx -> exists book s, w = window_at convert c book s /\ s + window_width c <= length book) ->
  make_batch sx = Ok (batch_of sx).
Proof.
  intros Hne Hw. unfold make_batch.
  assert (Hm : forall A (f : window -> A), map f sx <> []) by (intros A f; destruct sx; [contradiction|discriminate]).
  rewrite (np_stack_const (match sequenceSize c with 0 => [0] | m => [m; d] end)); [|apply Hm|].
  2:{ intros s' Hs'. apply in_map_iff in Hs' as [w [<- Hin]].
      destruct (Hw w Hin) as (book & s & -> & Hs).
      rewrite (shape2_uniform d) by apply map_convert_width.
      now rewrite (proj1 (window_at_full_lengths book s Hs)). }
  cbn [bind]. rewrite (np_stack_const
    (match match sequenceSize c with 0 => predictSteps c | _ => sequenceSize c end
     with 0 => [0] | m => [m; d] end)); [reflexivity|apply Hm|].
  intros s' Hs'. apply in_map_iff in Hs' as [w [<- Hin]].
  destruct (Hw w Hin) as (book & s & -> & Hs).
  rewrite (shape2_uniform d) by apply map_convert_width.
  now rewrite (proj2 (window_at_full_lengths book s Hs)).
Qed.

Lemma make_batch_full book n :
  0 < batchSize c ->
  (forall k, k < batchSize c -> n + k + window_width c <= length book) ->
  make_batch (batch_windows convert c book n) = Ok (batch_of (batch_windows convert c book n)).
Proof.
  intros HB Hfit. apply make_batch_fits.
  - unfold batch_windows. destruct (batchSize c); [lia|discriminate].
  - intros w Hw. unfold batch_windows in Hw. apply in_map_iff in Hw as [k [<- Hk]].
    apply in_seq in Hk. exists book, (n + k). split; [reflexivity|]. apply Hfit. lia.
Qed.

(** The loop over [iters] groups starting at group [n] with an empty
    [setx] yields one event per group and leaves [last_batch] at the
    last group's windows. *)
Lemma outer_loop_full book n iters last :
  0 < batchSize c ->
  (forall j k, j < iters -> k < batchSize c ->
               n + j + k + window_width c <= length book) ->
  outer_loop convert c book n iters (mk_globals [] last)
  = (map (batch_event convert c book) (seq n iters),
     Ok (mk_globals [] (match iters with
                        | 0 => last
                        | S i => batch_windows convert c book (n + i) end))).
Proof.
  revert n last; induction iters as [|i IH]; intros n last HB Hfit; [reflexivity|].
  cbn [outer_loop setx]. rewrite inner_loop_ok, app_nil_l.
  fold (batch_windows convert c book n).
  rewrite gbind_lift_ok.
  replace (length (batch_windows convert c book n) =? batchSize c) with true
    by (symmetry; apply Nat.eqb_eq; unfold batch_windows; len_solve).
  rewrite make_batch_full by (auto; intros k Hk; specialize (Hfit 0 k); lia).
  rewrite gbind_lift_ok, gbind_yield.
  rewrite IH by (auto; intros j k Hj Hk; specialize (Hfit (S j) k); lia).
  simpl. destruct i; rewrite ?Nat.add_0_r, ?Nat.add_succ_r; reflexivity.
Qed.
End Width.
End WindowLemmas.


(** ** Lemmas on whole books *)

Section BookLemmas.
Context {K : Type} (convert : nat -> list K) (c : cfg).

Lemma process_book_outer load enc (G : @globals K) bp :
  0 < batchSize c ->
  process_book convert c load enc G bp
  = outer_loop convert c (get_book load enc bp) 0
      (length (get_book load enc bp) / batchSize c) (mk_globals [] (last_batch G)).
Proof. intros HB. unfold process_book. destruct (batchSize c); [lia|reflexivity]. Qed.

(** The [n]-th element of the yields of a full book. *)
Lemma nth_batch_event book n iters ev :
  nth_error (map (batch_event convert c book) (seq 0 iters)) n = Some ev ->
  n < iters /\ ev = batch_event convert c book n.
Proof.
  rewrite nth_error_map, nth_error_seq.
  destruct (Nat.ltb_spec n iters) as [Hlt|Hge]; simpl; intros Hs; inversion Hs; auto.
Qed.

Lemma nth_batch_windows book n j :
  j < batchSize c ->
  nth_error (batch_windows convert c book n) j = Some (window_at convert c book (n + j)).
Proof.
  intros Hj. unfold batch_windows. rewrite nth_error_map, nth_error_seq.
  destruct (Nat.ltb_spec j (batchSize c)); [reflexivity|lia].
Qed.

Lemma inner_loop_length book n ks sx sx' :
  inner_loop convert c book n ks sx = Ok sx' -> length sx' = length sx + length ks.
Proof.
  revert sx; induction ks as [|k ks IH]; intros sx H; simpl in H.
  - inversion H; simpl; lia.
  - bind_inv H. apply IH in H. simpl. len_solve.
Qed.

(** The pool of a window that does not reach the end of the book. *)
Lemma pool_at_full book s :
  s + window_width c <= length book ->
  length (pool_at c book s) = window_width c.
Proof. intros H. rewrite length_pool_at. lia. Qed.

(** [np.array] of arrays with two different shapes raises. *)
Lemma np_stack_two_shapes (shapes : list (list nat)) s0 s1 rest :
  shapes = s0 :: rest -> In s1 rest -> s1 <> s0 -> np_stack shapes = Err ValueError.
Proof.
  intros -> Hin Hne. unfold np_stack.
  replace (forallb _ _) with false; [reflexivity|].
  destruct (forallb _ _) eqn:E; [|reflexivity].
  rewrite forallb_forall in E. specialize (E s1 (or_intror Hin)).
  destruct (list_eq_dec Nat.eq_dec s1 s0); congruence.
Qed.

(** Starting from an empty [setx], the outer loop ends with an empty [setx]. *)
Lemma outer_loop_setx_flushed book n iters (G : @globals K) ys G' :
  setx G = [] ->
  outer_loop convert c book n iters G = (ys, Ok G') -> setx G' = [].
Proof.
  revert n G ys; induction iters as [|i IH]; intros n G ys HG H; cbn [outer_loop] in H.
  - inversion H; subst; exact HG.
  - destruct (inner_loop convert c book n _ (setx G)) as [sx|e] eqn:Ein;
      [rewrite gbind_lift_ok in H | discriminate].
    apply inner_loop_length in Ein. rewrite HG, length_seq in Ein.
    replace (length sx =? batchSize c) with true in H by (symmetry; apply Nat.eqb_eq; exact Ein).
    destruct (make_batch sx) as [b|e]; [rewrite gbind_lift_ok, gbind_yield in H|discriminate].
    destruct (outer_loop convert c book (S n) i (mk_globals [] sx)) as [ys1 r1] eqn:Eo.
    cbn [fst snd] in H. inversion H; subst. eapply IH; [|exact Eo]. reflexivity.
Qed.
End BookLemmas.

(** ** Properties of the generator *)

Section Properties.
Context {K : Type} (convert : nat -> list K) (c : cfg).
Variable load_tokenized : string -> option (list nat).
Variable read_and_encode : string -> list nat.

(** Every yielded batch is built from a full [setx]. *)
Lemma make_batch_ok (sx : list (@window K)) b : make_batch sx = Ok b -> b = batch_of sx.
Proof.
  unfold make_batch. intros H. bind_inv H. bind_inv H. now inversion H.
Qed.

Lemma window_at_inputs book s :
  fst (window_at convert c book s)
  = map convert (firstn (sequenceSize c) (skipn s book)).
Proof.
  unfold window_at, pool_at, window_width. simpl.
  rewrite firstn_firstn, Nat.min_l by lia. reflexivity.
Qed.

(** The yield invariant of [outer_loop], for any book and any outcome. *)
Definition yield_inv (ev : @event K) : Prop :=
  setx (snd ev) = [] /\ fst ev = batch_of (last_batch (snd ev)).

Lemma outer_loop_yield_inv book n iters (G : @globals K) :
  Forall yield_inv (fst (outer_loop convert c book n iters G)).
Proof.
  revert n G; induction iters as [|i IH]; intros n G; cbn [outer_loop]; [constructor|].
  destruct (inner_loop convert c book n _ (setx G)) as [sx|e];
    [rewrite gbind_lift_ok | constructor].
  destruct (length sx =? batchSize c); [|apply IH].
  destruct (make_batch sx) as [b|e] eqn:Hb; [rewrite gbind_lift_ok, gbind_yield | constructor].
  constructor; [|apply IH].
  split; [reflexivity|]. simpl. now apply make_batch_ok.
Qed.

Lemma gbind_fst_Forall {E A B} (P : E -> Prop) (m : gen E A) (k : A -> gen E B) :
  Forall P (fst m) -> (forall a, Forall P (fst (k a))) -> Forall P (fst (gbind m k)).
Proof.
  destruct m as [ys [a|e]]; simpl; intros H1 H2; [|exact H1].
  specialize (H2 a). destruct (k a) as [ys' r]. simpl in *.
  apply Forall_app; auto.
Qed.

(** C8: whatever the books and whether or not the generator raises, every
    batch it yields is the one stored in [last_batch] at that point, and
    [setx] is empty there: a consumer reading [last_batch] after pulling a
    batch reads the windows of that batch. *)
Theorem generator_yield_last_batch book_paths G :
  Forall (fun ev => setx (snd ev) = [] /\ fst ev = batch_of (last_batch (snd ev)))
    (fst (generator convert c load_tokenized read_and_encode book_paths G)).
Proof.
  revert G; induction book_paths as [|bp bps IH]; intros G; simpl; [constructor|].
  apply gbind_fst_Forall; [|exact IH].
  unfold process_book. destruct (batchSize c); [constructor|].
  apply outer_loop_yield_inv.
Qed.

(** C4: the windows of group [n + 1] are those of group [n] without the
    first one, followed by the window at offset [n + batchSize]:
    consecutive batches share [batchSize - 1] windows. *)
Theorem batch_windows_overlap book n :
  0 < batchSize c ->
  batch_windows convert c book (S n)
  = tl (batch_windows convert c book n) ++ [window_at convert c book (n + batchSize c)].
Proof.
  intros HB. unfold batch_windows.
  destruct (batchSize c) as [|B] eqn:EB; [lia|].
  transitivity (map (fun k => window_at convert c book (n + k)) (seq 1 (S B))).
  - rewrite <- seq_shift, map_map. apply map_ext. intros k. f_equal. lia.
  - rewrite seq_S, map_app. reflexivity.
Qed.

(** C5: a window that ends inside the book has as targets the
    [sequenceSize] tokens that start [predictSteps] after its inputs. *)
Theorem window_targets_aligned book s :
  0 < sequenceSize c ->
  s + window_width c <= length book ->
  snd (window_at convert c book s)
  = map convert (firstn (sequenceSize c) (skipn (s + predictSteps c) book)).
Proof.
  intros HS Hfit. unfold window_at. cbn [snd].
  rewrite py_slice_suffix by exact HS.
  rewrite pool_at_full by exact Hfit. unfold pool_at, window_width.
  rewrite skipn_firstn_comm, skipn_skipn. do 3 f_equal; lia.
Qed.

(** C6: a window whose slice is cut by the end of the book but still holds
    [sequenceSize] tokens takes as targets the last [sequenceSize] tokens
    of the book: its targets are shifted by less than [predictSteps]
    (by [0] when the slice holds exactly [sequenceSize] tokens). *)
Theorem window_targets_truncated book s :
  0 < sequenceSize c ->
  s + sequenceSize c <= length book < s + window_width c ->
  snd (window_at convert c book s)
  = map convert (skipn (length book - sequenceSize c) book)
  /\ length book - sequenceSize c < s + predictSteps c.
Proof.
  intros HS [Hlo Hhi]. split; [|unfold window_width in Hhi; lia].
  unfold window_at. cbn [snd]. rewrite py_slice_suffix by exact HS.
  rewrite length_pool_at, Nat.min_r by lia. unfold pool_at.
  rewrite skipn_firstn_comm, skipn_skipn, firstn_all2; [do 2 f_equal; lia|].
  rewrite length_skipn. lia.
Qed.

(** C9: every group adds exactly [batchSize] windows to an empty [setx],
    so the test [len(setx) == batchSize] always holds and the generator
    leaves [setx] empty after each book: there is never a partial batch
    to drop. *)
Theorem generator_setx_flushed book_paths G evs G' :
  book_paths <> [] ->
  generator convert c load_tokenized read_and_encode book_paths G = (evs, Ok G') ->
  setx G' = [].
Proof.
  revert G evs; induction book_paths as [|bp bps IH]; intros G evs Hne H; [contradiction|].
  simpl in H. destruct (process_book convert c load_tokenized read_and_encode G bp)
    as [ys [G1|e]] eqn:E; [|discriminate].
  destruct bps as [|bp' bps'].
  - simpl in H. inversion H; subst. clear H.
    unfold process_book in E. destruct (batchSize c) as [|B]; [discriminate|].
    eapply outer_loop_setx_flushed; [|exact E]. reflexivity.
  - cbn [gbind] in H.
    destruct (generator convert c load_tokenized read_and_encode (bp' :: bps') G1)
      as [ys' r] eqn:E2.
    inversion H; subst. eapply IH; [discriminate|exact E2].
Qed.

Section WellFormed.
Variable d : nat.
Hypothesis convert_width : forall t, length (convert t) = d.

(** C1: with a dictionary whose vectors all have [d] components and a
    book in which every window fits, [process_book] yields exactly one
    event per group [n < len(book) // batchSize], the batch made of the
    windows at offsets [n + 0 .. n + batchSize - 1], and ends normally
    with [setx] empty and [last_batch] holding the last batch. *)
Theorem process_book_trace G bp :
  let book := get_book load_tokenized read_and_encode bp in
  0 < batchSize c ->
  book_fits c (length book) (length book / batchSize c) ->
  process_book convert c load_tokenized read_and_encode G bp
  = (map (batch_event convert c book) (seq 0 (length book / batchSize c)),
     Ok (mk_globals [] (match length book / batchSize c with
                        | 0 => last_batch G
                        | S i => batch_windows convert c book i end))).
Proof.
  intros book HB Hfits. unfold process_book. fold book.
  destruct (batchSize c) as [|B] eqn:EB; [lia|]. rewrite <- EB.
  rewrite (outer_loop_full convert c d convert_width); [reflexivity|lia|].
  intros j k Hj Hk. rewrite EB in *.
  unfold book_fits, window_width in *. rewrite EB in Hfits. lia.
Qed.

(** C2: the batch-count law of the code: a book of [L] tokens in which
    every window fits yields [L // batchSize] batches, whatever the
    window width. *)
Theorem batch_count G bp :
  let book := get_book load_tokenized read_and_encode bp in
  0 < batchSize c ->
  book_fits c (length book) (length book / batchSize c) ->
  length (fst (process_book convert c load_tokenized read_and_encode G bp))
  = length book / batchSize c.
Proof.
  intros book HB Hfits. rewrite process_book_outer by exact HB. fold book.
  rewrite (outer_loop_full convert c d convert_width); [cbn [fst]; now rewrite length_map, length_seq|lia|].
  intros j k Hj Hk. destruct Hfits; unfold window_width in *; [|lia].
  rewrite H in Hj; lia.
Qed.

(** C3: the [j]-th input sequence of the [n]-th batch a book yields is
    the converted slice [book[n + j : n + j + sequenceSize]]: groups
    advance by one token, not by [batchSize]. *)
Theorem batch_inputs_offset G bp n j b G' :
  let book := get_book load_tokenized read_and_encode bp in
  0 < batchSize c ->
  book_fits c (length book) (length book / batchSize c) ->
  nth_error (fst (process_book convert c load_tokenized read_and_encode G bp)) n
    = Some (b, G') ->
  j < batchSize c ->
  nth_error (fst b) j
    = Some (map convert (firstn (sequenceSize c) (skipn (n + j) book))).
Proof.
  intros book HB Hfits Hn Hj.
  rewrite process_book_outer in Hn by exact HB. fold book in Hn.
  rewrite (outer_loop_full convert c d convert_width) in Hn; [|lia|].
  2:{ intros j' k Hj' Hk. destruct Hfits as [H0|H1]; unfold window_width in *;
      [rewrite H0 in Hj'; lia | lia]. }
  apply nth_batch_event in Hn as [_ Hev]. inversion Hev; subst.
  cbn [fst batch_of]. unfold batch_windows.
  rewrite map_map, nth_error_map, nth_error_seq.
  destruct (Nat.ltb_spec j (batchSize c)); [|lia].
  cbn [option_map]. now rewrite window_at_inputs.
Qed.

Lemma shape_inputs book s :
  shape2 (fst (window_at convert c book s))
  = match Nat.min (sequenceSize c) (length book - s) with 0 => [0] | m => [m; d] end.
Proof.
  rewrite window_at_inputs, (shape2_uniform d)
    by apply (map_convert_width convert d convert_width).
  now rewrite length_map, length_firstn, length_skipn.
Qed.

(** C7: a book of [L] tokens with [batchSize <= L] and
    [L < batchSize - 1 + sequenceSize] makes the generator raise
    [ValueError]: the first group mixes windows of [sequenceSize] rows
    with a window cut by the end of the book, and [np.array] refuses the
    ragged list.  Nothing is yielded. *)
Theorem short_book_raises G bp :
  let book := get_book load_tokenized read_and_encode bp in
  0 < sequenceSize c ->
  sequenceSize c <= length book ->
  batchSize c <= length book ->
  length book + 1 < batchSize c + sequenceSize c ->
  process_book convert c load_tokenized read_and_encode G bp = ([], Err ValueError).
Proof.
  intros book HS HSL HBL Hshort.
  rewrite process_book_outer by lia. fold book.
  destruct (length book / batchSize c) as [|i] eqn:Eq.
  { apply Nat.div_small_iff in Eq; lia. }
  cbn [outer_loop setx].
  rewrite (inner_loop_ok convert c d convert_width), app_nil_l.
  fold (batch_windows convert c book 0). rewrite gbind_lift_ok.
  replace (length (batch_windows convert c book 0) =? batchSize c) with true
    by (symmetry; apply Nat.eqb_eq; unfold batch_windows; len_solve).
  replace (make_batch (batch_windows convert c book 0)) with (@Err (@batch K) ValueError);
    [reflexivity|].
  unfold make_batch, batch_windows.
  destruct (batchSize c) as [|[|B]] eqn:EB; [lia|lia|].
  rewrite (np_stack_two_shapes _ (shape2 (fst (window_at convert c book 0)))
             (shape2 (fst (window_at convert c book (S B)))) 
             (map (fun w => shape2 (fst w))
                (map (fun k => window_at convert c book (0 + k)) (seq 1 (S B)))));
    [reflexivity|reflexivity| |].
  - rewrite map_map. apply in_map_iff. exists (S B). split; [reflexivity|].
    apply in_seq. lia.
  - rewrite !shape_inputs.
    destruct (Nat.min (sequenceSize c) (length book - S B)) eqn:Em;
      rewrite Nat.min_l by lia; destruct (sequenceSize c); try lia;
      intros Heq; inversion Heq; lia.
Qed.
End WellFormed.
End Properties.

(** ** Witnesses on a small configuration *)

(** [sequenceSize = 2], [predictSteps = 1], [batchSize = 2]; one-component
    vectors [convert t = [t]]; the book named "a" has tokens 10..15, the
    book "b" tokens 10..13 and the book "c" tokens 10..11. *)
Definition ex_cfg : cfg := {|
  sequenceSize := 2; dimension := 4; arrayDimension := 1; predictSteps := 1; batchSize := 2
|}.

Definition ex_convert (t : nat) : list nat := [t].

Definition ex_cache (name : string) : option (list nat) :=
  if String.eqb name "a"%string then Some [10; 11; 12; 13; 14; 15]
  else if String.eqb name "b"%string then Some [10; 11; 12; 13]
  else Some [10; 11].

Definition ex_encode (name : string) : list nat := [].

Lemma ex_convert_width t : length (ex_convert t) = 1.
Proof. reflexivity. Qed.

Lemma process_book_trace_witness :
  process_book ex_convert ex_cfg ex_cache ex_encode init_globals "a"%string
  = (map (batch_event ex_convert ex_cfg [10; 11; 12; 13; 14; 15]) [0; 1; 2],
     Ok (mk_globals [] (batch_windows ex_convert ex_cfg [10; 11; 12; 13; 14; 15] 2))).
Proof.
  exact (process_book_trace ex_convert ex_cfg ex_cache ex_encode 1 ex_convert_width
           init_globals "a"%string ltac:(vm_compute; lia) ltac:(vm_compute; right; lia)).
Defined.

Lemma batch_count_witness :
  length (fst (process_book ex_convert ex_cfg ex_cache ex_encode init_globals "a"%string)) = 3.
Proof.
  exact (batch_count ex_convert ex_cfg ex_cache ex_encode 1 ex_convert_width
           init_globals "a"%string ltac:(vm_compute; lia) ltac:(vm_compute; right; lia)).
Defined.

Lemma batch_inputs_offset_witness :
  nth_error (fst (fst (batch_event ex_convert ex_cfg [10; 11; 12; 13; 14; 15] 2))) 1
  = Some [[13]; [14]].
Proof.
  exact (batch_inputs_offset ex_convert ex_cfg ex_cache ex_encode 1 ex_convert_width
           init_globals "a"%string 2 1 _ _ ltac:(vm_compute; lia) ltac:(vm_compute; right; lia)
           eq_refl ltac:(vm_compute; lia)).
Defined.

Lemma batch_windows_overlap_witness :
  batch_windows ex_convert ex_cfg [10; 11; 12; 13; 14; 15] 1
  = [([[11]; [12]], [[12]; [13]]); ([[12]; [13]], [[13]; [14]])].
Proof.
  rewrite (batch_windows_overlap ex_convert ex_cfg [10; 11; 12; 13; 14; 15] 0
             ltac:(vm_compute; lia)).
  reflexivity.
Defined.

Lemma window_targets_aligned_witness :
  snd (window_at ex_convert ex_cfg [10; 11; 12; 13; 14; 15] 1) = [[12]; [13]].
Proof.
  rewrite (window_targets_aligned ex_convert ex_cfg [10; 11; 12; 13; 14; 15] 1
             ltac:(vm_compute; lia) ltac:(vm_compute; lia)).
  reflexivity.
Defined.

(** In the book 10..13 the window at offset 2 has inputs [12; 13] and,
    instead of [13; 14], the targets [12; 13]. *)
Lemma window_targets_truncated_witness :
  snd (window_at ex_convert ex_cfg [10; 11; 12; 13] 2) = [[12]; [13]]
  /\ fst (window_at ex_convert ex_cfg [10; 11; 12; 13] 2) = [[12]; [13]].
Proof.
  split; [|reflexivity].
  rewrite (proj1 (window_targets_truncated ex_convert ex_cfg [10; 11; 12; 13] 2
                    ltac:(vm_compute; lia) ltac:(vm_compute; lia))).
  reflexivity.
Defined.

Lemma short_book_raises_witness :
  process_book ex_convert ex_cfg ex_cache ex_encode init_globals "c"%string = ([], Err ValueError).
Proof.
  exact (short_book_raises ex_convert ex_cfg ex_cache ex_encode 1 ex_convert_width
           init_globals "c"%string ltac:(vm_compute; lia) ltac:(vm_compute; lia)
           ltac:(vm_compute; lia) ltac:(vm_compute; lia)).
Defined.

Lemma generator_setx_flushed_witness :
  let run := generator ex_convert ex_cfg ex_cache ex_encode ["a"%string; "b"%string]
               init_globals in
  let G' := mk_globals [] (batch_windows ex_convert ex_cfg [10; 11; 12; 13] 1) in
  run = (fst run, Ok G') /\ setx G' = [].
Proof.
  intros run G'. split; [vm_compute; reflexivity|].
  apply (generator_setx_flushed ex_convert ex_cfg ex_cache ex_encode
           ["a"%string; "b"%string] init_globals (fst run) G' ltac:(discriminate)).
  vm_compute. reflexivity.
Defined.

End WindowBatchGenerator.
