(* ===== verification/Dataset.v ===== *)
(** * Dataset: the [tf.data] pipeline of [run()] ([src/train.py] lines 394-404)

    [tf.data.Dataset.from_generator(lambda: generator(books, ...),
    output_signature=(TensorSpec(...), TensorSpec(...)))]: the dataset
    pulls the generator of [Generator.v] and checks every element it
    yields against the declared signature.  TensorFlow's check
    ([structure.are_compatible] of the element's spec with the signature)
    raises [TypeError] inside the iterator at the first element whose shape
    differs; elements before it are delivered, the generator's own outcome
    is seen only when every element passed.

    [from_generator] is library semantics (not mapped to the source); the
    signature and the two datasets are the code of [run()].  [.cache()]
    and [.prefetch()] keep the elements and their order within an epoch and
    are not modelled. *)

From Stdlib Require Import String List Arith Lia.
From S2P Require Import Prelude Config Generator.
Import ListNotations.
Open Scope fjlm_scope.

Module Dataset.
Import WindowBatchGenerator.

(** [tf.TensorSpec(shape=..., dtype=tf.float32)]: the arrays the generator
    yields are [float32] ([dtype=np.float32], lines 375-376), so only the
    shape can differ. *)
Definition tensor_spec : Type := list nat.

(** Lines 394-396 (and 398-400): both components of every element are
    declared [(batchSize, sequenceSize, predictSteps)]. *)
Definition output_signature (c : cfg) : tensor_spec * tensor_spec :=
  ([batchSize c; sequenceSize c; predictSteps c],
   [batchSize c; sequenceSize c; predictSteps c]).

(** The shape of [np.array([item[0] for item in setx])]: the stack of the
    windows' arrays. *)
Definition array_shape {K} (xs : list (list (list K))) : result (list nat) :=
  np_stack (map shape2 xs).

Section FromGenerator.
Context {K : Type}.

(** One element [(tx1, ty1)] against the signature. *)
Definition check_element (sig : tensor_spec * tensor_spec) (b : @batch K) : result (@batch K) :=
  let* s1 := array_shape (fst b) in
  let* s2 := array_shape (snd b) in
  if list_eq_dec Nat.eq_dec s1 (fst sig) then
    if list_eq_dec Nat.eq_dec s2 (snd sig) then Ok b else Err TypeError
  else Err TypeError.

(** The elements in the order the generator yields them, up to the first
    one refused. *)
Fixpoint check_all (sig : tensor_spec * tensor_spec) (bs : list (@batch K))
  : list (@batch K) * result unit :=
  match bs with
  | [] => ([], Ok tt)
  | b :: bs' =>
      match check_element sig b with
      | Ok b' => let '(l, r) := check_all sig bs' in (b' :: l, r)
      | Err e => ([], Err e)
      end
  end.

(** The elements a full iteration of the dataset delivers and how it ends. *)
Definition from_generator (sig : tensor_spec * tensor_spec)
  (g : gen (@event K) (@globals K)) : list (@batch K) * result unit :=
  let '(evs, r) := g in
  let '(bs, r') := check_all sig (map fst evs) in
  (bs, match r' with
       | Err e => Err e
       | Ok _ => match r with Ok _ => Ok tt | Err e => Err e end
       end).

Variable convert : nat -> list K.
Variable c : cfg.
Variable load_tokenized : string -> option (list nat).
Variable read_and_encode : string -> list nat.

(** Lines 394-401: [train_dataset] and [val_dataset], each iterating the
    generator over its books from the module globals [G]. *)
Definition dataset (book_paths : list string) (G : @globals K) : list (@batch K) * result unit :=
  from_generator (output_signature c)
    (generator convert c load_tokenized read_and_encode book_paths G).

End FromGenerator.

(** ** The element check *)

Section Check.
Context {K : Type}.

Lemma check_all_pass sig (bs : list (@batch K)) :
  Forall (fun b => check_element sig b = Ok b) bs -> check_all sig bs = (bs, Ok tt).
Proof. induction 1 as [|b bs Hb _ IH]; simpl; [reflexivity|]. now rewrite Hb, IH. Qed.

Lemma check_all_refuse sig (b : @batch K) bs e :
  check_element sig b = Err e -> check_all sig (b :: bs) = ([], Err e).
Proof. intros H. simpl. now rewrite H. Qed.

Lemma from_generator_pass sig (g : gen (@event K) (@globals K)) G' :
  Forall (fun ev => check_element sig (fst ev) = Ok (fst ev)) (fst g) ->
  snd g = Ok G' -> from_generator sig g = (map fst (fst g), Ok tt).
Proof.
  destruct g as [evs r]. cbn [fst snd]. intros H ->. unfold from_generator.
  rewrite check_all_pass by now apply Forall_map. reflexivity.
Qed.

Lemma from_generator_refuse sig ev evs (r : result (@globals K)) e :
  check_element sig (fst ev) = Err e -> from_generator sig (ev :: evs, r) = ([], Err e).
Proof. intros H. unfold from_generator. cbn [map]. now rewrite (check_all_refuse _ _ _ _ H). Qed.

(** [np.array] of arrays of one shape has that shape behind the count. *)
Lemma np_stack_ok_inv (s0 : list nat) rest s :
  np_stack (s0 :: rest) = Ok s -> s = length (s0 :: rest) :: s0.
Proof.
  unfold np_stack. destruct (forallb _ _); intros H; [now inversion H | discriminate].
Qed.

(** Every row of the windows is a vector of width [d]. *)
Definition rows_of_width (d : nat) (xs : list (list (list K))) : Prop :=
  Forall (Forall (fun r => length r = d)) xs.

(** An element whose arrays stack and whose input rows have width
    [d <> predictSteps] is refused with [TypeError]: the last axis of
    [tx1] is [d], or [tx1] has rank 2 when its windows are empty. *)
Lemma check_element_width c d (b : @batch K) s1 s2 :
  array_shape (fst b) = Ok s1 -> array_shape (snd b) = Ok s2 ->
  rows_of_width d (fst b) -> d <> predictSteps c ->
  check_element (output_signature c) b = Err TypeError.
Proof.
  unfold check_element. intros E1 E2 Hw Hd. rewrite E1, E2. cbn [bind].
  destruct (list_eq_dec Nat.eq_dec s1 _) as [->|]; [|reflexivity]. exfalso.
  destruct (fst b) as [|x0 xs] eqn:Eb; [discriminate|].
  apply np_stack_ok_inv in E1. inversion E1 as [[HB Hx0]].
  unfold rows_of_width in Hw. inversion Hw as [|? ? Hx _]; subst.
  destruct x0 as [|r0 x0]; [discriminate|]. cbn in Hx0. injection Hx0 as _ Hr.
  inversion Hx; subst. congruence.
Qed.

End Check.

(** ** The elements the generator yields *)

Section Yields.
Context {K : Type} (convert : nat -> list K) (c : cfg).
Variable load_tokenized : string -> option (list nat).
Variable read_and_encode : string -> list nat.
Variable d : nat.
Hypothesis convert_width : forall t, length (convert t) = d.

Definition window_rows_ok (w : @window K) : Prop := Forall (fun r => length r = d) (fst w).

Lemma make_window_rows book n k w :
  make_window convert c book n k = Ok w -> window_rows_ok w.
Proof.
  unfold make_window. intros H. bind_inv H. bind_inv H. inversion H; subst.
  apply Forall_forall. intros r Hr. apply in_map_iff in Hr as [t [<- _]]. apply convert_width.
Qed.

Lemma inner_loop_rows book n ks sx sx' :
  Forall window_rows_ok sx -> inner_loop convert c book n ks sx = Ok sx' ->
  Forall window_rows_ok sx'.
Proof.
  revert sx; induction ks as [|k ks IH]; intros sx Hsx H; simpl in H.
  - now inversion H; subst.
  - bind_inv H. eapply IH; [|exact H]. apply Forall_app. split; [exact Hsx|].
    constructor; [eapply make_window_rows; eassumption | constructor].
Qed.

(** What [make_batch] hands to the dataset: arrays that stack, input rows
    of width [d]. *)
Definition element_ok (b : @batch K) : Prop :=
  (exists s1 s2, array_shape (fst b) = Ok s1 /\ array_shape (snd b) = Ok s2)
  /\ rows_of_width d (fst b).

Lemma make_batch_element sx b :
  Forall window_rows_ok sx -> make_batch sx = Ok b -> element_ok b.
Proof.
  unfold make_batch, array_shape. intros Hsx H. bind_inv H. bind_inv H.
  inversion H; subst. unfold element_ok, array_shape, rows_of_width. cbn [fst snd].
  rewrite !map_map. split; [eauto|]. now apply Forall_map.
Qed.

Lemma outer_loop_elements book n iters (G : @globals K) :
  Forall window_rows_ok (setx G) ->
  Forall (fun ev => element_ok (fst ev)) (fst (outer_loop convert c book n iters G)).
Proof.
  revert n G; induction iters as [|i IH]; intros n G HG; cbn [outer_loop]; [constructor|].
  destruct (inner_loop convert c book n _ (setx G)) as [sx|e] eqn:Ein;
    [rewrite gbind_lift_ok | constructor].
  apply inner_loop_rows in Ein; [|exact HG].
  destruct (length sx =? batchSize c); [|apply IH; exact Ein].
  destruct (make_batch sx) as [b|e] eqn:Hb; [rewrite gbind_lift_ok, gbind_yield | constructor].
  constructor; [eapply make_batch_element; eassumption|]. apply IH. constructor.
Qed.

Lemma generator_elements book_paths (G : @globals K) :
  Forall (fun ev => element_ok (fst ev))
    (fst (generator convert c load_tokenized read_and_encode book_paths G)).
Proof.
  revert G; induction book_paths as [|bp bps IH]; intros G; simpl; [constructor|].
  apply gbind_fst_Forall; [|exact IH].
  unfold process_book. destruct (batchSize c); [constructor|].
  apply outer_loop_elements. constructor.
Qed.

End Yields.

(** ** Books in which every window fits *)

Section Full.
Context {K : Type} (convert : nat -> list K) (c : cfg).
Variable load_tokenized : string -> option (list nat).
Variable read_and_encode : string -> list nat.
Variable d : nat.
Hypothesis convert_width : forall t, length (convert t) = d.

(** The windows of a group inside the book stack into two arrays of
    shape [(batchSize, sequenceSize, d)]. *)
Lemma batch_windows_shapes book n :
  0 < batchSize c -> 0 < sequenceSize c ->
  (forall k, k < batchSize c -> n + k + window_width c <= length book) ->
  array_shape (map fst (batch_windows convert c book n)) = Ok [batchSize c; sequenceSize c; d]
  /\ array_shape (map snd (batch_windows convert c book n)) = Ok [batchSize c; sequenceSize c; d].
Proof.
  intros HB HS Hfit. unfold array_shape, batch_windows. rewrite !map_map.
  assert (Hne : forall f : nat -> list nat, map f (seq 0 (batchSize c)) <> []).
  { intros f. destruct (batchSize c); [lia|discriminate]. }
  split; (rewrite (np_stack_const [sequenceSize c; d]); [now rewrite length_map, length_seq|apply Hne|]);
    intros s' Hs'; apply in_map_iff in Hs' as [k [<- Hk]]; apply in_seq in Hk;
    destruct (window_at_full_lengths convert c book (n + k)) as [H1 H2]; try (apply Hfit; lia);
    rewrite (shape2_uniform d) by (unfold window_at; apply (map_convert_width convert d convert_width)).
  - now rewrite H1; destruct (sequenceSize c); [lia|].
  - rewrite H2. now destruct (sequenceSize c); [lia|].
Qed.

Lemma book_fits_windows len groups j k :
  book_fits c len groups -> j < groups -> k < batchSize c -> 0 + j + k + window_width c <= len.
Proof. unfold book_fits. lia. Qed.

Lemma generator_full book_paths (G : @globals K) :
  0 < batchSize c -> 0 < sequenceSize c -> d = predictSteps c ->
  Forall (fun bp => book_fits c (length (get_book load_tokenized read_and_encode bp))
                      (length (get_book load_tokenized read_and_encode bp) / batchSize c))
    book_paths ->
  Forall (fun ev => check_element (output_signature c) (fst ev) = Ok (fst ev))
    (fst (generator convert c load_tokenized read_and_encode book_paths G))
  /\ exists G', snd (generator convert c load_tokenized read_and_encode book_paths G) = Ok G'.
Proof.
  intros HB HS Hd Hfits. revert G.
  induction Hfits as [|bp bps Hbp _ IH]; intros G; cbn [generator]; [split; [constructor|now exists G]|].
  rewrite process_book_outer by exact HB.
  rewrite (outer_loop_full convert c d convert_width) by
    (auto; intros j k Hj Hk; eapply book_fits_windows; eassumption).
  rewrite gbind_ok. cbn [fst snd].
  match goal with |- context [generator _ _ _ _ bps ?G1] => destruct (IH G1) as [IHf IHs] end. split; [|exact IHs].
  apply Forall_app. split; [|exact IHf]. apply Forall_map, Forall_forall.
  intros n Hn. apply in_seq in Hn. cbn [batch_event batch_of fst snd].
  destruct (batch_windows_shapes (get_book load_tokenized read_and_encode bp) n HB HS)
    as [E1 E2]; [intros k Hk; eapply book_fits_windows; eauto; lia|].
  unfold check_element, batch_of. cbn [fst snd]. rewrite E1, E2. cbn [bind output_signature fst snd].
  rewrite Hd. destruct (list_eq_dec _ _ _) as [_|C]; [|now contradiction C].
  reflexivity.
Qed.

End Full.

(** ** What the datasets deliver *)

Section Claims.
Context {K : Type} (convert : nat -> list K) (c : cfg).
Variable load_tokenized : string -> option (list nat).
Variable read_and_encode : string -> list nat.
Variable d : nat.
Hypothesis convert_width : forall t, length (convert t) = d.

(** C34: when the dictionary's vectors have [predictSteps] components and
    every window of every book fits, each element the generator yields has
    the declared type [(batchSize, sequenceSize, predictSteps)] twice: the
    dataset delivers exactly the generator's batches, in order, and ends
    normally. *)
Theorem dataset_signature_conforms book_paths G :
  0 < batchSize c -> 0 < sequenceSize c -> d = predictSteps c ->
  Forall (fun bp => book_fits c (length (get_book load_tokenized read_and_encode bp))
                      (length (get_book load_tokenized read_and_encode bp) / batchSize c))
    book_paths ->
  dataset convert c load_tokenized read_and_encode book_paths G
  = (map fst (fst (generator convert c load_tokenized read_and_encode book_paths G)), Ok tt).
Proof.
  intros HB HS Hd Hfits.
  destruct (generator_full convert c load_tokenized read_and_encode d convert_width
              book_paths G HB HS Hd Hfits) as [Hf [G' Hs]].
  unfold dataset. eapply from_generator_pass; eassumption.
Qed.

(** C35: when the vectors have [d <> predictSteps] components, the first
    element the generator yields is refused with [TypeError]: the dataset
    delivers no batch at all, whatever the books. *)
Theorem dataset_signature_mismatch book_paths G :
  d <> predictSteps c ->
  fst (generator convert c load_tokenized read_and_encode book_paths G) <> [] ->
  dataset convert c load_tokenized read_and_encode book_paths G = ([], Err TypeError).
Proof.
  intros Hd Hne.
  pose proof (generator_elements convert c load_tokenized read_and_encode d convert_width
                book_paths G) as Hel.
  unfold dataset.
  destruct (generator convert c load_tokenized read_and_encode book_paths G)
    as [[|ev evs] r]; [contradiction|].
  inversion Hel as [|? ? [[s1 [s2 [E1 E2]]] Hw] _]; subst.
  apply from_generator_refuse. eapply check_element_width; eassumption.
Qed.

End Claims.

(** Vectors of two components against [predictSteps = 1]. *)
Definition ex_convert2 (t : nat) : list nat := [t; t].

Lemma dataset_signature_conforms_witness :
  dataset ex_convert ex_cfg ex_cache ex_encode ["a"%string; "a"%string] init_globals
  = (map fst (fst (generator ex_convert ex_cfg ex_cache ex_encode
                     ["a"%string; "a"%string] init_globals)), Ok tt).
Proof.
  exact (dataset_signature_conforms ex_convert ex_cfg ex_cache ex_encode 1 ex_convert_width
           ["a"%string; "a"%string] init_globals ltac:(vm_compute; lia) ltac:(vm_compute; lia)
           eq_refl ltac:(repeat (apply Forall_cons; [vm_compute; lia|]); apply Forall_nil)).
Defined.

Lemma dataset_signature_mismatch_witness :
  dataset ex_convert2 ex_cfg ex_cache ex_encode ["a"%string] init_globals = ([], Err TypeError).
Proof.
  exact (dataset_signature_mismatch ex_convert2 ex_cfg ex_cache ex_encode 2 (fun _ => eq_refl)
           ["a"%string] init_globals ltac:(vm_compute; lia) ltac:(vm_compute; discriminate)).
Defined.

End Dataset.
