(* ===== verification/GenMachine.v ===== *)
(** * The generator as a machine over the shared globals

    [generator] of [src/train.py] (lines 344-392) runs as Python code that
    reads and rebinds the module globals [setx] and [last_batch] statement
    by statement.  [Module GenMachine] models it as a deterministic step
    function on a program counter (the loop positions of the code, with
    the generator's locals [book], [n] and the iterations left) and the
    shared [globals].  A step is one statement touching the globals
    (line 362 with the load of the book, line 378 with the window it
    appends, line 380, and the check and flush of lines 385-392 as one
    step), so a step emits at most one yielded event.

    [run] executes one machine with fuel; [machine_refines_generator]
    shows that with enough fuel it produces exactly the events and the
    result of [WindowBatchGenerator.generator].  [run2] interleaves a
    training and a validation generator over one store of globals under
    a schedule, which is what [tf.data] does when the prefetching thread
    of [train_dataset] and the [estimate_loss] pulls of [val_dataset]
    (lines 394-404, 450) run the two generators of [run()]. *)

From Stdlib Require Import String List Arith Lia ZArith.
From S2P Require Import Prelude Config Generator.
Import ListNotations.
Import WindowBatchGenerator.
Open Scope fjlm_scope.

Module GenMachine.

Section Machine.
Context {K : Type}.
Variable convert : nat -> list K.
Variable c : cfg.
Variable load_tokenized : string -> option (list nat).
Variable read_and_encode : string -> list nat.

(** The positions of the generator's code. *)
Inductive pc : Type :=
| AtBook (bps : list string)                                   (** line 349 *)
| AtOuter (bps : list string) (book : list nat) (n iters : nat)  (** line 364 *)
| AtInner (bps : list string) (book : list nat) (n iters : nat) (ks : list nat) (** line 365 *)
| AtCheck (bps : list string) (book : list nat) (n iters : nat)  (** line 385 *)
| Done
| Failed (e : py_error).

Definition mstate : Type := (pc * @globals K)%type.

Definition terminal (s : mstate) : option (result (@globals K)) :=
  match fst s with
  | Done => Some (Ok (snd s))
  | Failed e => Some (Err e)
  | _ => None
  end.

(** One step: the event it yields, if any, and the next state. *)
Definition step (s : mstate) : option (option (@event K) * mstate) :=
  let '(p, G) := s in
  match p with
  | AtBook [] => Some (None, (Done, G))
  | AtBook (bp :: bps) =>
      let book := get_book load_tokenized read_and_encode bp in
      let G0 := mk_globals [] (last_batch G) in
      match batchSize c with
      | 0 => Some (None, (Failed ZeroDivisionError, G0))
      | B => Some (None, (AtOuter bps book 0 (length book / B), G0))
      end
  | AtOuter bps book n 0 => Some (None, (AtBook bps, G))
  | AtOuter bps book n (S i) => Some (None, (AtInner bps book n (S i) (seq 0 (batchSize c)), G))
  | AtInner bps book n it (k :: ks) =>
      match make_window convert c book n k with
      | Ok w => Some (None, (AtInner bps book n it ks, mk_globals (setx G ++ [w]) (last_batch G)))
      | Err e => Some (None, (Failed e, G))
      end
  | AtInner bps book n it [] => Some (None, (AtCheck bps book (S n) it, G))
  | AtCheck bps book n it =>
      if length (setx G) =? batchSize c then
        match make_batch (setx G) with
        | Ok b => let G' := mk_globals [] (setx G) in
                  Some (Some (b, G'), (AtOuter bps book n (pred it), G'))
        | Err e => Some (None, (Failed e, G))
        end
      else Some (None, (AtOuter bps book n (pred it), G))
  | Done | Failed _ => None
  end.

Definition opt_list {A} (o : option A) : list A := match o with Some a => [a] | None => [] end.

Definition prepend (evs : list (@event K)) (R : list (@event K) * result (@globals K))
  : list (@event K) * result (@globals K) := (evs ++ fst R, snd R).

(** At most [fuel] steps; [None] when the fuel runs out first. *)
Fixpoint run (fuel : nat) (s : mstate) : option (list (@event K) * result (@globals K)) :=
  match terminal s with
  | Some r => Some ([], r)
  | None =>
      match fuel with
      | 0 => None
      | S f =>
          match step s with
          | Some (oe, s') => option_map (prepend (opt_list oe)) (run f s')
          | None => None
          end
      end
  end.

(** ** Two generators over one store of globals *)

(** Under the schedule [sched] ([true] steps the training generator,
    [false] the validation one; a finished machine does not move), the
    events each generator yields and the final states. *)
Fixpoint run2 (sched : list bool) (sT sV : pc) (G : @globals K)
  : list (@event K) * list (@event K) * (pc * pc * @globals K) :=
  match sched with
  | [] => ([], [], (sT, sV, G))
  | true :: sched' =>
      match step (sT, G) with
      | Some (oe, (sT', G')) =>
          let '(eT, eV, fin) := run2 sched' sT' sV G' in (opt_list oe ++ eT, eV, fin)
      | None => run2 sched' sT sV G
      end
  | false :: sched' =>
      match step (sV, G) with
      | Some (oe, (sV', G')) =>
          let '(eT, eV, fin) := run2 sched' sT sV' G' in (eT, opt_list oe ++ eV, fin)
      | None => run2 sched' sT sV G
      end
  end.

(** [next(gen)]: resume a generator until it yields or stops. *)
Fixpoint pull (fuel : nat) (s : mstate) : option (option (@event K) * mstate) :=
  match terminal s with
  | Some _ => Some (None, s)
  | None =>
      match fuel with
      | 0 => None
      | S f =>
          match step s with
          | Some (Some ev, s') => Some (Some ev, s')
          | Some (None, s') => pull f s'
          | None => None
          end
      end
  end.

Definition is_failed (p : pc) : bool := match p with Failed _ => true | _ => false end.

(** The consumer pulls whole batches: [turns] says which generator each
    [next] resumes; an exception ends everything. *)
Fixpoint run_turns (fuel : nat) (turns : list bool) (pT pV : pc) (G : @globals K)
  : list (@event K) * list (@event K) :=
  match turns with
  | [] => ([], [])
  | t :: turns' =>
      match pull fuel (if t then pT else pV, G) with
      | Some (oe, (p', G')) =>
          if is_failed p' then ([], [])
          else
            let '(eT, eV) := run_turns fuel turns' (if t then p' else pT) (if t then pV else p') G' in
            if t then (opt_list oe ++ eT, eV) else (eT, opt_list oe ++ eV)
      | None => ([], [])
      end
  end.

(** The states one generator reaches from [s0] running alone. *)
Inductive reachable (s0 : mstate) : mstate -> Prop :=
| reach_refl : reachable s0 s0
| reach_step s oe s' : reachable s0 s -> step s = Some (oe, s') -> reachable s0 s'.

(** The state after at most [n] steps. *)
Fixpoint trace (n : nat) (s : mstate) : mstate :=
  match n with
  | 0 => s
  | S n' => match step s with Some (_, s') => trace n' s' | None => s end
  end.

Lemma reachable_trans s0 s n : reachable s0 s -> reachable s0 (trace n s).
Proof.
  revert s. induction n as [|n IH]; intros s R; [exact R|]. simpl.
  destruct (step s) as [[oe s']|] eqn:E; [|exact R]. apply IH. exact (reach_step _ _ _ _ R E).
Qed.

(** ** The machine refines the monadic generator *)

(** [s] behaves as the computation [m] followed by the state [cont a] when
    [m] returns [a]: its events come first, then those of the
    continuation; an exception of [m] ends the run. *)
Definition sim {A} (s : mstate) (m : gen (@event K) A) (cont : A -> mstate) : Prop :=
  forall f R, (forall a, snd m = Ok a -> run f (cont a) = Some R) ->
  exists k, run (k + f) s = Some (match snd m with
                                  | Ok _ => prepend (fst m) R
                                  | Err e => (fst m, Err e)
                                  end).

Lemma run_succ f s R : run f s = Some R -> run (S f) s = Some R.
Proof.
  revert s R. induction f as [|f IH]; intros s R H; simpl in H |- *;
    destruct (terminal s); auto; try discriminate.
  destruct (step s) as [[oe s']|]; [|discriminate].
  destruct (run f s') eqn:E; [|discriminate]. pose proof (IH _ _ E) as E'. simpl in E'. now rewrite E'.
Qed.

Lemma run_mono f f' s R : f <= f' -> run f s = Some R -> run f' s = Some R.
Proof. induction 1; auto using run_succ. Qed.

Lemma prepend_nil R : prepend [] R = R.
Proof. destruct R. reflexivity. Qed.

Lemma prepend_app evs evs' R : prepend evs (prepend evs' R) = prepend (evs ++ evs') R.
Proof. unfold prepend. simpl. now rewrite app_assoc. Qed.

Lemma sim_ret {A} (a : A) cont : sim (cont a) (gret a) cont.
Proof. intros f R H. exists 0. simpl. rewrite (H a eq_refl). now rewrite prepend_nil. Qed.

Lemma sim_fail {A} e G (cont : A -> mstate) : sim (Failed e, G) (glift (Err e)) cont.
Proof. intros f R _. exists 0. destruct f; reflexivity. Qed.

(** A step that yields [oe] in front of [m]. *)
Lemma sim_step {A} s oe s' (m : gen (@event K) A) cont :
  terminal s = None -> step s = Some (oe, s') -> sim s' m cont ->
  sim s (opt_list oe ++ fst m, snd m) cont.
Proof.
  intros Ht Hs H f R HR. destruct (H f R HR) as [k Hk]. exists (S k). simpl plus.
  unfold run at 1; fold run. rewrite Ht, Hs, Hk. simpl.
  destruct (snd m); [now rewrite prepend_app|reflexivity].
Qed.

Lemma sim_silent {A} s s' (m : gen (@event K) A) cont :
  terminal s = None -> step s = Some (None, s') -> sim s' m cont -> sim s m cont.
Proof. intros Ht Hs H. destruct m as [evs r]. exact (sim_step s None s' (evs, r) cont Ht Hs H). Qed.

Lemma sim_bind {A B} s (m : gen (@event K) A) (k : A -> gen (@event K) B) cont1 cont :
  sim s m cont1 -> (forall a, snd m = Ok a -> sim (cont1 a) (k a) cont) -> sim s (gbind m k) cont.
Proof.
  intros H1 H2 f R HR. destruct m as [evs [a|e]].
  - cbn [gbind] in *. destruct (k a) as [evs2 r2] eqn:Ek.
    assert (HR' : forall b, snd (k a) = Ok b -> run f (cont b) = Some R)
      by (rewrite Ek; exact HR).
    destruct (H2 a eq_refl f R HR') as [k2 Hk2]. rewrite Ek in Hk2. simpl in Hk2.
    destruct (H1 (k2 + f) _ (fun a' E => ltac:(injection E as <-; exact Hk2))) as [k1 Hk1].
    exists (k1 + k2). rewrite <- Nat.add_assoc, Hk1. simpl.
    destruct r2; [now rewrite prepend_app|reflexivity].
  - destruct (H1 f R (fun _ E => ltac:(discriminate E))) as [k1 Hk1]. now exists k1.
Qed.

Lemma globals_eta (G : @globals K) : mk_globals (setx G) (last_batch G) = G.
Proof. now destruct G. Qed.

(** Lines 365-378: the appends of the [k] loop. *)
Lemma sim_inner bps book n it ks : forall G,
  sim (AtInner bps book n it ks, G) (glift (inner_loop convert c book n ks (setx G)))
      (fun sx => (AtInner bps book n it [], mk_globals sx (last_batch G))).
Proof.
  induction ks as [|k ks IH]; intros G.
  - cbn [inner_loop]. rewrite <- (globals_eta G) at 1. apply (sim_ret (setx G)).
  - cbn [inner_loop]. destruct (make_window convert c book n k) as [w|e] eqn:Ew; cbn [bind].
    + eapply sim_silent; [reflexivity|simpl; rewrite Ew; reflexivity|].
      exact (IH (mk_globals (setx G ++ [w]) (last_batch G))).
    + eapply sim_silent; [reflexivity|simpl; rewrite Ew; reflexivity|]. apply sim_fail.
Qed.

(** Lines 364-392: the groups of one book. *)
Lemma sim_outer bps book it : forall n G,
  sim (AtOuter bps book n it, G) (outer_loop convert c book n it G) (fun G' => (AtBook bps, G')).
Proof.
  induction it as [|i IH]; intros n G.
  - eapply sim_silent; [reflexivity|reflexivity|]. apply (sim_ret G).
  - eapply sim_silent; [reflexivity|reflexivity|]. cbn [outer_loop].
    eapply sim_bind; [apply sim_inner|]. intros sx _. simpl last_batch.
    eapply sim_silent; [reflexivity|reflexivity|].
    destruct (Nat.eqb_spec (length sx) (batchSize c)) as [Hl|Hl].
    + destruct (make_batch sx) as [b|e] eqn:Eb.
      * rewrite gbind_lift_ok, gbind_yield.
        apply (sim_step _ (Some (b, mk_globals [] sx)) (AtOuter bps book (S n) i, mk_globals [] sx)
                 (outer_loop convert c book (S n) i (mk_globals [] sx))); [reflexivity| |apply IH].
        simpl. rewrite (proj2 (Nat.eqb_eq _ _) Hl), Eb. reflexivity.
      * rewrite gbind_lift_err. eapply sim_silent; [reflexivity| |apply sim_fail].
        simpl. rewrite (proj2 (Nat.eqb_eq _ _) Hl), Eb. reflexivity.
    + eapply sim_silent; [reflexivity| |apply IH].
      simpl. rewrite (proj2 (Nat.eqb_neq _ _) Hl). reflexivity.
Qed.

(** Lines 349-364: one book. *)
Lemma sim_book bp bps G :
  sim (AtBook (bp :: bps), G) (process_book convert c load_tokenized read_and_encode G bp)
      (fun G' => (AtBook bps, G')).
Proof.
  unfold process_book. destruct (batchSize c) as [|B] eqn:EB.
  - eapply sim_silent; [reflexivity|simpl; rewrite EB; reflexivity|]. apply sim_fail.
  - eapply sim_silent; [reflexivity|simpl; rewrite EB; reflexivity|]. apply sim_outer.
Qed.

Lemma sim_generator bps : forall G,
  sim (AtBook bps, G) (generator convert c load_tokenized read_and_encode bps G) (fun G' => (Done, G')).
Proof.
  induction bps as [|bp bps IH]; intros G.
  - eapply sim_silent; [reflexivity|reflexivity|]. apply (sim_ret G).
  - cbn [generator]. eapply sim_bind; [apply sim_book|]. intros G' _. apply IH.
Qed.

Lemma run_generator bps G :
  exists fuel, run fuel (AtBook bps, G) = Some (generator convert c load_tokenized read_and_encode bps G).
Proof.
  destruct (generator convert c load_tokenized read_and_encode bps G) as [evs r] eqn:Em.
  destruct (sim_generator bps G 0 ([], r)) as [k Hk].
  - intros a Ha. rewrite Em in Ha. simpl in Ha. subst r. reflexivity.
  - exists (k + 0). rewrite Hk, Em.
    destruct r; [unfold prepend; simpl; now rewrite app_nil_r|reflexivity].
Qed.

(** The machine, run alone from the first book with enough fuel,
    terminates with exactly the yielded events (batches and snapshots of
    the globals) and the result of the monadic [generator]: the
    statement-level model refines the one the generator properties are
    proved on, and the generator's loops terminate. *)
Theorem machine_refines_generator bps G :
  exists fuel, forall f, fuel <= f ->
    run f (AtBook bps, G) = Some (generator convert c load_tokenized read_and_encode bps G).
Proof.
  destruct (run_generator bps G) as [k Hk]. exists k. intros f Hf. exact (run_mono _ _ _ _ Hf Hk).
Qed.

(** ** Lockstep pulls *)

(** The shape of [setx] at each position of the code, for one generator
    running alone. *)
Definition Inv (s : mstate) : Prop :=
  match fst s with
  | AtBook _ | AtOuter _ _ _ _ | Done => setx (snd s) = []
  | AtInner _ _ _ _ ks => length (setx (snd s)) + length ks = batchSize c
  | AtCheck _ _ _ _ => length (setx (snd s)) = batchSize c
  | Failed _ => length (setx (snd s)) <= batchSize c
  end.

Lemma step_inv s oe s' : Inv s -> step s = Some (oe, s') -> Inv s'.
Proof.
  destruct s as [p G]. unfold Inv. destruct p as [[|bp bps]|bps book n [|i]|bps book n it [|k ks]|bps book n it| |e];
    simpl; intros H E; try discriminate.
  - now injection E as <- <-.
  - destruct (batchSize c); injection E as <- <-; simpl; auto; lia.
  - now injection E as <- <-.
  - injection E as <- <-. simpl. rewrite H, length_seq. reflexivity.
  - injection E as <- <-. simpl. lia.
  - destruct (make_window convert c book n k); injection E as <- <-; simpl; [|lia].
    rewrite length_app. simpl in *. lia.
  - rewrite (proj2 (Nat.eqb_eq _ _) H) in E.
    destruct (make_batch (setx G)); injection E as <- <-; simpl; auto; lia.
Qed.

Lemma Inv_bound s : Inv s -> length (setx (snd s)) <= batchSize c.
Proof. destruct s as [p G]. unfold Inv. destruct p; simpl; intros H; try rewrite H; simpl; lia. Qed.

(** C31: a generator running alone never holds more than [batchSize]
    windows in [setx]: in every state reachable from a book loop started
    with an empty [setx], [len(setx) <= batchSize] (the spec's invariant
    on the batch-local window count), by induction on the steps. *)
Theorem setx_bounded bps G s :
  setx G = [] -> reachable (AtBook bps, G) s -> length (setx (snd s)) <= batchSize c.
Proof.
  intros HG R. apply Inv_bound. induction R as [|s oe s' _ IH Hs]; [exact HG|].
  exact (step_inv _ _ _ IH Hs).
Qed.

(** Only the flush of lines 385-392 yields, and it leaves [setx] empty at
    the head of the group loop. *)
Lemma step_yield s ev p' G' :
  step s = Some (Some ev, (p', G')) -> setx G' = [] /\ exists bps book n it, p' = AtOuter bps book n it.
Proof.
  destruct s as [p G]. destruct p as [[|bp bps]|bps book n [|i]|bps book n it [|k ks]|bps book n it| |e];
    simpl; intros E; try discriminate.
  - destruct (batchSize c); discriminate.
  - destruct (make_window convert c book n k); discriminate.
  - destruct (length (setx G) =? batchSize c); [|discriminate].
    destruct (make_batch (setx G)); [|discriminate]. injection E as _ <- <-. split; [reflexivity|eauto].
Qed.

(** What a step does depends on the globals only through [setx]. *)
Definition step_view (s : mstate) :=
  option_map (fun r : option (@event K) * mstate => (fst r, fst (snd r), setx (snd (snd r)))) (step s).

Lemma step_view_setx p G1 G2 : setx G1 = setx G2 -> step_view (p, G1) = step_view (p, G2).
Proof.
  intros E. unfold step_view. destruct p as [[|bp bps]|bps book n [|i]|bps book n it [|k ks]|bps book n it| |e];
    simpl; rewrite ?E; try reflexivity;
    repeat (match goal with |- context [match ?x with _ => _ end] => destruct x end; simpl);
    rewrite ?E; reflexivity.
Qed.

Definition okb {A} (r : result A) : bool := match r with Ok _ => true | Err _ => false end.

(** What an observer of a run sees: its events and whether it raised. *)
Definition view (R : list (@event K) * result (@globals K)) : list (@event K) * bool :=
  (fst R, okb (snd R)).

Lemma view_prepend l (x : option (list (@event K) * result (@globals K))) :
  option_map view (option_map (prepend l) x)
  = option_map (fun v => (l ++ fst v, snd v)) (option_map view x).
Proof. destruct x; reflexivity. Qed.

Lemma run_setx f : forall p G1 G2,
  setx G1 = setx G2 -> option_map view (run f (p, G1)) = option_map view (run f (p, G2)).
Proof.
  induction f as [|f IH]; intros p G1 G2 E; [destruct p; reflexivity|].
  pose proof (step_view_setx p G1 G2 E) as V. unfold step_view in V.
  destruct p; cbn [run terminal fst snd]; try reflexivity;
    destruct (step (_, G1)) as [[oe1 [p1 H1]]|]; destruct (step (_, G2)) as [[oe2 [p2 H2]]|];
    simpl in V; try discriminate; try reflexivity;
    injection V as <- <- Es; rewrite !view_prepend; f_equal; exact (IH _ _ _ Es).
Qed.

Lemma pull_inv f : forall s oe s', Inv s -> pull f s = Some (oe, s') -> Inv s'.
Proof.
  induction f as [|f IH]; intros s oe s' H E; simpl in E; destruct (terminal s);
    try (injection E as _ <-; exact H); try discriminate.
  destruct (step s) as [[[ev|] s'']|] eqn:Es; try discriminate.
  - injection E as _ <-. exact (step_inv _ _ _ H Es).
  - exact (IH _ _ _ (step_inv _ _ _ H Es) E).
Qed.

Lemma pull_yield f : forall s ev p' G',
  pull f s = Some (Some ev, (p', G')) -> setx G' = [] /\ exists bps book n it, p' = AtOuter bps book n it.
Proof.
  induction f as [|f IH]; intros s ev p' G' E; simpl in E; destruct (terminal s); try discriminate.
  destruct (step s) as [[[ev'|] s'']|] eqn:Es; try discriminate.
  - injection E as <- ->. exact (step_yield _ _ _ _ Es).
  - exact (IH _ _ _ _ E).
Qed.

Lemma pull_silent f : forall s s', pull f s = Some (None, s') -> terminal s' <> None.
Proof.
  induction f as [|f IH]; intros s s' E; simpl in E; destruct (terminal s) eqn:T;
    try (injection E as <-; rewrite T; discriminate); try discriminate.
  destruct (step s) as [[[ev'|] s'']|]; try discriminate. exact (IH _ _ E).
Qed.

(** The events of a pull are the first events of the run it resumes. *)
Lemma run_pull f : forall s oe s' F R,
  pull f s = Some (oe, s') -> run F s = Some R ->
  exists F' R', run F' s' = Some R' /\ fst R = opt_list oe ++ fst R'.
Proof.
  induction f as [|f IH]; intros s oe s' F R E HR; simpl in E; destruct (terminal s) eqn:T;
    try (injection E as <- <-; now exists F, R); try discriminate.
  destruct F as [|F]; [simpl in HR; rewrite T in HR; discriminate|].
  simpl in HR. rewrite T in HR.
  destruct (step s) as [[oe' s'']|] eqn:Es; [|discriminate].
  destruct (run F s'') as [R0|] eqn:E0; [|discriminate]. injection HR as <-.
  destruct oe' as [ev|].
  - injection E as <- <-. now exists F, R0.
  - destruct (IH _ _ _ _ _ E E0) as (F' & R' & H1 & H2). exists F', R'. split; [exact H1|].
    simpl. exact H2.
Qed.

Definition safe (p : pc) : Prop :=
  match p with AtBook _ | AtOuter _ _ _ _ | Done => True | _ => False end.

Lemma safe_inv p G : safe p -> setx G = [] -> Inv (p, G).
Proof. destruct p; simpl; tauto. Qed.

(** A pull that does not raise stops at a safe point with [setx] empty. *)
Lemma pull_end f s oe p' G' :
  Inv s -> pull f s = Some (oe, (p', G')) -> is_failed p' = false -> safe p' /\ setx G' = [].
Proof.
  intros H E Hf. destruct oe as [ev|].
  - destruct (pull_yield _ _ _ _ _ E) as [Hs (bps & book & n & it & ->)]. now split.
  - pose proof (pull_silent _ _ _ E) as T. pose proof (pull_inv _ _ _ _ H E) as I.
    destruct p'; simpl in *; try discriminate; try (now destruct T); now split.
Qed.

Lemma run_some_setx F p G1 G2 R :
  setx G1 = setx G2 -> run F (p, G1) = Some R ->
  exists R', run F (p, G2) = Some R' /\ fst R' = fst R /\ okb (snd R') = okb (snd R).
Proof.
  intros E H. pose proof (run_setx F p G1 G2 E) as V. rewrite H in V.
  destruct (run F (p, G2)) as [R'|]; [|discriminate]. simpl in V. unfold view in V.
  injection V as V1 V2. exists R'. split; [reflexivity|split; congruence].
Qed.

Definition prefix {A} (l1 l2 : list A) : Prop := exists r, l2 = l1 ++ r.

Lemma prefix_nil {A} (l : list A) : prefix [] l.
Proof. now exists l. Qed.

Lemma prefix_app {A} (l l1 l2 : list A) : prefix l1 l2 -> prefix (l ++ l1) (l ++ l2).
Proof. intros [r ->]. exists r. now rewrite app_assoc. Qed.

Lemma turns_prefix fuel turns : forall pT pV G FT RT FV RV,
  safe pT -> safe pV -> setx G = [] -> run FT (pT, G) = Some RT -> run FV (pV, G) = Some RV ->
  prefix (fst (run_turns fuel turns pT pV G)) (fst RT) /\
  prefix (snd (run_turns fuel turns pT pV G)) (fst RV).
Proof.
  induction turns as [|t turns IH]; intros pT pV G FT RT FV RV HT HV HG ET EV;
    [split; apply prefix_nil|]. cbn [run_turns].
  destruct (pull fuel (if t then pT else pV, G)) as [[oe [p' G']]|] eqn:Ep;
    [|split; apply prefix_nil].
  destruct (is_failed p') eqn:Hf; [split; apply prefix_nil|].
  destruct t.
  - destruct (pull_end _ _ _ _ _ (safe_inv _ _ HT HG) Ep Hf) as [Hs' HG'].
    destruct (run_pull _ _ _ _ _ _ Ep ET) as (F' & R' & E' & Hfst).
    destruct (run_some_setx FV pV G G' RV ltac:(congruence) EV) as (RV' & EV' & Hv & _).
    destruct (IH _ _ _ _ _ _ _ Hs' HV HG' E' EV') as [IH1 IH2].
    destruct (run_turns fuel turns p' pV G') as [eT eV]. simpl in *.
    rewrite Hfst, <- Hv. split; [now apply prefix_app|exact IH2].
  - destruct (pull_end _ _ _ _ _ (safe_inv _ _ HV HG) Ep Hf) as [Hs' HG'].
    destruct (run_pull _ _ _ _ _ _ Ep EV) as (F' & R' & E' & Hfst).
    destruct (run_some_setx FT pT G G' RT ltac:(congruence) ET) as (RT' & ET' & Ht & _).
    destruct (IH _ _ _ _ _ _ _ HT Hs' HG' ET' E') as [IH1 IH2].
    destruct (run_turns fuel turns pT p' G') as [eT eV]. simpl in *.
    rewrite Hfst, <- Ht. split; [exact IH1|now apply prefix_app].
Qed.

(** C28: when the consumer resumes the two generators only by whole
    pulls ([next] runs a generator to its next [yield]), as the spec's
    lockstep pipeline does, the globals are empty at every switch and
    each generator yields a prefix of the batches it yields alone: the
    sharing of [setx] and [last_batch] is harmless at pull boundaries. *)
Theorem lockstep_pulls_follow_generator fuel turns bT bV :
  prefix (fst (run_turns fuel turns (AtBook bT) (AtBook bV) init_globals))
         (fst (generator convert c load_tokenized read_and_encode bT init_globals)) /\
  prefix (snd (run_turns fuel turns (AtBook bT) (AtBook bV) init_globals))
         (fst (generator convert c load_tokenized read_and_encode bV init_globals)).
Proof.
  destruct (run_generator bT init_globals) as [FT ET].
  destruct (run_generator bV init_globals) as [FV EV].
  exact (turns_prefix fuel turns (AtBook bT) (AtBook bV) init_globals FT _ FV _ I I eq_refl ET EV).
Qed.

(** ** Enough pulls give the whole stream *)

(** The fuel that completes a run lets a pull reach the next yield. *)
Lemma pull_run_cons F : forall s e rest r,
  run F s = Some (e :: rest, r) -> exists s', pull F s = Some (Some e, s') /\ run F s' = Some (rest, r).
Proof.
  induction F as [|F IH]; intros s e rest r HR.
  - simpl in HR. destruct (terminal s); discriminate.
  - simpl in HR. cbn [pull]. destruct (terminal s); [discriminate|].
    destruct (step s) as [[[ev|] s'']|] eqn:Es; [| |discriminate];
      destruct (run F s'') as [[evs r']|] eqn:E0; simpl in HR; try discriminate.
    + injection HR as <- <- <-. exists s''. split; [reflexivity|]. now apply run_succ.
    + injection HR as -> ->. destruct (IH _ _ _ _ E0) as (s' & E1 & E2).
      exists s'. split; [exact E1|]. now apply run_succ.
Qed.

Lemma pull_run_nil F : forall s r,
  run F s = Some ([], r) -> exists s', pull F s = Some (None, s') /\ terminal s' = Some r.
Proof.
  induction F as [|F IH]; intros s r HR.
  - simpl in HR. cbn [pull]. destruct (terminal s) eqn:T; [|discriminate].
    injection HR as <-. now exists s.
  - simpl in HR. cbn [pull]. destruct (terminal s) eqn:T; [injection HR as <-; now exists s|].
    destruct (step s) as [[[ev|] s'']|] eqn:Es; [| |discriminate];
      destruct (run F s'') as [[evs r']|] eqn:E0; simpl in HR; try discriminate.
    injection HR as -> ->. exact (IH _ _ E0).
Qed.

Lemma terminal_ok s G : terminal s = Some (Ok G) -> s = (Done, G).
Proof. destruct s as [[] G']; simpl; intros E; try discriminate; now injection E as ->. Qed.

Lemma turns_complete fuel turns : forall pT pV G eT eV GT GV,
  safe pT -> safe pV -> setx G = [] ->
  run fuel (pT, G) = Some (eT, Ok GT) -> run fuel (pV, G) = Some (eV, Ok GV) ->
  length eT <= count_occ Bool.bool_dec turns true -> length eV <= count_occ Bool.bool_dec turns false ->
  run_turns fuel turns pT pV G = (eT, eV).
Proof.
  induction turns as [|t turns IH]; intros pT pV G eT eV GT GV HT HV HG ET EV CT CV.
  { simpl in CT, CV. destruct eT, eV; simpl in *; try lia. reflexivity. }
  cbn [run_turns]. destruct t; simpl in CT, CV.
  - destruct eT as [|e rest].
    + destruct (pull_run_nil _ _ _ ET) as (s' & Ep & Ts). apply terminal_ok in Ts. subst s'.
      rewrite Ep. cbn [is_failed].
      destruct (pull_end fuel _ _ _ _ (safe_inv _ _ HT HG) Ep eq_refl) as [_ HGT].
      destruct (run_some_setx fuel pV G GT _ ltac:(congruence) EV) as ([eV' r'] & EV' & Hv & Hok).
      simpl in Hv, Hok. subst eV'. destruct r' as [GV'|]; [|discriminate].
      rewrite (IH Done pV GT [] eV GT GV' I HV HGT (ltac:(destruct fuel; reflexivity)) EV'); simpl; auto; lia.
    + destruct (pull_run_cons _ _ _ _ _ ET) as ([p' G'] & Ep & E').
      rewrite Ep. destruct (pull_yield _ _ _ _ _ Ep) as [HG' (bps & book & n & it & ->)].
      cbn [is_failed].
      destruct (run_some_setx fuel pV G G' _ ltac:(congruence) EV) as ([eV' r'] & EV' & Hv & Hok).
      simpl in Hv, Hok. subst eV'. destruct r' as [GV'|]; [|discriminate].
      rewrite (IH (AtOuter bps book n it) pV G' rest eV GT GV' I HV HG' E' EV'); simpl in *; auto; lia.
  - destruct eV as [|e rest].
    + destruct (pull_run_nil _ _ _ EV) as (s' & Ep & Ts). apply terminal_ok in Ts. subst s'.
      rewrite Ep. cbn [is_failed].
      destruct (pull_end fuel _ _ _ _ (safe_inv _ _ HV HG) Ep eq_refl) as [_ HGV].
      destruct (run_some_setx fuel pT G GV _ ltac:(congruence) ET) as ([eT' r'] & ET' & Ht & Hok).
      simpl in Ht, Hok. subst eT'. destruct r' as [GT'|]; [|discriminate].
      rewrite (IH pT Done GV eT [] GT' GV HT I HGV ET' (ltac:(destruct fuel; reflexivity))); simpl; auto; lia.
    + destruct (pull_run_cons _ _ _ _ _ EV) as ([p' G'] & Ep & E').
      rewrite Ep. destruct (pull_yield _ _ _ _ _ Ep) as [HG' (bps & book & n & it & ->)].
      cbn [is_failed].
      destruct (run_some_setx fuel pT G G' _ ltac:(congruence) ET) as ([eT' r'] & ET' & Ht & Hok).
      simpl in Ht, Hok. subst eT'. destruct r' as [GT'|]; [|discriminate].
      rewrite (IH pT (AtOuter bps book n it) G' eT rest GT' GV HT I HG' ET' E'); simpl in *; auto; lia.
Qed.

(** C33: when both generators run to completion alone, there is a fuel
    with which any lockstep schedule that pulls the training generator at
    least as many times as it has batches, and the validation generator
    likewise, delivers exactly the two streams of batches. *)
Theorem lockstep_pulls_complete bT bV evT evV GT GV :
  generator convert c load_tokenized read_and_encode bT init_globals = (evT, Ok GT) ->
  generator convert c load_tokenized read_and_encode bV init_globals = (evV, Ok GV) ->
  exists fuel, forall turns,
    length evT <= count_occ Bool.bool_dec turns true -> length evV <= count_occ Bool.bool_dec turns false ->
    run_turns fuel turns (AtBook bT) (AtBook bV) init_globals = (evT, evV).
Proof.
  intros HT HV. destruct (run_generator bT init_globals) as [FT ET].
  destruct (run_generator bV init_globals) as [FV EV].
  exists (FT + FV). intros turns CT CV.
  apply (turns_complete (FT + FV) turns (AtBook bT) (AtBook bV) init_globals _ _ GT GV I I eq_refl); auto.
  - rewrite <- HT. apply (run_mono FT); [lia|exact ET].
  - rewrite <- HV. apply (run_mono FV); [lia|exact EV].
Qed.

End Machine.

(** ** Two generators racing on the shared globals *)

Section Races.
Context {K : Type}.
Variable convert : nat -> list K.
Variable c : cfg.
Variable load_tokenized : string -> option (list nat).
Variable read_and_encode : string -> list nat.
Variable d : nat.
Hypothesis convert_width : forall t, length (convert t) = d.

Local Abbreviation run2' := (run2 convert c load_tokenized read_and_encode).
Local Abbreviation step' := (step convert c load_tokenized read_and_encode).
Local Abbreviation book_of := (get_book load_tokenized read_and_encode).

Lemma run2_silent_T sched sT sT' sV G G' :
  step' (sT, G) = Some (None, (sT', G')) -> run2' (true :: sched) sT sV G = run2' sched sT' sV G'.
Proof. intros H. cbn [run2]. rewrite H. cbn [opt_list app]. now destruct (run2' sched sT' sV G') as [[? ?] ?]. Qed.

Lemma run2_silent_F sched sT sV sV' G G' :
  step' (sV, G) = Some (None, (sV', G')) -> run2' (false :: sched) sT sV G = run2' sched sT sV' G'.
Proof. intros H. cbn [run2]. rewrite H. cbn [opt_list app]. now destruct (run2' sched sT sV' G') as [[? ?] ?]. Qed.

(** Lines 362-366 of one generator: the book is loaded, [setx] emptied,
    and the first group's [k] loop entered. *)
Lemma step_book_enter bp bps (G : @globals K) :
  0 < batchSize c -> batchSize c <= length (book_of bp) ->
  exists i, step' (AtBook (bp :: bps), G)
            = Some (None, (AtOuter bps (book_of bp) 0 (S i), mk_globals [] (last_batch G)))
         /\ step' (AtOuter bps (book_of bp) 0 (S i), mk_globals [] (last_batch G))
            = Some (None, (AtInner bps (book_of bp) 0 (S i) (seq 0 (batchSize c)),
                           mk_globals [] (last_batch G))).
Proof.
  intros HB Hlen. cbn [step]. destruct (batchSize c) as [|B] eqn:EB; [lia|].
  destruct (length (book_of bp) / S B) as [|i] eqn:Ei.
  - apply Nat.div_small_iff in Ei; lia.
  - exists i. split; reflexivity.
Qed.

Lemma run2_book_T bp bps sched sV (G : @globals K) :
  0 < batchSize c -> batchSize c <= length (book_of bp) ->
  exists i, run2' ([true; true] ++ sched) (AtBook (bp :: bps)) sV G
            = run2' sched (AtInner bps (book_of bp) 0 (S i) (seq 0 (batchSize c))) sV
                    (mk_globals [] (last_batch G)).
Proof.
  intros HB Hlen. destruct (step_book_enter bp bps G HB Hlen) as [i [E1 E2]]. exists i.
  cbn [app]. rewrite (run2_silent_T _ _ _ _ _ _ E1). exact (run2_silent_T _ _ _ _ _ _ E2).
Qed.

Lemma run2_book_F bp bps sched sT (G : @globals K) :
  0 < batchSize c -> batchSize c <= length (book_of bp) ->
  exists i, run2' ([false; false] ++ sched) sT (AtBook (bp :: bps)) G
            = run2' sched sT (AtInner bps (book_of bp) 0 (S i) (seq 0 (batchSize c)))
                    (mk_globals [] (last_batch G)).
Proof.
  intros HB Hlen. destruct (step_book_enter bp bps G HB Hlen) as [i [E1 E2]]. exists i.
  cbn [app]. rewrite (run2_silent_F _ _ _ _ _ _ E1). exact (run2_silent_F _ _ _ _ _ _ E2).
Qed.

Lemma step_inner bps book n it k ks (G : @globals K) :
  step' (AtInner bps book n it (k :: ks), G)
  = Some (None, (AtInner bps book n it ks,
                 mk_globals (setx G ++ [window_at convert c book (n + k)]) (last_batch G))).
Proof. cbn [step]. now rewrite (make_window_ok convert c d convert_width). Qed.

(** [length ks] passes of the [k] loop (line 378) append the windows at
    offsets [n + k]. *)
Lemma run2_inner_T bps book n it ks : forall ks' sched sV (G : @globals K),
  run2' (repeat true (length ks) ++ sched) (AtInner bps book n it (ks ++ ks')) sV G
  = run2' sched (AtInner bps book n it ks') sV
          (mk_globals (setx G ++ map (fun k => window_at convert c book (n + k)) ks) (last_batch G)).
Proof.
  induction ks as [|k ks IH]; intros ks' sched sV G; cbn [length repeat app map].
  - now rewrite app_nil_r, globals_eta.
  - rewrite (run2_silent_T _ _ _ _ _ _ (step_inner bps book n it k (ks ++ ks') G)), IH.
    cbn [setx last_batch]. now rewrite <- app_assoc.
Qed.

Lemma run2_inner_T_all bps book n it ks sched sV (G : @globals K) :
  run2' (repeat true (length ks) ++ sched) (AtInner bps book n it ks) sV G
  = run2' sched (AtInner bps book n it []) sV
          (mk_globals (setx G ++ map (fun k => window_at convert c book (n + k)) ks) (last_batch G)).
Proof. rewrite <- (run2_inner_T bps book n it ks []), app_nil_r. reflexivity. Qed.

Lemma run2_inner_F bps book n it ks : forall ks' sched sT (G : @globals K),
  run2' (repeat false (length ks) ++ sched) sT (AtInner bps book n it (ks ++ ks')) G
  = run2' sched sT (AtInner bps book n it ks')
          (mk_globals (setx G ++ map (fun k => window_at convert c book (n + k)) ks) (last_batch G)).
Proof.
  induction ks as [|k ks IH]; intros ks' sched sT G; cbn [length repeat app map].
  - now rewrite app_nil_r, globals_eta.
  - rewrite (run2_silent_F _ _ _ _ _ _ (step_inner bps book n it k (ks ++ ks') G)), IH.
    cbn [setx last_batch]. now rewrite <- app_assoc.
Qed.

(** C32: the two generators share [setx], and the validation generator
    can empty it (line 362) and refill it while the training generator is
    inside its [k] loop.  For every configuration with [batchSize >= 2]
    and books of at least [batchSize] tokens, the schedule "training: 3
    steps (load, enter the group, one window); validation: 2 +
    batchSize steps (load, enter, a whole group); training: one step"
    leaves in [setx] the whole validation group followed by the second
    training window: [batchSize + 1] windows, so [len(setx) ==
    batchSize] fails for both generators and this group is never
    flushed. *)
Theorem interleaving_overfills_setx bpT bpV :
  let bookT := book_of bpT in
  let bookV := book_of bpV in
  2 <= batchSize c -> batchSize c <= length bookT -> batchSize c <= length bookV ->
  exists sched,
    setx (snd (snd (run2' sched (AtBook [bpT]) (AtBook [bpV]) init_globals)))
    = map (fun k => window_at convert c bookV k) (seq 0 (batchSize c)) ++ [window_at convert c bookT 1]
    /\ batchSize c < length (setx (snd (snd (run2' sched (AtBook [bpT]) (AtBook [bpV]) init_globals)))).
Proof.
  intros bookT bookV HB HT HV.
  set (sched := [true; true] ++ repeat true (length [0]) ++ [false; false]
                ++ repeat false (length (seq 0 (batchSize c))) ++ repeat true (length [1]) ++ []).
  assert (Hrun : setx (snd (snd (run2' sched (AtBook [bpT]) (AtBook [bpV]) init_globals)))
                 = map (fun k => window_at convert c bookV k) (seq 0 (batchSize c))
                   ++ [window_at convert c bookT 1]).
  { assert (E : seq 0 (batchSize c) = [0] ++ [1] ++ seq 2 (batchSize c - 2))
      by (destruct (batchSize c) as [|[|B]]; [lia|lia|cbn; now rewrite Nat.sub_0_r]).
    unfold sched.
    destruct (run2_book_T bpT [] (repeat true (length [0]) ++ [false; false]
                ++ repeat false (length (seq 0 (batchSize c))) ++ repeat true (length [1]) ++ [])
                (AtBook [bpV]) init_globals ltac:(lia) HT) as [i ->].
    rewrite E at 2. rewrite run2_inner_T.
    cbn [setx last_batch init_globals].
    destruct (run2_book_F bpV [] (repeat false (length (seq 0 (batchSize c))) ++ repeat true (length [1]) ++ [])
                (AtInner [] (book_of bpT) 0 (S i) ([1] ++ seq 2 (batchSize c - 2)))
                (mk_globals ([] ++ map (fun k => window_at convert c (book_of bpT) (0 + k)) [0]) [])
                ltac:(lia) HV) as [j ->].
    rewrite <- (app_nil_r (seq 0 (batchSize c))) at 2. rewrite run2_inner_F, run2_inner_T.
    cbn -[seq]. reflexivity. }
  exists sched. split; [exact Hrun|]. rewrite Hrun, length_app, length_map, length_seq. cbn. lia.
Qed.

Lemma run2_check_T bps book n it sched sV (G : @globals K) b :
  length (setx G) = batchSize c -> make_batch (setx G) = Ok b ->
  fst (fst (run2' (true :: sched) (AtCheck bps book n it) sV G))
  = (b, mk_globals [] (setx G))
    :: fst (fst (run2' sched (AtOuter bps book n (pred it)) sV (mk_globals [] (setx G)))).
Proof.
  intros Hl Hb. cbn [run2 step]. rewrite (proj2 (Nat.eqb_eq _ _) Hl), Hb.
  now destruct (run2' sched (AtOuter bps book n (pred it)) sV (mk_globals [] (setx G))) as [[? ?] ?].
Qed.

(** C27: if the validation generator starts a book (line 362 empties the
    shared [setx]) while the training generator is inside its [k] loop,
    the training generator completes its group on top of the validation
    window and yields it as a training batch.  For every configuration
    and any two books in which the first group fits, the schedule
    "training: 3 steps (load, enter the group, window 0); validation: 3
    steps (load, enter, window 0); training: the rest of the group, the
    check and the flush" makes the training generator yield a batch whose
    first input is the validation book's first window, followed by the
    training windows at offsets [1 .. batchSize - 1]. *)
Theorem train_batch_mixes_validation bpT bpV :
  let bookT := book_of bpT in
  let bookV := book_of bpV in
  0 < batchSize c -> batchSize c + window_width c <= length bookT ->
  batchSize c + window_width c <= length bookV ->
  exists sched ev, In ev (fst (fst (run2' sched (AtBook [bpT]) (AtBook [bpV]) init_globals)))
    /\ fst (fst ev) = fst (window_at convert c bookV 0)
                      :: map (fun k => fst (window_at convert c bookT k)) (seq 1 (batchSize c - 1)).
Proof.
  intros bookT bookV HB HT HV.
  assert (HT' : batchSize c <= length (book_of bpT)) by (unfold bookT in HT; lia).
  assert (HV' : batchSize c <= length (book_of bpV)) by (unfold bookV in HV; lia).
  assert (E : seq 0 (batchSize c) = [0] ++ seq 1 (batchSize c - 1))
    by (destruct (batchSize c) as [|B]; [lia|cbn; now rewrite Nat.sub_0_r]).
  set (sx := map (fun k => window_at convert c bookV (0 + k)) [0]
             ++ map (fun k => window_at convert c bookT (0 + k)) (seq 1 (batchSize c - 1))).
  assert (Hsx : make_batch sx = Ok (batch_of sx)).
  { apply (make_batch_fits convert c d convert_width); [discriminate|].
    intros w Hw. apply in_app_iff in Hw as [Hw|Hw]; apply in_map_iff in Hw as [k [<- Hk]].
    - destruct Hk as [<-|[]]. exists bookV, 0. split; [reflexivity|lia].
    - apply in_seq in Hk. exists bookT, (0 + k). split; [reflexivity|lia]. }
  exists ([true; true] ++ repeat true (length [0]) ++ [false; false] ++ repeat false (length [0])
          ++ repeat true (length (seq 1 (batchSize c - 1))) ++ [true; true]).
  destruct (run2_book_T bpT [] (repeat true (length [0]) ++ [false; false] ++ repeat false (length [0])
              ++ repeat true (length (seq 1 (batchSize c - 1))) ++ [true; true])
              (AtBook [bpV]) init_globals HB HT') as [i ->].
  rewrite E. rewrite run2_inner_T. cbn [setx last_batch init_globals].
  destruct (run2_book_F bpV [] (repeat false (length [0]) ++ repeat true (length (seq 1 (batchSize c - 1)))
              ++ [true; true]) (AtInner [] (book_of bpT) 0 (S i) (seq 1 (batchSize c - 1)))
              (mk_globals ([] ++ map (fun k => window_at convert c (book_of bpT) (0 + k)) [0]) [])
              HB HV') as [j ->].
  rewrite E, run2_inner_F. cbn [setx last_batch].
  rewrite run2_inner_T_all. cbn [setx last_batch].
  rewrite app_nil_l.
  erewrite (run2_silent_T [true] _ (AtCheck [] (book_of bpT) 1 (S i))) by reflexivity.
  change (map (fun k => window_at convert c (book_of bpV) (0 + k)) [0]
          ++ map (fun k => window_at convert c (book_of bpT) (0 + k)) (seq 1 (batchSize c - 1)))
    with sx.
  rewrite (run2_check_T _ _ _ _ _ _ _ (batch_of sx)); [| |exact Hsx].
  - eexists. split; [left; reflexivity|]. unfold sx, batch_of. cbn -[seq]. now rewrite map_map.
  - cbn [setx]. unfold sx. rewrite length_app, !length_map, length_seq. cbn. lia.
Qed.

End Races.

(** ** Small configurations for the witnesses *)

Definition ex_cfg : cfg :=
  {| sequenceSize := 1; dimension := 4; arrayDimension := 1; predictSteps := 1; batchSize := 2 |}.

Definition ex_cache (name : string) : option (list nat) :=
  if String.eqb name "train" then Some [1; 2; 3; 4]
  else if String.eqb name "val" then Some [100; 101; 102; 103] else None.

Definition ex_run2 (sched : list bool) :=
  run2 (fun t : nat => [t]) ex_cfg ex_cache (fun _ => []) sched
       (AtBook ["train"%string]) (AtBook ["val"%string]) init_globals.

Definition ex_book (name : string) : list nat := get_book ex_cache (fun _ => []) name.

(** Two books of four tokens, [batchSize = 2]: the training batch holds
    the validation token [100] and the training token [2]. *)
Lemma train_batch_mixes_validation_witness :
  exists sched ev,
    In ev (fst (fst (ex_run2 sched)))
    /\ fst (fst ev) = fst (window_at (fun t : nat => [t]) ex_cfg (ex_book "val") 0)
                      :: map (fun k => fst (window_at (fun t : nat => [t]) ex_cfg (ex_book "train") k))
                             (seq 1 (batchSize ex_cfg - 1)).
Proof.
  apply (train_batch_mixes_validation (fun t : nat => [t]) ex_cfg ex_cache (fun _ => []) 1
           (fun _ => eq_refl) "train"%string "val"%string); vm_compute; lia.
Defined.

Lemma interleaving_overfills_setx_witness :
  exists sched,
    setx (snd (snd (ex_run2 sched)))
    = map (fun k => window_at (fun t : nat => [t]) ex_cfg (ex_book "val") k) (seq 0 (batchSize ex_cfg))
      ++ [window_at (fun t : nat => [t]) ex_cfg (ex_book "train") 1]
    /\ batchSize ex_cfg < length (setx (snd (snd (ex_run2 sched)))).
Proof.
  apply (interleaving_overfills_setx (fun t : nat => [t]) ex_cfg ex_cache (fun _ => []) 1
           (fun _ => eq_refl) "train"%string "val"%string); vm_compute; lia.
Defined.

Lemma setx_bounded_witness :
  length (setx (snd (trace (fun t : nat => [t]) ex_cfg ex_cache (fun _ => []) 3
                        (AtBook ["train"%string], init_globals)))) <= batchSize ex_cfg.
Proof.
  apply (setx_bounded (fun t : nat => [t]) ex_cfg ex_cache (fun _ => []) ["train"%string] init_globals);
    [reflexivity|apply reachable_trans, reach_refl].
Defined.

Definition ex_gen (bps : list string) :=
  generator (fun t : nat => [t]) ex_cfg ex_cache (fun _ => []) bps init_globals.

Lemma lockstep_pulls_complete_witness :
  exists fuel, forall turns,
    length (fst (ex_gen ["train"%string])) <= count_occ Bool.bool_dec turns true ->
    length (fst (ex_gen ["val"%string])) <= count_occ Bool.bool_dec turns false ->
    run_turns (fun t : nat => [t]) ex_cfg ex_cache (fun _ => []) fuel turns
      (AtBook ["train"%string]) (AtBook ["val"%string]) init_globals
    = (fst (ex_gen ["train"%string]), fst (ex_gen ["val"%string])).
Proof.
  eapply (lockstep_pulls_complete (fun t : nat => [t]) ex_cfg ex_cache (fun _ => [])
            ["train"%string] ["val"%string]); cbv; reflexivity.
Defined.

End GenMachine.
