(* ===== verification/GenTermination.v ===== *)
(** * Termination of the generator machine

    Every step of [GenMachine.step] decreases a measure of the program
    counter alone: the steps left in the current group, the groups left
    in the current book ([len(book) // batchSize] of them, [batchSize + 3]
    steps each) and the cost of the books still to read.  Since the
    measure ignores the globals, a generator finishes within that many of
    its own steps whatever another generator does to [setx] and
    [last_batch] in between: no schedule of the training and validation
    generators of [run()] can keep either from terminating. *)

From Stdlib Require Import String List Arith Lia.
From S2P Require Import Prelude Config Generator GenMachine.
Import ListNotations.
Import WindowBatchGenerator.
Open Scope fjlm_scope.

Module GenTermination.
Import GenMachine.

Section Measure.
Context {K : Type}.
Variable convert : nat -> list K.
Variable c : cfg.
Variable load_tokenized : string -> option (list nat).
Variable read_and_encode : string -> list nat.

Definition halted (p : pc) : bool :=
  match p with Done | Failed _ => true | _ => false end.

(** The steps of one group: [AtOuter], [batchSize] windows, the end of the
    [k] loop and the check. *)
Definition group_cost : nat := batchSize c + 3.

(** Reading a book and running its [len(book) // batchSize] groups. *)
Definition book_cost (bp : string) : nat :=
  2 + length (get_book load_tokenized read_and_encode bp) / batchSize c * group_cost.

Definition books_cost (bps : list string) : nat :=
  1 + fold_right (fun bp acc => book_cost bp + acc) 0 bps.

Definition measure (p : pc) : nat :=
  match p with
  | AtBook bps => books_cost bps
  | AtOuter bps _ _ it => 1 + it * group_cost + books_cost bps
  | AtInner bps _ _ it ks => length ks + 3 + (it - 1) * group_cost + books_cost bps
  | AtCheck bps _ _ it => 2 + (it - 1) * group_cost + books_cost bps
  | Done | Failed _ => 0
  end.

Lemma measure_halted p : halted p = true -> measure p = 0.
Proof. destruct p; simpl; congruence. Qed.

Lemma measure_pos p : halted p = false -> 0 < measure p.
Proof. destruct p; simpl; intros H; try discriminate; unfold books_cost; nia. Qed.

Lemma step_none p (G : @globals K) :
  step convert c load_tokenized read_and_encode (p, G) = None -> halted p = true.
Proof.
  destruct p as [[|bp bps]|bps book n [|i]|bps book n it [|k ks]|bps book n it| |e];
    cbn [step]; try discriminate; try reflexivity.
  - destruct (batchSize c); discriminate.
  - destruct (make_window convert c book n k); discriminate.
  - destruct (length (setx G) =? batchSize c); [destruct (make_batch (setx G))|]; discriminate.
Qed.

Ltac measure_solve :=
  unfold measure, books_cost, book_cost, group_cost; cbn [fold_right];
  rewrite ?length_seq; cbn [length]; nia.

(** The measure decreases at every step. *)
Lemma step_measure p (G : @globals K) oe p' G' :
  step convert c load_tokenized read_and_encode (p, G) = Some (oe, (p', G')) ->
  measure p' < measure p.
Proof.
  destruct p as [[|bp bps]|bps book n [|i]|bps book n it [|k ks]|bps book n it| |e];
    cbn [step]; intros H; try discriminate.
  - inversion H; subst. measure_solve.
  - destruct (batchSize c) as [|B] eqn:EB; inversion H; subst; [measure_solve|].
    change (fst (Nat.divmod ?x B 0 B)) with (x / S B).
    unfold measure, books_cost, book_cost, group_cost; cbn [fold_right]. rewrite EB.
    generalize (length (get_book load_tokenized read_and_encode bp) / S B). intros q. nia.
  - inversion H; subst. measure_solve.
  - inversion H; subst. measure_solve.
  - inversion H; subst. measure_solve.
  - destruct (make_window convert c book n k); inversion H; subst; measure_solve.
  - destruct (length (setx G) =? batchSize c); [destruct (make_batch (setx G))|];
      inversion H; subst; destruct it as [|it]; measure_solve.
Qed.

Lemma measure_zero p : measure p = 0 -> halted p = true.
Proof.
  intros H. destruct (halted p) eqn:E; [reflexivity|].
  apply measure_pos in E. lia.
Qed.

Lemma measure_halted_terminal p (G : @globals K) :
  halted p = true -> terminal (p, G) = Some (match p with Failed e => Err e | _ => Ok G end).
Proof. destruct p; intros H; try discriminate; reflexivity. Qed.

Lemma terminal_halted p (G : @globals K) : terminal (p, G) = None -> halted p = false.
Proof. destruct p; intros H; try discriminate; reflexivity. Qed.

(** One step of a generator with [S n] of budget leaves it at most [n]. *)
Lemma step_budget p (G : @globals K) n :
  measure p <= S n ->
  match step convert c load_tokenized read_and_encode (p, G) with
  | Some (_, (p', _)) => measure p' <= n
  | None => measure p <= n
  end.
Proof.
  intros H. destruct (step _ _ _ _ (p, G)) as [[oe [p' G']]|] eqn:E.
  - apply step_measure in E. lia.
  - apply step_none, measure_halted in E. lia.
Qed.

(** Running alone, a generator stops within [measure] steps from any
    state, whatever the globals: [run] does not run out of fuel. *)
Lemma run_terminates f : forall p (G : @globals K),
  measure p <= f -> run convert c load_tokenized read_and_encode f (p, G) <> None.
Proof.
  induction f as [|f IH]; intros p G Hf; cbn [run].
  - rewrite (measure_halted_terminal p G); [discriminate|]. apply measure_zero. lia.
  - destruct (terminal (p, G)) eqn:Et; [discriminate|].
    pose proof (step_budget p G f Hf) as Hb.
    destruct (step _ _ _ _ (p, G)) as [[oe [p' G']]|] eqn:E.
    + destruct (run convert c load_tokenized read_and_encode f (p', G')) eqn:Er;
        [discriminate|]. exfalso. exact (IH p' G' Hb Er).
    + apply step_none in E. apply terminal_halted in Et. congruence.
Qed.

(** C38: termination under any interleaving.  Whatever the schedule of
    the training and validation generators over the shared globals, each
    has halted (finished or raised) once it has been given as many turns
    as its measure: the generator loops of lines 349-392 terminate, and
    the other generator's writes to [setx] and [last_batch] cannot delay
    that. *)
Theorem interleaved_generators_terminate sched : forall sT sV (G : @globals K),
  measure sT <= count_occ Bool.bool_dec sched true ->
  measure sV <= count_occ Bool.bool_dec sched false ->
  halted (fst (fst (snd (run2 convert c load_tokenized read_and_encode sched sT sV G)))) = true
  /\ halted (snd (fst (snd (run2 convert c load_tokenized read_and_encode sched sT sV G)))) = true.
Proof.
  induction sched as [|b sched IH]; intros sT sV G HT HV; cbn [run2].
  - cbn [count_occ fst snd] in *. split; apply measure_zero; lia.
  - destruct b.
    + rewrite count_occ_cons_eq in HT by reflexivity.
      rewrite count_occ_cons_neq in HV by discriminate.
      pose proof (step_budget sT G _ HT) as Hb.
      destruct (step _ _ _ _ (sT, G)) as [[oe [sT' G']]|]; [|apply IH; assumption].
      specialize (IH sT' sV G' Hb HV).
      destruct (run2 _ _ _ _ sched sT' sV G') as [[eT eV] fin]. exact IH.
    + rewrite count_occ_cons_neq in HT by discriminate.
      rewrite count_occ_cons_eq in HV by reflexivity.
      pose proof (step_budget sV G _ HV) as Hb.
      destruct (step _ _ _ _ (sV, G)) as [[oe [sV' G']]|]; [|apply IH; assumption].
      specialize (IH sT sV' G' HT Hb).
      destruct (run2 _ _ _ _ sched sT sV' G') as [[eT eV] fin]. exact IH.
Qed.

End Measure.

(** The two one-book generators of [GenMachine.ex_run2]: 13 turns each
    suffice (a book of four tokens makes two groups of five steps), here
    under strict alternation. *)
Definition ex_sched : list bool := concat (repeat [true; false] 13).

Lemma interleaved_generators_terminate_witness :
  halted (fst (fst (snd (ex_run2 ex_sched)))) = true
  /\ halted (snd (fst (snd (ex_run2 ex_sched)))) = true.
Proof.
  exact (interleaved_generators_terminate (fun t : nat => [t]) ex_cfg ex_cache (fun _ => [])
           ex_sched (AtBook ["train"%string]) (AtBook ["val"%string]) init_globals
           ltac:(vm_compute; lia) ltac:(vm_compute; lia)).
Defined.

End GenTermination.
