(* ===== verification/Vocab.v ===== *)
(** * VectorDictionary: the token vector table of [src/train.py]

    Lines 217-230 load [./models/vec.vec] into the dict [w2v] (token id
    string to list of floats) and its item list [vw2v]; [convert] (lines
    270-275) maps a token id to its vector, falling back to a zero vector
    with an error log; [reverser] (lines 262-267) decodes a vector to the
    id of the nearest stored vector; [reparse] (lines 256-258) decodes a
    sequence of vectors; line 277 asserts that token 11 is known.

    The float operations are those of a class [Numeric]: the development
    proves the dictionary's properties for every instance satisfying the
    laws [NumericLaws], and gives an executable instance on [Q]. *)

From Stdlib Require Import String Ascii List Arith Lia ZArith QArith Psatz.
From S2P Require Import Prelude.
Import ListNotations.
Open Scope fjlm_scope.

Module VectorDictionary.

(** ** The float interface *)

(** What the code does with floats: [float(s)], [==] (between floats and
    against the int [0]), subtraction, [np.linalg.norm] of one row, and the
    [<] that [np.argmin] uses on the norms. *)
Class Numeric (K : Type) : Type := {
  num_zero : K;
  num_of_string : string -> result K;
  num_eqb : K -> K -> bool;
  num_sub : K -> K -> K;
  num_norm : list K -> K;
  num_ltb : K -> K -> bool
}.

Section Vectors.
Context {K : Type} `{Numeric K}.

(** Python's [==] on two float lists. *)
Fixpoint vec_eqb (v w : list K) : bool :=
  match v, w with
  | [], [] => true
  | x :: v', y :: w' => num_eqb x y && vec_eqb v' w'
  | _, _ => false
  end.

(** Elementwise [v - w] of two rows of the same length. *)
Definition vsub (v w : list K) : list K :=
  map (fun p => num_sub (fst p) (snd p)) (combine v w).

(** numpy's broadcasting of [row - arr] for a row of the 2-D array
    [vectors] and the 1-D array [arr]. *)
Definition bcast_sub (row arr : list K) : result (list K) :=
  if length row =? length arr then Ok (vsub row arr)
  else if length arr =? 1 then Ok (map (fun x => num_sub x (hd num_zero arr)) row)
  else if length row =? 1 then Ok (map (fun y => num_sub (hd num_zero row) y) arr)
  else Err ValueError.
End Vectors.

(** The laws the dictionary's theorems use: [0.0 == 0], [<] is a strict
    weak order (asymmetric, its negation transitive), and the norm of
    [w - v] is above the norm of [v - v] when [w] and [v] are different
    vectors of the same length. *)
Class NumericLaws (K : Type) `{Numeric K} : Prop := {
  num_eqb_zero : num_eqb num_zero num_zero = true;
  num_ltb_asym : forall a b, num_ltb a b = true -> num_ltb b a = false;
  num_ltb_negtrans : forall a b c, num_ltb a b = false -> num_ltb b c = false -> num_ltb a c = false;
  num_norm_sep : forall v w, length v = length w -> vec_eqb w v = false ->
                 num_ltb (num_norm (vsub v v)) (num_norm (vsub w v)) = true
}.

Section Dictionary.
Context {K : Type} `{Numeric K}.

Definition dict : Type := list (string * list K).

(** Lines 223-227: one line of [vec.vec]; [tokens.pop(0)] on an empty line
    raises [IndexError] and [float(token)] raises [ValueError]. *)
Definition parse_line (line : string) : result (string * list K) :=
  match py_split line with
  | [] => Err IndexError
  | key :: tokens =>
      let* vec := map_result num_of_string
                    (filter (fun t => negb (String.eqb t EmptyString)) tokens) in
      Ok (key, vec)
  end.

(** Lines 217-227: [v.pop(0)] drops the header, then every line sets
    [w2v[key] = vec]. *)
Definition load_w2v (lines : list string) : result dict :=
  match lines with
  | [] => Err IndexError
  | _ :: v =>
      fold_result (fun w2v line => let* '(key, vec) := parse_line line in
                                   Ok (dict_set w2v key vec)) v []
  end.

(** Line 270: [empty_vec = [0] * 8]. *)
Definition empty_vec : list K := repeat num_zero 8.

(** The diagnostic [logging.error(f"Token {n} not found in w2v dictionary!")]. *)
Inductive log_event : Type :=
| TokenNotFound (n : nat).

(** Lines 271-275: the stored vector or [empty_vec]; the error is logged
    whenever the result equals [empty_vec]. *)
Definition convert (w2v : dict) (n : nat) : list K * list log_event :=
  let vec := match dict_get w2v (py_str_nat n) with
             | Some v => v
             | None => empty_vec
             end in
  (vec, if vec_eqb vec empty_vec then [TokenNotFound n] else []).

(** Line 264: [item[1] if item[1] else [0] * 8]. *)
Definition eff_vec (v : list K) : list K :=
  match v with [] => repeat num_zero 8 | _ => v end.

(** Lines 262-267: [np.argmin(np.linalg.norm(vectors - arr, axis=1))], then
    the key at that index. An empty table raises (no row to reduce). *)
Definition reverser (vw2v : dict) (arr : list K) : result string :=
  let vectors := map (fun item => eff_vec (snd item)) vw2v in
  match vectors with
  | [] => Err ValueError
  | _ =>
      let* _ := np_array2 vectors in
      let* diffs := map_result (fun row => bcast_sub row arr) vectors in
      let* i := argmin num_ltb (map num_norm diffs) in
      match nth_error vw2v i with
      | Some (key, _) => Ok key
      | None => Err IndexError
      end
  end.

(** Line 257: [[int(reverser(item)) if len(item) else item for item in v]],
    the list handed to [tokenizer.decode]; an empty item stays an array,
    which [decode] refuses with [TypeError] once the list is built. *)
Definition reparse_ids (vw2v : dict) (v : list (list K)) : result (list Z) :=
  let* items := map_result (fun item =>
                  match item with
                  | [] => Ok None
                  | _ => let* key := reverser vw2v item in
                         let* z := py_int key in Ok (Some z)
                  end) v in
  match fold_right (fun o acc => match o, acc with
                                 | Some z, Some zs => Some (z :: zs)
                                 | _, _ => None end) (Some []) items with
  | Some zs => Ok zs
  | None => Err TypeError
  end.

(** Line 277: [assert convert(11) != empty_vec]. *)
Definition startup_assert (w2v : dict) : result unit :=
  if vec_eqb (fst (convert w2v 11)) empty_vec then Err AssertionError else Ok tt.

End Dictionary.

(** ** Properties of the dictionary *)

Section Properties.
Context {K : Type} `{NumericLaws K}.

(** Every row of the table, after the [[0] * 8] substitution, has [m]
    components. *)
Definition table_width (vw2v : @dict K) (m : nat) : Prop :=
  forall kv, In kv vw2v -> length (eff_vec (snd kv)) = m.

(** The rows of the table, after the substitution, are pairwise different
    for Python's [==]. *)
Definition table_distinct (vw2v : @dict K) : Prop :=
  forall i j a b, i <> j -> nth_error vw2v i = Some a -> nth_error vw2v j = Some b ->
  vec_eqb (eff_vec (snd a)) (eff_vec (snd b)) = false.

(** An executable test for [table_distinct]. *)
Fixpoint rows_distinctb (rows : list (list K)) : bool :=
  match rows with
  | [] => true
  | r :: rs => forallb (fun r' => negb (vec_eqb r r') && negb (vec_eqb r' r)) rs
               && rows_distinctb rs
  end.

Lemma rows_distinctb_sound (vw2v : dict) :
  rows_distinctb (map (fun kv => eff_vec (snd kv)) vw2v) = true -> table_distinct vw2v.
Proof.
  induction vw2v as [|kv rest IH]; intros Hb i j a b Hij Hi Hj; [destruct i; discriminate|].
  simpl in Hb. apply andb_true_iff in Hb as [Hall Hrest].
  rewrite forallb_forall in Hall.
  destruct i as [|i], j as [|j]; simpl in Hi, Hj.
  - contradiction.
  - inversion Hi; subst a.
    assert (Hb : In (eff_vec (snd b)) (map (fun kv => eff_vec (snd kv)) rest))
      by (apply (in_map (fun kv => eff_vec (snd kv))), (nth_error_In _ _ Hj)).
    specialize (Hall _ Hb). apply andb_true_iff in Hall as [H1 _].
    now apply negb_true_iff.
  - inversion Hj; subst b.
    assert (Ha : In (eff_vec (snd a)) (map (fun kv => eff_vec (snd kv)) rest))
      by (apply (in_map (fun kv => eff_vec (snd kv))), (nth_error_In _ _ Hi)).
    specialize (Hall _ Ha). apply andb_true_iff in Hall as [_ H2].
    now apply negb_true_iff.
  - exact (IH Hrest i j a b ltac:(lia) Hi Hj).
Qed.

Lemma bcast_sub_same (row arr : list K) :
  length row = length arr -> bcast_sub row arr = Ok (vsub row arr).
Proof. intros E. unfold bcast_sub. now rewrite E, Nat.eqb_refl. Qed.

Lemma vec_eqb_repeat_zero n : vec_eqb (repeat num_zero n) (repeat num_zero n) = true.
Proof. induction n as [|n IH]; simpl; [reflexivity|]. now rewrite num_eqb_zero, IH. Qed.

(** [reverser] on a table of rows of the width of [arr]: the key of the
    first row whose distance to [arr] is least. *)
Lemma reverser_same_width (vw2v : dict) (arr : list K) :
  vw2v <> [] -> table_width vw2v (length arr) ->
  reverser vw2v arr
  = let* i := argmin num_ltb (map (fun item => num_norm (vsub (eff_vec (snd item)) arr)) vw2v) in
    match nth_error vw2v i with Some (key, _) => Ok key | None => Err IndexError end.
Proof.
  intros Hne Hw. unfold reverser.
  assert (Hrows : forall r, In r (map (fun item => eff_vec (snd item)) vw2v) -> length r = length arr).
  { intros r Hr. apply in_map_iff in Hr as [kv [<- Hkv]]. now apply Hw. }
  rewrite (map_result_all_ok _ (fun row => vsub row arr)) by
    (intros r Hr; apply bcast_sub_same, Hrows, Hr).
  rewrite (np_array2_uniform (length arr)) by exact Hrows.
  destruct vw2v as [|kv rest]; [contradiction|]. cbn [map bind]. now rewrite !map_map.
Qed.

(** The stored row [j] is strictly nearer to itself than every other row
    of a table of distinct rows of one width. *)
Lemma reverser_own_row (vw2v : dict) j key (v : list K) :
  table_distinct vw2v -> table_width vw2v (length v) ->
  nth_error vw2v j = Some (key, v) -> v <> [] ->
  reverser vw2v v = Ok key.
Proof.
  intros Hd Hw Hj Hv.
  assert (Heff : eff_vec v = v) by (destruct v; [contradiction|reflexivity]).
  rewrite reverser_same_width by (auto; intros ->; destruct j; discriminate).
  rewrite (argmin_strict_min num_ltb num_ltb_asym _ j (num_norm (vsub v v))).
  - simpl. now rewrite Hj.
  - rewrite nth_error_map, Hj. simpl. now rewrite Heff.
  - intros k d Hk Hkj. rewrite nth_error_map in Hk.
    destruct (nth_error vw2v k) as [[k' v']|] eqn:Ek; simpl in Hk; inversion Hk; subst d.
    apply num_norm_sep.
    + symmetry. apply (Hw (k', v')). eapply nth_error_In; eauto.
    + rewrite <- Heff. exact (Hd k j (k', v') (key, v) Hkj Ek Hj).
Qed.

(** On a non-empty table of rows of the width of [arr], [reverser]
    returns the key of one of the rows. *)
Lemma reverser_some_row (vw2v : dict) (arr : list K) :
  vw2v <> [] -> table_width vw2v (length arr) ->
  exists key v, reverser vw2v arr = Ok key /\ In (key, v) vw2v.
Proof.
  intros Hne Hw. rewrite reverser_same_width by assumption.
  destruct (argmin_first_min num_ltb num_ltb_asym num_ltb_negtrans
              (map (fun item => num_norm (vsub (eff_vec (snd item)) arr)) vw2v))
    as (j & E & Hj & _); [now destruct vw2v|].
  rewrite E. cbn [bind]. rewrite length_map in Hj.
  destruct (nth_error vw2v j) as [[key v]|] eqn:Ej; [|apply nth_error_None in Ej; lia].
  exists key, v. split; [reflexivity|]. eapply nth_error_In; eauto.
Qed.

(** C10: a vector of the table decodes to its own key: when the rows are
    pairwise different and all of one width, [reverser] of the [j]-th stored
    vector is the [j]-th key. *)
Theorem reverser_roundtrip (vw2v : dict) j key (v : list K) :
  table_distinct vw2v -> table_width vw2v (length v) ->
  nth_error vw2v j = Some (key, v) -> v <> [] ->
  reverser vw2v v = Ok key.
Proof. exact (reverser_own_row vw2v j key v). Qed.

(** The distance [reverser] computes for a row: [np.linalg.norm] of the
    row (after the [[0] * 8] substitution) minus [arr]. *)
Definition row_dist (arr : list K) (kv : string * list K) : K :=
  num_norm (vsub (eff_vec (snd kv)) arr).

(** C30: [reverser] is a nearest-neighbour search with ties broken by the
    lowest insertion index: on a non-empty table whose rows have the width
    of [arr], it returns the key of a row [j] whose distance to [arr] is
    below that of every earlier row and not above that of any row. *)
Theorem reverser_nearest (vw2v : dict) (arr : list K) :
  vw2v <> [] -> table_width vw2v (length arr) ->
  exists j key v, reverser vw2v arr = Ok key /\ nth_error vw2v j = Some (key, v) /\
    (forall i kv, (i < j)%nat -> nth_error vw2v i = Some kv ->
                  num_ltb (row_dist arr (key, v)) (row_dist arr kv) = true) /\
    (forall i kv, nth_error vw2v i = Some kv -> num_ltb (row_dist arr kv) (row_dist arr (key, v)) = false).
Proof.
  intros Hne Hw. rewrite reverser_same_width by assumption.
  change (map (fun item => num_norm (vsub (eff_vec (snd item)) arr)) vw2v) with (map (row_dist arr) vw2v).
  destruct (argmin_first_min num_ltb num_ltb_asym num_ltb_negtrans (map (row_dist arr) vw2v))
    as (j & E & Hj & H1 & H2); [now destruct vw2v|].
  rewrite E. cbn [bind]. rewrite length_map in Hj.
  destruct (nth_error vw2v j) as [[key v]|] eqn:Ej; [|apply nth_error_None in Ej; lia].
  exists j, key, v. split; [reflexivity|split; [exact Ej|split]].
  - intros i kv Hi Ei. apply (H1 i); [exact Hi| |]; rewrite nth_error_map; [now rewrite Ej|now rewrite Ei].
  - intros i kv Ei. apply (H2 i); rewrite nth_error_map; [now rewrite Ej|now rewrite Ei].
Qed.

(** The [fold_right] of [reparse_ids] when every item decoded to an int. *)
Lemma collect_some (zs : list Z) :
  fold_right (fun o acc => match o, acc with
                           | Some z, Some zs => Some (z :: zs)
                           | _, _ => None end) (Some []) (map Some zs) = Some zs.
Proof. induction zs as [|z zs IH]; simpl; [reflexivity|]. now rewrite IH. Qed.

(** C11: decoding the vectors [convert] gives for token ids known to a
    table of distinct, equally wide, non-empty rows yields the ids back:
    [int(reverser(convert(n))) = n] for each, and [reparse] hands exactly
    the original id list to [tokenizer.decode]. *)
Theorem reparse_convert_roundtrip (w2v : dict) (ns : list nat) m :
  table_distinct w2v -> table_width w2v m ->
  (forall n, In n ns -> exists v : list K,
     dict_get w2v (py_str_nat n) = Some v /\ v <> []) ->
  reparse_ids w2v (map (fun n => fst (convert w2v n)) ns) = Ok (map Z.of_nat ns).
Proof.
  intros Hd Hw Hns. unfold reparse_ids.
  rewrite (map_result_map_ok _ _ (fun n => Some (Z.of_nat n))).
  - simpl. now rewrite <- (map_map Z.of_nat Some), collect_some.
  - intros n Hn. destruct (Hns n Hn) as [v [Hv Hne]].
    unfold convert. rewrite Hv. cbn [fst].
    destruct (dict_get_nth _ _ _ Hv) as [j Hj].
    assert (Hlen : length v = m).
    { rewrite <- (Hw (py_str_nat n, v)) by (eapply nth_error_In; eauto).
      destruct v; [contradiction|reflexivity]. }
    destruct v as [|x v']; [contradiction|].
    rewrite (reverser_own_row w2v j (py_str_nat n)); auto; [|now rewrite Hlen].
    simpl. now rewrite py_int_str_nat.
Qed.

(** [convert] on both branches: an id absent from [w2v] gives the
    eight zeros and exactly one error log; a present id gives its stored
    vector, with the same "not found" log when that vector equals the eight
    zeros. *)
Theorem convert_spec (w2v : dict) n :
  convert w2v n
  = match dict_get w2v (py_str_nat n) with
    | None => (repeat num_zero 8, [TokenNotFound n])
    | Some v => (v, if vec_eqb v (repeat num_zero 8) then [TokenNotFound n] else [])
    end.
Proof.
  unfold convert, empty_vec. destruct (dict_get w2v (py_str_nat n)); [reflexivity|].
  now rewrite vec_eqb_repeat_zero.
Qed.

(** The body of the loading loop, one line at a time. *)
Definition load_step (w2v : @dict K) (line : string) : result dict :=
  let* '(key, vec) := parse_line line in Ok (dict_set w2v key vec).

Definition set_all (ps : list (string * list K)) (d0 : dict) : dict :=
  fold_left (fun acc kv => dict_set acc (fst kv) (snd kv)) ps d0.

(** The value the last line with key [k] assigns, if any. *)
Definition assoc_last (ps : list (string * list K)) (k : string) (d0 : option (list K))
  : option (list K) :=
  fold_left (fun acc kv => if String.eqb k (fst kv) then Some (snd kv) else acc) ps d0.

Lemma load_fold_ok lines (d0 d : dict) :
  fold_result load_step lines d0 = Ok d ->
  exists ps, map_result parse_line lines = Ok ps /\ d = set_all ps d0.
Proof.
  revert d0; induction lines as [|line lines IH]; intros d0 Hf; simpl in Hf.
  - inversion Hf; subst. exists []. split; reflexivity.
  - unfold load_step at 1 in Hf.
    destruct (parse_line line) as [[k v]|e] eqn:E; simpl in Hf; [|discriminate].
    destruct (IH _ Hf) as [ps [Hps ->]]. exists ((k, v) :: ps).
    simpl. rewrite E, Hps. split; reflexivity.
Qed.

Lemma set_all_nodup ps (d0 : dict) : NoDup (map fst d0) -> NoDup (map fst (set_all ps d0)).
Proof.
  revert d0; induction ps as [|kv ps IH]; intros d0 Hnd; simpl; [exact Hnd|].
  apply IH, dict_set_nodup, Hnd.
Qed.

Lemma set_all_get ps (d0 : dict) k :
  dict_get (set_all ps d0) k = assoc_last ps k (dict_get d0 k).
Proof.
  revert d0; induction ps as [|[k' v'] ps IH]; intros d0; simpl; [reflexivity|].
  rewrite IH, dict_get_set. reflexivity.
Qed.

(** C13: when [vec.vec] loads, [w2v] has pairwise different keys and maps
    each key to the vector of the last line that names it: the header is
    dropped and every later line is parsed. *)
Theorem load_w2v_spec lines (d : dict) :
  load_w2v lines = Ok d ->
  exists ps, map_result parse_line (tl lines) = Ok ps
             /\ NoDup (map fst d)
             /\ forall k, dict_get d k = assoc_last ps k None.
Proof.
  destruct lines as [|header v]; simpl; [discriminate|].
  intros Hl. destruct (load_fold_ok v [] d Hl) as [ps [Hps ->]].
  exists ps. split; [exact Hps|]. split.
  - apply set_all_nodup. constructor.
  - intros k. apply set_all_get.
Qed.

(** C14: a data line that has no token, or one of whose values [float()]
    refuses, makes the loading fail. *)
Theorem load_w2v_malformed lines line :
  In line (tl lines) ->
  py_split line = []
  \/ (exists t e, In t (tl (py_split line)) /\ num_of_string t = Err e) ->
  exists e, load_w2v lines = Err e.
Proof.
  intros Hin Hbad.
  assert (Hline : exists e, parse_line line = Err e).
  { unfold parse_line. destruct (py_split line) as [|key toks] eqn:Es; [eauto|].
    destruct Hbad as [Hnil|[t [e [Ht He]]]]; [discriminate|]. simpl in Ht.
    assert (Hne : t <> EmptyString)
      by (apply (py_split_go_nonempty line []); fold (py_split line); rewrite Es; right; exact Ht).
    destruct (map_result_err num_of_string (filter (fun t => negb (String.eqb t EmptyString)) toks) t e)
      as [e' He']; auto.
    - apply filter_In. split; [exact Ht|]. apply negb_true_iff, String.eqb_neq, Hne.
    - rewrite He'. simpl. eauto. }
  destruct Hline as [e He]. destruct (load_w2v lines) as [d|e'] eqn:Hl; [|eauto].
  exfalso. destruct lines as [|header v]; [destruct Hin|].
  simpl in Hl. destruct (load_fold_ok v [] d Hl) as [ps [Hps _]].
  destruct (map_result_err parse_line v line e Hin He) as [e'' He''].
  congruence.
Qed.

End Properties.

(** ** An executable instance on rationals *)

Module QInstance.

Definition digit_val (c : ascii) : option nat :=
  let n := nat_of_ascii c in
  if ((48 <=? n) && (n <=? 57))%nat then Some (n - 48)%nat else None.

Fixpoint take_digits (s : string) : list nat * string :=
  match s with
  | String c s' =>
      match digit_val c with
      | Some d => let (ds, r) := take_digits s' in (d :: ds, r)
      | None => ([], s)
      end
  | EmptyString => ([], EmptyString)
  end.

Definition digits_Z (ds : list nat) : Z :=
  fold_left (fun acc d => (acc * 10 + Z.of_nat d)%Z) ds 0%Z.

Definition sign_of (s : string) : Z * string :=
  match s with
  | String "-"%char r => ((-1)%Z, r)
  | String "+"%char r => (1%Z, r)
  | _ => (1%Z, s)
  end.

(** [m * 10^e] as a rational. *)
Definition scale10 (m e : Z) : Q :=
  if (0 <=? e)%Z then inject_Z (m * 10 ^ e) else Qmake m (Z.to_pos (10 ^ (- e))).

(** Python's [float(s)] on [[sign] digits [. digits] [(e|E) [sign] digits]]
    with at least one mantissa digit; [inf], [nan], underscores and
    surrounding blanks, which Python also accepts, are refused here. *)
Definition q_of_string (s : string) : result Q :=
  let (sgn, s1) := sign_of s in
  let (ip, s2) := take_digits s1 in
  let (fp, s3) := match s2 with
                  | String "."%char r => take_digits r
                  | _ => ([], s2)
                  end in
  if (length ip + length fp =? 0)%nat then Err ValueError else
  let exp :=
    match s3 with
    | EmptyString => Some 0%Z
    | String c r =>
        if Ascii.eqb c "e"%char || Ascii.eqb c "E"%char then
          let (esg, r1) := sign_of r in
          let (eds, r2) := take_digits r1 in
          match eds, r2 with
          | _ :: _, EmptyString => Some (esg * digits_Z eds)%Z
          | _, _ => None
          end
        else None
    end in
  match exp with
  | Some e => Ok (scale10 (sgn * digits_Z (ip ++ fp)) (e - Z.of_nat (length fp)))
  | None => Err ValueError
  end.

(** The squared Euclidean norm: [np.argmin] of the norms and of their
    squares pick the same index, the square root being increasing. *)
Definition sum_sq (v : list Q) : Q := fold_right (fun x acc => x * x + acc) 0 v.

#[export] Instance Numeric_Q : Numeric Q := {
  num_zero := 0;
  num_of_string := q_of_string;
  num_eqb := Qeq_bool;
  num_sub := Qminus;
  num_norm := sum_sq;
  num_ltb := fun a b => negb (Qle_bool b a)
}.

Lemma qsq_nonneg (d : Q) : 0 <= d * d.
Proof. nra. Qed.

Lemma qsq_pos (d : Q) : ~ d == 0 -> 0 < d * d.
Proof. intros. nra. Qed.

Lemma sum_sq_nonneg v : 0 <= sum_sq v.
Proof. induction v as [|x v IH]; simpl; [lra|]. pose proof (qsq_nonneg x). lra. Qed.

Lemma sum_sq_vsub_self (v : list Q) : sum_sq (vsub v v) == 0.
Proof.
  induction v as [|x v IH]; simpl; [reflexivity|].
  unfold vsub in IH. rewrite IH. simpl. ring.
Qed.

Lemma sum_sq_vsub_pos (v w : list Q) :
  length v = length w -> vec_eqb w v = false -> 0 < sum_sq (vsub w v).
Proof.
  revert w; induction v as [|x v IH]; intros [|y w] Hl Heq; try discriminate.
  cbn [length] in Hl. injection Hl as Hl.
  pose proof (sum_sq_nonneg (vsub w v)) as Hn.
  change (0 < (y - x) * (y - x) + sum_sq (vsub w v)).
  change (Qeq_bool y x && vec_eqb w v = false) in Heq.
  destruct (Qeq_bool y x) eqn:Exy; simpl in Heq.
  - specialize (IH w Hl Heq). pose proof (qsq_nonneg (y - x)). lra.
  - assert (Hne : ~ y - x == 0).
    { intros E. assert (y == x) as E' by lra. apply Qeq_bool_iff in E'. congruence. }
    pose proof (qsq_pos _ Hne). lra.
Qed.

#[export] Instance NumericLaws_Q : NumericLaws Q.
Proof.
  constructor; simpl.
  - reflexivity.
  - intros a b Hab. apply negb_true_iff in Hab. apply negb_false_iff.
    apply Qle_bool_iff.
    assert (Hn : ~ b <= a) by (intros Hle; apply Qle_bool_iff in Hle; congruence).
    lra.
  - intros a b c Hab Hbc. apply negb_false_iff in Hab, Hbc. apply negb_false_iff.
    apply Qle_bool_iff in Hab, Hbc. apply Qle_bool_iff. lra.
  - intros v w Hl Heq. apply negb_true_iff.
    pose proof (sum_sq_vsub_self v) as H0. pose proof (sum_sq_vsub_pos v w Hl Heq) as H1.
    destruct (Qle_bool (sum_sq (vsub w v)) (sum_sq (vsub v v))) eqn:E; [|reflexivity].
    apply Qle_bool_iff in E. lra.
Qed.

(** ** Witnesses on a small [vec.vec] *)

(** A header, three vectors of two components, and a second line for the
    key "10" that overrides the first. *)
Definition ex_lines : list string :=
  ["3 2"; "10 1.0 0.0"; "11 0.0 1.5e1"; "12 -2.5 3"; "10 4 4"]%string.

Definition ex_table : @dict Q :=
  match load_w2v ex_lines with Ok d => d | Err _ => [] end.

Lemma ex_table_distinct : table_distinct ex_table.
Proof. apply rows_distinctb_sound. vm_compute. reflexivity. Qed.

Lemma ex_table_width : table_width ex_table 2.
Proof.
  intros kv Hin. vm_compute in Hin.
  destruct Hin as [<-|[<-|[<-|[]]]]; reflexivity.
Qed.

(** The vector stored for "11": [0.0] and [1.5e1]. *)
Definition ex_vec_11 : list Q :=
  match dict_get ex_table "11"%string with Some v => v | None => [] end.

Lemma reverser_roundtrip_witness : reverser ex_table ex_vec_11 = Ok "11"%string.
Proof.
  exact (reverser_roundtrip ex_table 1 "11" ex_vec_11 ex_table_distinct ex_table_width
           ltac:(vm_compute; reflexivity) ltac:(vm_compute; discriminate)).
Defined.

Lemma reverser_nearest_witness :
  exists j key v, reverser ex_table [1; 1] = Ok key /\ nth_error ex_table j = Some (key, v) /\
    (forall i kv, (i < j)%nat -> nth_error ex_table i = Some kv ->
                  num_ltb (row_dist [1; 1] (key, v)) (row_dist [1; 1] kv) = true) /\
    (forall i kv, nth_error ex_table i = Some kv ->
                  num_ltb (row_dist [1; 1] kv) (row_dist [1; 1] (key, v)) = false).
Proof.
  apply (@reverser_nearest Q Numeric_Q NumericLaws_Q ex_table [1; 1]);
    [vm_compute; discriminate | exact ex_table_width].
Defined.

Lemma reparse_convert_roundtrip_witness :
  reparse_ids ex_table (map (fun n => fst (convert ex_table n)) [12; 10; 11]%nat)
  = Ok [12%Z; 10%Z; 11%Z].
Proof.
  apply (reparse_convert_roundtrip ex_table [12; 10; 11]%nat 2 ex_table_distinct ex_table_width).
  intros n Hn. simpl in Hn.
  destruct Hn as [<-|[<-|[<-|[]]]]; eexists; split; [vm_compute; reflexivity|discriminate
                                                  |vm_compute; reflexivity|discriminate
                                                  |vm_compute; reflexivity|discriminate].
Defined.

(** Token 99 is absent: eight zeros and one log. *)
Lemma convert_spec_witness :
  convert ex_table 99 = (repeat 0%Q 8, [TokenNotFound 99]).
Proof.
  rewrite (@convert_spec Q Numeric_Q NumericLaws_Q ex_table 99).
  vm_compute. reflexivity.
Defined.

Lemma load_w2v_spec_witness :
  NoDup (map fst ex_table) /\ dict_get ex_table "10"%string = Some [4; 4]%Q.
Proof.
  destruct (@load_w2v_spec Q Numeric_Q ex_lines ex_table
              ltac:(vm_compute; reflexivity))
    as [ps [Hps [Hnd Hget]]].
  split; [exact Hnd|]. rewrite Hget.
  vm_compute in Hps. inversion Hps. vm_compute. reflexivity.
Defined.

Lemma load_w2v_malformed_witness :
  exists e, @load_w2v Q _ ["3 2"; "10 1.0 x"]%string = Err e.
Proof.
  apply (@load_w2v_malformed Q Numeric_Q ["3 2"; "10 1.0 x"]%string "10 1.0 x"%string).
  - simpl. left. reflexivity.
  - right. exists "x"%string, ValueError. split; [simpl; auto|vm_compute; reflexivity].
Defined.

End QInstance.

End VectorDictionary.
