(* ===== verification/Tensor.v ===== *)
(** * TensorFlow tensors and the operations [TransformerLayer.call] uses

    A tensor is a shape and its entries in row-major order, over the reals
    [R] (float32 rounding is not modelled).  Each operation checks shapes
    the way TensorFlow does and raises ([ShapeError], or [ValueError] for an
    impossible [reshape]) otherwise; entries are computed by index.  This
    file models the library the layer calls, not code of the repository. *)

From Stdlib Require Import List Arith Lia ZArith Reals Lra.
From S2P Require Import Prelude.
Import ListNotations.
Open Scope fjlm_scope.
Open Scope bool_scope.
Open Scope nat_scope.

Module Tensor.

Record tensor : Type := mk_tensor {
  shape : list nat;
  data : list R
}.

(** The number of entries of a shape. *)
Definition size (s : list nat) : nat := fold_right Nat.mul 1 s.

Definition wf (t : tensor) : Prop := length (data t) = size (shape t).

(** Row-major multi-index of a flat position, and back. *)
Fixpoint unflatten (s : list nat) (i : nat) : list nat :=
  match s with
  | [] => []
  | _ :: s' => (i / size s') :: unflatten s' (i mod size s')
  end.

Fixpoint flatten (s : list nat) (idx : list nat) : nat :=
  match s, idx with
  | _ :: s', j :: idx' => j * size s' + flatten s' idx'
  | _, _ => 0
  end.

Definition get (t : tensor) (idx : list nat) : R := nth (flatten (shape t) idx) (data t) 0%R.

(** The tensor of shape [s] whose entry at [idx] is [f idx]. *)
Definition tabulate (s : list nat) (f : list nat -> R) : tensor :=
  mk_tensor s (map (fun i => f (unflatten s i)) (seq 0 (size s))).

(** Elementwise [tf.nn.sigmoid], [tf.nn.tanh], [tf.nn.leaky_relu], ... *)
Definition tmap (f : R -> R) (t : tensor) : tensor := mk_tensor (shape t) (map f (data t)).

(** [tf.ones(s)]. *)
Definition ones (s : list nat) : tensor := mk_tensor s (repeat 1%R (size s)).

(** [tf.reshape(t, dims)]: at most one [-1], inferred from the size; no
    other negative dimension; the sizes must agree. *)
Definition reshape (t : tensor) (dims : list Z) : result tensor :=
  let total := length (data t) in
  let known := fold_right (fun d acc => if (d =? -1)%Z then acc else Z.to_nat d * acc) 1 dims in
  let holes := length (filter (fun d => (d =? -1)%Z) dims) in
  if existsb (fun d => (d <? -1)%Z) dims then Err ValueError
  else match holes with
       | 0 => if known =? total then Ok (mk_tensor (map Z.to_nat dims) (data t))
              else Err ValueError
       | 1 => if (known =? 0) || negb (total mod known =? 0) then Err ValueError
              else Ok (mk_tensor (map (fun d => if (d =? -1)%Z then total / known else Z.to_nat d) dims)
                                 (data t))
       | _ => Err ValueError
       end.

(** The position of [k] in [perm]. *)
Fixpoint index_of (k : nat) (perm : list nat) : nat :=
  match perm with
  | [] => 0
  | p :: perm' => if p =? k then 0 else S (index_of k perm')
  end.

Definition is_perm (perm : list nat) (r : nat) : bool :=
  (length perm =? r) && forallb (fun k => existsb (Nat.eqb k) perm) (seq 0 r).

(** [tf.transpose(t, perm)]: output axis [j] is input axis [perm[j]]. *)
Definition transpose (t : tensor) (perm : list nat) : result tensor :=
  let s := shape t in
  if is_perm perm (length s) then
    Ok (tabulate (map (fun j => nth j s 0) perm)
                 (fun oi => get t (map (fun k => nth (index_of k perm) oi 0) (seq 0 (length s)))))
  else Err ShapeError.

(** numpy broadcasting of two shapes, aligned on the right. *)
Fixpoint bcast_rev (a b : list nat) : option (list nat) :=
  match a, b with
  | [], _ => Some b
  | _, [] => Some a
  | x :: a', y :: b' =>
      match bcast_rev a' b' with
      | None => None
      | Some r => if x =? y then Some (x :: r) else if x =? 1 then Some (y :: r)
                  else if y =? 1 then Some (x :: r) else None
      end
  end.

Definition bcast_shape (a b : list nat) : option (list nat) :=
  option_map (@rev nat) (bcast_rev (rev a) (rev b)).

(** The entry of an operand of shape [s] read by the output index [oi]. *)
Definition bcast_index (s oi : list nat) : list nat :=
  map (fun p => if fst p =? 1 then 0 else snd p) (combine s (skipn (length oi - length s) oi)).

(** A broadcasting binary operation: [a + b], [a * b], [a / b], [a - b]. *)
Definition bcast (f : R -> R -> R) (a b : tensor) : result tensor :=
  match bcast_shape (shape a) (shape b) with
  | Some s => Ok (tabulate s (fun oi => f (get a (bcast_index (shape a) oi))
                                          (get b (bcast_index (shape b) oi))))
  | None => Err ShapeError
  end.

Definition scalar (x : R) : tensor := mk_tensor [] [x].

Definition sum_range (n : nat) (f : nat -> R) : R :=
  fold_right Rplus 0%R (map f (seq 0 n)).

(** [tf.matmul(a, b, transpose_b=tb)] on tensors of the same rank (at
    least 2) with the same batch dimensions. *)
Definition matmul (a b : tensor) (tb : bool) : result tensor :=
  let ra := length (shape a) in
  let batch := firstn (ra - 2) (shape a) in
  let n := nth (ra - 2) (shape a) 0 in
  let k := nth (ra - 1) (shape a) 0 in
  let kb := nth (ra - (if tb then 1 else 2)) (shape b) 0 in
  let m := nth (ra - (if tb then 2 else 1)) (shape b) 0 in
  if (2 <=? ra) && (length (shape b) =? ra)
     && (if list_eq_dec Nat.eq_dec (firstn (ra - 2) (shape b)) batch then true else false)
     && (k =? kb)
  then Ok (tabulate (batch ++ [n; m]) (fun oi =>
         let bi := firstn (ra - 2) oi in
         let i := nth (ra - 2) oi 0 in
         let j := nth (ra - 1) oi 0 in
         sum_range k (fun l => Rmult (get a (bi ++ [i; l]))
                                     (get b (bi ++ (if tb then [j; l] else [l; j]))))))
  else Err ShapeError.

(** [tf.squeeze(t)]: the dimensions of size 1 removed. *)
Definition squeeze (t : tensor) : tensor :=
  mk_tensor (filter (fun d => negb (d =? 1)) (shape t)) (data t).

(** [tf.reduce_mean(t, axis=1)] on a tensor of rank 3. *)
Definition reduce_mean1 (t : tensor) : result tensor :=
  match shape t with
  | [b; p; d] =>
      Ok (tabulate [b; d] (fun oi =>
            Rdiv (sum_range p (fun q => get t [nth 0 oi 0; q; nth 1 oi 0])) (INR p)))
  | _ => Err ShapeError
  end.

(** [tf.nn.dropout(t, rate)]: entry [i] is kept (and scaled by
    [1 / (1 - rate)]) when [keep i]; the random draw is the parameter. *)
Definition dropout (keep : nat -> bool) (rate : R) (t : tensor) : tensor :=
  mk_tensor (shape t)
    (map (fun p => if keep (fst p) then Rdiv (snd p) (Rminus 1 rate) else 0%R)
         (combine (seq 0 (length (data t))) (data t))).

(** ** Lemmas *)

Lemma tabulate_wf s f : wf (tabulate s f).
Proof. unfold wf, tabulate. simpl. now rewrite length_map, length_seq. Qed.

Lemma size_cons d s : size (d :: s) = d * size s.
Proof. reflexivity. Qed.

Lemma unflatten_length s i : length (unflatten s i) = length s.
Proof. revert i; induction s; simpl; auto. Qed.

Lemma flatten_unflatten s i : i < size s -> flatten s (unflatten s i) = i.
Proof.
  revert i; induction s as [|d s IH]; intros i Hi; simpl in *; [lia|].
  assert (Hs : size s <> 0) by (intros E; rewrite E in Hi; lia).
  rewrite IH by (apply Nat.mod_upper_bound, Hs).
  rewrite Nat.mul_comm. symmetry. apply Nat.div_mod, Hs.
Qed.

(** A well-formed tensor is the tabulation of its own entries. *)
Lemma tabulate_get t : wf t -> tabulate (shape t) (get t) = t.
Proof.
  destruct t as [s d]. unfold wf, tabulate, get. simpl. intros Hl. f_equal.
  apply (nth_ext _ _ 0%R 0%R); rewrite length_map, length_seq; [auto|].
  intros i Hi. rewrite nth_map_seq by lia. now rewrite flatten_unflatten by lia.
Qed.

Lemma tabulate_ext s f g :
  (forall i, i < size s -> f (unflatten s i) = g (unflatten s i)) -> tabulate s f = tabulate s g.
Proof.
  intros H. unfold tabulate. f_equal. apply map_ext_in. intros i Hi.
  apply in_seq in Hi. apply H. lia.
Qed.

Lemma get_tabulate s f i : i < size s -> get (tabulate s f) (unflatten s i) = f (unflatten s i).
Proof.
  intros Hi. unfold get, tabulate. simpl. rewrite flatten_unflatten by exact Hi.
  now rewrite nth_map_seq.
Qed.

(** The coordinates of a valid position are below the dimensions. *)
Lemma unflatten_bounds s i :
  i < size s -> Forall2 (fun j d => j < d) (unflatten s i) s.
Proof.
  revert i; induction s as [|d s IH]; intros i Hi; simpl in *; constructor.
  - assert (size s <> 0) by (intros E; rewrite E in Hi; lia).
    apply Nat.Div0.div_lt_upper_bound; lia.
  - apply IH. apply Nat.mod_upper_bound. intros E. rewrite E in Hi. lia.
Qed.

Lemma bcast_index_full s oi : Forall2 (fun j d => j < d) oi s -> bcast_index s oi = oi.
Proof.
  intros H. unfold bcast_index. rewrite (Forall2_length H), Nat.sub_diag. simpl.
  induction H as [|j d oi s Hjd H IH]; simpl; [reflexivity|].
  rewrite IH. destruct (Nat.eqb_spec d 1); [f_equal; lia|reflexivity].
Qed.

Lemma bcast_rev_same s : bcast_rev s s = Some s.
Proof. induction s as [|x s IH]; simpl; [reflexivity|]. now rewrite IH, Nat.eqb_refl. Qed.

Lemma bcast_shape_same s : bcast_shape s s = Some s.
Proof. unfold bcast_shape. rewrite bcast_rev_same. simpl. now rewrite rev_involutive. Qed.

Lemma bcast_shape_scalar_l s : bcast_shape [] s = Some s.
Proof. unfold bcast_shape. simpl. now rewrite rev_involutive. Qed.

Lemma bcast_shape_scalar_r s : bcast_shape s [] = Some s.
Proof.
  unfold bcast_shape. simpl.
  assert (H : bcast_rev (rev s) [] = Some (rev s)) by (destruct (rev s); reflexivity).
  rewrite H. simpl. now rewrite rev_involutive.
Qed.

Lemma bcast_shape_bias n m : bcast_shape [n; m] [m] = Some [n; m].
Proof. unfold bcast_shape. simpl. now rewrite Nat.eqb_refl. Qed.

(** Broadcasting two tensors of one shape is the entrywise operation. *)
Lemma bcast_same f a b :
  shape a = shape b ->
  bcast f a b = Ok (tabulate (shape a) (fun oi => f (get a oi) (get b oi))).
Proof.
  intros E. unfold bcast. rewrite <- E, bcast_shape_same. f_equal.
  apply tabulate_ext. intros i Hi. now rewrite !bcast_index_full by (apply unflatten_bounds, Hi).
Qed.

(** Broadcasting a scalar (shape [[]]) against a tensor. *)
Lemma bcast_scalar_l f a b :
  shape a = [] ->
  bcast f a b = Ok (tabulate (shape b) (fun oi => f (get a []) (get b oi))).
Proof.
  intros E. unfold bcast. rewrite E, bcast_shape_scalar_l. f_equal.
  apply tabulate_ext. intros i Hi. rewrite (bcast_index_full (shape b)) by (apply unflatten_bounds, Hi).
  reflexivity.
Qed.

Lemma bcast_scalar_r f a b :
  shape b = [] ->
  bcast f a b = Ok (tabulate (shape a) (fun oi => f (get a oi) (get b []))).
Proof.
  intros E. unfold bcast. rewrite E, bcast_shape_scalar_r. f_equal.
  apply tabulate_ext. intros i Hi. rewrite (bcast_index_full (shape a)) by (apply unflatten_bounds, Hi).
  reflexivity.
Qed.

Lemma bcast_bias_shape f a b n m :
  shape a = [n; m] -> shape b = [m] ->
  exists g, bcast f a b = Ok (tabulate [n; m] g).
Proof. intros Ea Eb. unfold bcast. rewrite Ea, Eb, bcast_shape_bias. eauto. Qed.

(** [a + g * b = a] when the scalar [g] is [0] and [a], [b] have one shape. *)
Lemma bcast_add_zero_gate a g b :
  wf a -> shape a = shape b -> shape g = [] -> get g [] = 0%R ->
  (let* gb := bcast Rmult g b in bcast Rplus a gb) = Ok a.
Proof.
  intros Hwf E Eg Hg. rewrite bcast_scalar_l by exact Eg. simpl.
  rewrite bcast_same by (simpl; exact E). rewrite <- (tabulate_get a Hwf) at 2.
  f_equal. apply tabulate_ext. intros i Hi.
  rewrite E in Hi |- *. rewrite get_tabulate by exact Hi. rewrite Hg. lra.
Qed.

Lemma get_ones s i : i < size s -> get (ones s) (unflatten s i) = 1%R.
Proof.
  intros Hi. unfold get, ones. simpl. rewrite flatten_unflatten by exact Hi.
  apply repeat_spec with (n := size s), nth_In. now rewrite repeat_length.
Qed.

Lemma get_tmap f t i :
  wf t -> i < size (shape t) -> get (tmap f t) (unflatten (shape t) i) = f (get t (unflatten (shape t) i)).
Proof.
  intros Hw Hi. unfold get, tmap, wf in *. simpl. rewrite flatten_unflatten by exact Hi.
  rewrite (nth_indep _ _ (f 0%R)) by (rewrite length_map; lia). apply map_nth.
Qed.

(** Every entry of a tabulation is a value of its function. *)
Lemma tabulate_Forall (P : R -> Prop) s g :
  (forall i, i < size s -> P (g (unflatten s i))) -> Forall P (data (tabulate s g)).
Proof.
  intros H. simpl. apply Forall_map, Forall_forall. intros i Hi. apply in_seq in Hi. apply H. lia.
Qed.

(** [reshape] keeps the entries in their order. *)
Lemma reshape_data t dims t' : reshape t dims = Ok t' -> data t' = data t.
Proof.
  unfold reshape. destruct (existsb _ dims); [discriminate|].
  destruct (length (filter _ dims)) as [|[|]];
    repeat match goal with |- context [if ?b then _ else _] => destruct b end;
    intros E; inversion E; reflexivity.
Qed.

(** [r] succeeds with a well-formed tensor of shape [s]. *)
Definition ok_shape (r : result tensor) (s : list nat) : Prop :=
  exists t, r = Ok t /\ shape t = s /\ wf t.

Lemma ok_tabulate s g : ok_shape (Ok (tabulate s g)) s.
Proof. exists (tabulate s g). split; [reflexivity|split; [reflexivity|apply tabulate_wf]]. Qed.

Lemma ok_bind r s k s' :
  ok_shape r s -> (forall t, shape t = s -> wf t -> ok_shape (k t) s') ->
  ok_shape (let* t := r in k t) s'.
Proof. intros (t & -> & Hs & Hw) Hk. exact (Hk t Hs Hw). Qed.

Lemma ok_ret t s : shape t = s -> wf t -> ok_shape (Ok t) s.
Proof. intros Hs Hw. now exists t. Qed.

Lemma Z_of_nat_not_hole (a : nat) : (Z.of_nat a =? -1)%Z = false /\ (Z.of_nat a <? -1)%Z = false.
Proof. split; [apply Z.eqb_neq | apply Z.ltb_ge]; lia. Qed.

Ltac reshape_simpl :=
  unfold reshape; cbn [existsb filter fold_right length map];
  repeat rewrite (proj1 (Z_of_nat_not_hole _)), ?(proj2 (Z_of_nat_not_hole _));
  change ((-1 =? -1)%Z) with true; change ((-1 <? -1)%Z) with false;
  cbn [existsb filter fold_right length map orb negb]; rewrite ?Nat2Z.id, ?Nat.mul_1_r.

(** A [reshape] with one [-1] whose known dimensions multiply to [k > 0]
    and divide the size [k * m]. *)
Lemma reshape_hole_ok t dims k m s :
  wf t -> size (shape t) = m * k -> k <> 0 ->
  reshape t dims = (if (k =? 0) || negb ((m * k) mod k =? 0) then Err ValueError
                    else Ok (mk_tensor s (data t))) ->
  size s = m * k -> ok_shape (reshape t dims) s.
Proof.
  intros Hw Hs Hk -> Hs'. rewrite Nat.Div0.mod_mul.
  destruct (Nat.eqb_spec k 0); [lia|]. apply ok_ret; [reflexivity|]. unfold wf in *. simpl. lia.
Qed.

(** [tf.reshape(t, [a, -1])], [[a, b, -1]], [[a, -1, c]], [[a, -1, c, d]]. *)
Lemma reshape_2h_ok t a m :
  wf t -> size (shape t) = a * m -> 0 < a -> ok_shape (reshape t [Z.of_nat a; (-1)%Z]) [a; m].
Proof.
  intros Hw Hs Ha. apply (reshape_hole_ok t _ a m); [exact Hw|lia|lia| |simpl; lia].
  reshape_simpl. replace (length (data t)) with (m * a) by (unfold wf in Hw; lia).
  rewrite Nat.div_mul by lia. reflexivity.
Qed.

Lemma reshape_3h_ok t a b m :
  wf t -> size (shape t) = a * b * m -> 0 < a * b ->
  ok_shape (reshape t [Z.of_nat a; Z.of_nat b; (-1)%Z]) [a; b; m].
Proof.
  intros Hw Hs Hab. apply (reshape_hole_ok t _ (a * b) m); [exact Hw|lia|lia| |simpl; lia].
  reshape_simpl. replace (length (data t)) with (m * (a * b)) by (unfold wf in Hw; lia).
  rewrite Nat.div_mul by lia. reflexivity.
Qed.

Lemma reshape_3m_ok t a c m :
  wf t -> size (shape t) = a * m * c -> 0 < a * c ->
  ok_shape (reshape t [Z.of_nat a; (-1)%Z; Z.of_nat c]) [a; m; c].
Proof.
  intros Hw Hs Hac. apply (reshape_hole_ok t _ (a * c) m); [exact Hw|lia|lia| |simpl; lia].
  reshape_simpl. replace (length (data t)) with (m * (a * c)) by (unfold wf in Hw; lia).
  rewrite Nat.div_mul by lia. reflexivity.
Qed.

Lemma reshape_4m_ok t a c d m :
  wf t -> size (shape t) = a * m * c * d -> 0 < a * (c * d) ->
  ok_shape (reshape t [Z.of_nat a; (-1)%Z; Z.of_nat c; Z.of_nat d]) [a; m; c; d].
Proof.
  intros Hw Hs Hacd. apply (reshape_hole_ok t _ (a * (c * d)) m); [exact Hw|lia|lia| |simpl; lia].
  reshape_simpl. replace (length (data t)) with (m * (a * (c * d))) by (unfold wf in Hw; lia).
  rewrite Nat.div_mul by lia. reflexivity.
Qed.

(** What a successful [tf.reshape(t, [a, -1])] returns. *)
Lemma reshape_2h_inv t a t' :
  reshape t [Z.of_nat a; (-1)%Z] = Ok t' ->
  shape t' = [a; length (data t) / a] /\ a <> 0 /\ a * (length (data t) / a) = length (data t).
Proof.
  reshape_simpl. destruct (Nat.eqb_spec a 0); [discriminate|].
  destruct (Nat.eqb_spec (length (data t) mod a) 0) as [Hm|]; [|discriminate].
  simpl. intros E. injection E as <-. simpl. split; [reflexivity|split; [exact n|]].
  pose proof (Nat.div_mod (length (data t)) a n). lia.
Qed.

Lemma matmul_2_mismatch a b n k k' m :
  shape a = [n; k] -> shape b = [k'; m] -> k <> k' -> matmul a b false = Err ShapeError.
Proof.
  intros Ea Eb Hk. unfold matmul. rewrite Ea, Eb. cbn.
  destruct (Nat.eqb_spec k k'); [contradiction|]. reflexivity.
Qed.

(** [tf.reshape(t, shape(t))] is the identity. *)
Lemma reshape_3_id t a b c :
  wf t -> shape t = [a; b; c] -> reshape t [Z.of_nat a; Z.of_nat b; Z.of_nat c] = Ok t.
Proof.
  intros Hw Hs. reshape_simpl. unfold wf in Hw. rewrite Hs in Hw. simpl in Hw.
  rewrite Nat.mul_1_r in Hw. rewrite Hw, Nat.eqb_refl. destruct t; simpl in *; now subst.
Qed.

Lemma matmul_2_ok a b n k m :
  shape a = [n; k] -> shape b = [k; m] -> ok_shape (matmul a b false) [n; m].
Proof.
  intros Ea Eb. unfold matmul. rewrite Ea, Eb. cbn. rewrite Nat.eqb_refl. apply ok_tabulate.
Qed.

Lemma matmul_4_ok a b x y n k m (tb : bool) :
  shape a = [x; y; n; k] -> shape b = (if tb then [x; y; m; k] else [x; y; k; m]) ->
  ok_shape (matmul a b tb) [x; y; n; m].
Proof.
  intros Ea Eb. unfold matmul. rewrite Ea, Eb.
  destruct tb; cbn -[list_eq_dec]; rewrite Nat.eqb_refl;
    (destruct (list_eq_dec Nat.eq_dec [x; y] [x; y]) as [_|C]; [apply ok_tabulate|now contradiction C]).
Qed.

Lemma transpose_0213_ok t a b c d :
  shape t = [a; b; c; d] -> ok_shape (transpose t [0; 2; 1; 3]) [a; c; b; d].
Proof. intros E. unfold transpose. rewrite E. apply ok_tabulate. Qed.

Lemma bcast_same_ok f a b : shape a = shape b -> ok_shape (bcast f a b) (shape a).
Proof. intros E. rewrite bcast_same by exact E. apply ok_tabulate. Qed.

Lemma bcast_bias_ok f a b n m :
  shape a = [n; m] -> shape b = [m] -> ok_shape (bcast f a b) [n; m].
Proof. intros Ea Eb. destruct (bcast_bias_shape f a b n m Ea Eb) as [g ->]. apply ok_tabulate. Qed.

Lemma bcast_scalar_l_ok f a b : shape a = [] -> ok_shape (bcast f a b) (shape b).
Proof. intros E. rewrite bcast_scalar_l by exact E. apply ok_tabulate. Qed.

Lemma bcast_scalar_r_ok f a b : shape b = [] -> ok_shape (bcast f a b) (shape a).
Proof. intros E. rewrite bcast_scalar_r by exact E. apply ok_tabulate. Qed.

Lemma tmap_wf f t : wf t -> wf (tmap f t).
Proof. unfold wf, tmap. simpl. now rewrite length_map. Qed.

Lemma dropout_wf keep rate t : wf t -> wf (dropout keep rate t).
Proof.
  unfold wf, dropout. simpl. intros H. rewrite length_map, length_combine, length_seq. lia.
Qed.

Lemma reduce_mean1_ok t b p d : shape t = [b; p; d] -> ok_shape (reduce_mean1 t) [b; d].
Proof. intros E. unfold reduce_mean1. rewrite E. apply ok_tabulate. Qed.

End Tensor.
