(* ===== verification/Attention.v ===== *)
(** * The attention block [TransformerLayer] (src/train.py, lines 83-184)

    [init] is the constructor's check, [build] creates the weights (the two
    gates [random_id_att] and [random_id_ff] are zeros, the others come from
    the random initializer, a parameter), and [call] is the forward pass,
    composed of [input_projection], [attention_branch], [gate_add] and
    [feedforward_branch] exactly as the lines of [call] compose them.  The
    dropout draw is the parameter [keep]: [call] always applies dropout. *)

From Stdlib Require Import String List Arith Lia ZArith Reals Lra Psatz.
From S2P Require Import Prelude Tensor.
Import ListNotations.
Import Tensor.
Open Scope fjlm_scope.
Open Scope bool_scope.
Open Scope nat_scope.

Module TransformerLayer.

(** The attributes set by [__init__]; [depth] is an integer once the
    constructor has returned. *)
Record layer : Type := mk_layer {
  num_heads : nat;
  pad_size : option nat;
  depth : nat;
  pool : bool
}.

(** [__init__]: [None % num_heads] raises [TypeError], [depth % 0]
    [ZeroDivisionError], a remainder [ValueError]. *)
Definition init (num_heads : nat) (pad_size : option nat) (depth : option nat) (pool : bool)
  : result layer :=
  match depth with
  | None => Err TypeError
  | Some d =>
      if num_heads =? 0 then Err ZeroDivisionError
      else if negb (d mod num_heads =? 0) then Err ValueError
      else Ok (mk_layer num_heads pad_size d pool)
  end.

Record weights : Type := mk_weights {
  random_id_att : tensor;
  random_id_ff : tensor;
  input_dense_weight : tensor;
  input_dense_bias : tensor;
  query_dense_weight : tensor;
  query_dense_bias : tensor;
  key_dense_weight : tensor;
  key_dense_bias : tensor;
  value_dense_weight : tensor;
  value_dense_bias : tensor;
  dense_weight : tensor;
  dense_bias : tensor;
  ff_dense1_weight : tensor;
  ff_dense1_bias : tensor;
  ff_dense2_weight : tensor;
  ff_dense2_bias : tensor
}.

(** [tf.initializers.Zeros()] of shape [(1,)]. *)
Definition zeros1 : tensor := mk_tensor [1] [0%R].

Section Build.

(** The [glorot_normal] initializer: a weight's name and shape to a tensor. *)
Variable glorot : string -> list nat -> tensor.

(** [build(input_shape)]: [input_shape[-1]] raises [IndexError] on an
    empty shape. *)
Definition build (L : layer) (input_shape : list nat) : result weights :=
  match rev input_shape with
  | [] => Err IndexError
  | f :: _ =>
      let d := depth L in
      Ok (mk_weights zeros1 zeros1
            (glorot "input_dense_weight" [f; d]) (glorot "input_dense_bias" [d])
            (glorot "query_dense_weight" [d; d]) (glorot "query_dense_bias" [d])
            (glorot "key_dense_weight" [d; d]) (glorot "key_dense_bias" [d])
            (glorot "value_dense_weight" [d; d]) (glorot "value_dense_bias" [d])
            (glorot "dense_weight" [d; d]) (glorot "dense_bias" [d])
            (glorot "ff_dense1_weight" [d; d]) (glorot "ff_dense1_bias" [d])
            (glorot "ff_dense2_weight" [d; d]) (glorot "ff_dense2_bias" [d]))
  end.

End Build.

(** The shapes [build] gives the weights, for input features [f]. *)
Record weights_fit (w : weights) (f d : nat) : Prop := {
  fit_att : shape (random_id_att w) = [1];
  fit_ff : shape (random_id_ff w) = [1];
  fit_input_w : shape (input_dense_weight w) = [f; d];
  fit_input_b : shape (input_dense_bias w) = [d];
  fit_query_w : shape (query_dense_weight w) = [d; d];
  fit_query_b : shape (query_dense_bias w) = [d];
  fit_key_w : shape (key_dense_weight w) = [d; d];
  fit_key_b : shape (key_dense_bias w) = [d];
  fit_value_w : shape (value_dense_weight w) = [d; d];
  fit_value_b : shape (value_dense_bias w) = [d];
  fit_dense_w : shape (dense_weight w) = [d; d];
  fit_dense_b : shape (dense_bias w) = [d];
  fit_ff1_w : shape (ff_dense1_weight w) = [d; d];
  fit_ff1_b : shape (ff_dense1_bias w) = [d];
  fit_ff2_w : shape (ff_dense2_weight w) = [d; d];
  fit_ff2_b : shape (ff_dense2_bias w) = [d]
}.

(** [tf.nn.sigmoid] and [tf.nn.leaky_relu] (default [alpha = 0.2]). *)
Definition sigmoid (x : R) : R := Rinv (Rplus 1 (exp (Ropp x))).

Definition leaky_relu (x : R) : R := Rmax (Rmult (Rdiv 2 10) x) x.

(** [tf.matmul(x, W) + b]. *)
Definition dense (x W b : tensor) : result tensor :=
  let* m := matmul x W false in bcast Rplus m b.

(** [tf.transpose(tf.reshape(t, [batch_size, -1, num_heads, depth // num_heads]), [0, 2, 1, 3])]. *)
Definition split_heads (L : layer) (bs : nat) (t : tensor) : result tensor :=
  let* r := reshape t [Z.of_nat bs; (-1)%Z; Z.of_nat (num_heads L);
                       Z.of_nat (depth L / num_heads L)] in
  transpose r [0; 2; 1; 3].

(** Lines 124-126: [flat_scaled_input] and [scaled_input]. *)
Definition input_projection (w : weights) (bs p : nat) (x : tensor) : result (tensor * tensor) :=
  let* flat_input := reshape x [Z.of_nat (p * bs); (-1)%Z] in
  let* flat_scaled_input := dense flat_input (input_dense_weight w) (input_dense_bias w) in
  let* scaled_input := reshape flat_scaled_input [Z.of_nat bs; Z.of_nat p; (-1)%Z] in
  Ok (flat_scaled_input, scaled_input).

(** Lines 148-150: [logits += (1.0 - to_broadcast_mask) * -1e9]. *)
Definition mask_logits (bs h p : nat) (logits : tensor) : result tensor :=
  let to_broadcast_mask := ones [bs; h; p; p] in
  let* m1 := bcast Rminus (scalar 1%R) to_broadcast_mask in
  let* m2 := bcast Rmult m1 (scalar (Ropp (IZR 1000000000))) in
  bcast Rplus logits m2.

(** Line 152: [tf.nn.sigmoid(logits) * tf.nn.tanh(logits)]. *)
Definition attention_weights (logits : tensor) : result tensor :=
  bcast Rmult (tmap sigmoid logits) (tmap tanh logits).

(** Lines 129-159: from [flat_scaled_input] to [attention]. *)
Definition attention_branch (L : layer) (w : weights) (bs p : nat) (fsi : tensor)
  : result tensor :=
  let* flat_query := dense fsi (query_dense_weight w) (query_dense_bias w) in
  let* flat_key := dense fsi (key_dense_weight w) (key_dense_bias w) in
  let* flat_value := dense fsi (value_dense_weight w) (value_dense_bias w) in
  let* query := reshape flat_query [Z.of_nat bs; Z.of_nat p; (-1)%Z] in
  let* key := reshape flat_key [Z.of_nat bs; Z.of_nat p; (-1)%Z] in
  let* value := reshape flat_value [Z.of_nat bs; Z.of_nat p; (-1)%Z] in
  let* query_t := split_heads L bs query in
  let* key_t := split_heads L bs key in
  let* value_t := split_heads L bs value in
  let* matmul_qk := matmul query_t key_t true in
  let* logits := bcast Rdiv matmul_qk (scalar (sqrt (INR (depth L)))) in
  let* logits := mask_logits bs (num_heads L) p logits in
  let* aw := attention_weights logits in
  let* scaled_attention := matmul aw value_t false in
  let* scaled_attention_t := transpose scaled_attention [0; 2; 1; 3] in
  let* concat_attention := reshape scaled_attention_t
                             [Z.of_nat bs; (-1)%Z; Z.of_nat (depth L)] in
  let* flatten_concat_attention := reshape concat_attention [Z.of_nat (bs * p); (-1)%Z] in
  let* flatten_attention := dense flatten_concat_attention (dense_weight w) (dense_bias w) in
  reshape flatten_attention [Z.of_nat bs; Z.of_nat p; (-1)%Z].

(** [a + tf.squeeze(g) * b] (lines 162 and 171). *)
Definition gate_add (a g b : tensor) : result tensor :=
  let* gb := bcast Rmult (squeeze g) b in bcast Rplus a gb.

(** Lines 163-169: from [normalized_latent] to [dff2]; dropout with rate
    0.1 is applied on every call. *)
Definition feedforward_branch (w : weights) (keep : nat -> bool) (bs p : nat)
  (normalized_latent : tensor) : result tensor :=
  let* flatten_normalized_latent := reshape normalized_latent [Z.of_nat (bs * p); (-1)%Z] in
  let* flat_ff1 := dense flatten_normalized_latent (ff_dense1_weight w) (ff_dense1_bias w) in
  let flat_rff1 := tmap leaky_relu flat_ff1 in
  let* flat_ff2 := dense flat_rff1 (ff_dense2_weight w) (ff_dense2_bias w) in
  let flat_dff2 := dropout keep (Rdiv 1 10) flat_ff2 in
  reshape flat_dff2 [Z.of_nat bs; Z.of_nat p; (-1)%Z].

(** [call(inputs)]: [batch_size = tf.shape(inputs)[0]]; a [pad_size] of
    [None] makes [None * batch_size] raise [TypeError]. *)
Definition call (L : layer) (w : weights) (keep : nat -> bool) (x : tensor) : result tensor :=
  match shape x with
  | [] => Err ShapeError
  | bs :: _ =>
      match pad_size L with
      | None => Err TypeError
      | Some p =>
          let* '(flat_scaled_input, scaled_input) := input_projection w bs p x in
          let* attention := attention_branch L w bs p flat_scaled_input in
          let* normalized_latent := gate_add scaled_input (random_id_att w) attention in
          let* dff2 := feedforward_branch w keep bs p normalized_latent in
          let* output := gate_add normalized_latent (random_id_ff w) dff2 in
          let* output := reshape output [Z.of_nat bs; Z.of_nat p; Z.of_nat (depth L)] in
          if pool L then reduce_mean1 output else Ok output
      end
  end.

(** [compute_output_shape(input_shape)]. *)
Definition compute_output_shape (L : layer) (input_shape : list nat) : list nat :=
  if pool L then [nth 0 input_shape 0; depth L]
  else [nth 0 input_shape 0; nth 1 input_shape 0; depth L].

(** The entries [get_config] adds to the base layer's config (its name,
    [trainable] and [dtype], which go back to [Layer.__init__] through
    [**kwargs] and are not modelled). *)
Record config : Type := mk_config {
  config_pool : bool;
  config_pad_size : option nat;
  config_num_heads : nat;
  config_depth : option nat
}.

(** [get_config()]. *)
Definition get_config (L : layer) : config :=
  mk_config (pool L) (pad_size L) (num_heads L) (Some (depth L)).

(** Keras's [Layer.from_config(config)]: the constructor called with the
    saved entries as keyword arguments, as [tf.keras.models.load_model]
    does for the layers of a saved model. *)
Definition from_config (cf : config) : result layer :=
  init (config_num_heads cf) (config_pad_size cf) (config_depth cf) (config_pool cf).

(** ** Shapes through the forward pass *)

Create HintDb fjlm_shape.
#[export] Hint Resolve fit_att fit_ff fit_input_w fit_input_b fit_query_w fit_query_b
  fit_key_w fit_key_b fit_value_w fit_value_b fit_dense_w fit_dense_b fit_ff1_w fit_ff1_b
  fit_ff2_w fit_ff2_b tabulate_wf tmap_wf dropout_wf : fjlm_shape.

(** Side conditions of a step: a shape from the context or the weights, or
    an equation between sizes. *)
Ltac shape_side :=
  first [ eassumption | solve [eauto with fjlm_shape]
        | (cbv beta iota; cbn [size fold_right tmap dropout squeeze shape] in *;
           repeat match goal with H : shape ?t = _ |- context [shape ?t] => rewrite H end;
           repeat match goal with E : depth ?L = _ * _ |- context [depth ?L] => rewrite E end;
           cbn [size fold_right]; first [reflexivity | nia]) ].

Ltac ok_step lem :=
  cbv zeta; eapply ok_bind; [eapply lem; try shape_side | intros ?t ?Ht ?Hw].

Lemma dense_ok x W b n k m :
  shape x = [n; k] -> shape W = [k; m] -> shape b = [m] -> ok_shape (dense x W b) [n; m].
Proof. intros Ex EW Eb. ok_step (matmul_2_ok x W n k m). now apply bcast_bias_ok. Qed.

Lemma gate_add_ok a g b : shape g = [1] -> shape a = shape b -> ok_shape (gate_add a g b) (shape a).
Proof.
  intros Eg E. unfold gate_add. ok_step (bcast_scalar_l_ok Rmult (squeeze g) b).
  apply bcast_same_ok. congruence.
Qed.

(** With zero gates the sum is its first operand. *)
Lemma gate_add_zero a b : wf a -> shape a = shape b -> gate_add a zeros1 b = Ok a.
Proof. intros Hw E. apply bcast_add_zero_gate; auto. Qed.

(** ** The attention weight [sigmoid x * tanh x] *)

Lemma sigmoid_tanh_closed x :
  (sigmoid x * tanh x = exp x * (exp x - 1) / (exp x * exp x + 1))%R.
Proof.
  unfold sigmoid, tanh, sinh, cosh. rewrite exp_Ropp.
  pose proof (exp_pos x) as He. set (e := exp x) in *. field. split; [|split]; try nra.
Qed.

Lemma div_bounds a d lo hi : (0 < d -> lo * d < a -> a < hi * d -> lo < a / d < hi)%R.
Proof.
  intros Hd H1 H2. unfold Rdiv. split; apply (Rmult_lt_reg_r d); try exact Hd;
    rewrite Rmult_assoc, Rinv_l by lra; lra.
Qed.

Lemma sigmoid_tanh_bounds x : (-1/2 < sigmoid x * tanh x < 1)%R.
Proof.
  rewrite sigmoid_tanh_closed. pose proof (exp_pos x) as He. set (e := exp x) in *.
  apply div_bounds; nra.
Qed.

(** ** The mask *)

(** [ones - 1 = 0], so the mask term is a tensor of zeros. *)
Lemma mask_logits_eq bs h p logits :
  mask_logits bs h p logits = bcast Rplus logits (tabulate [bs; h; p; p] (fun _ => 0%R)).
Proof.
  unfold mask_logits. rewrite bcast_scalar_l by reflexivity. cbn [bind].
  rewrite bcast_scalar_r by reflexivity. cbn [bind]. f_equal. cbn [shape tabulate ones].
  apply tabulate_ext. intros i Hi. rewrite get_tabulate, get_ones by exact Hi.
  unfold get, scalar. simpl. lra.
Qed.

Lemma mask_logits_ok bs h p logits :
  shape logits = [bs; h; p; p] -> ok_shape (mask_logits bs h p logits) (shape logits).
Proof. intros Hs. rewrite mask_logits_eq. apply bcast_same_ok. now rewrite Hs. Qed.

Lemma attention_weights_ok logits : wf logits -> ok_shape (attention_weights logits) (shape logits).
Proof.
  intros Hw. unfold attention_weights. rewrite bcast_same by reflexivity. apply ok_tabulate.
Qed.

Section Shapes.

Context (L : layer) (w : weights) (f bs p q : nat).
Hypothesis Hfit : weights_fit w f (depth L).
Hypothesis Hd : depth L = num_heads L * q.
Hypothesis Hbs : 0 < bs.
Hypothesis Hp : 0 < p.
Hypothesis Hq : 0 < q.
Hypothesis Hh : 0 < num_heads L.

Lemma split_heads_ok t :
  wf t -> shape t = [bs; p; depth L] -> ok_shape (split_heads L bs t) [bs; num_heads L; p; q].
Proof.
  intros Hw Ht. unfold split_heads.
  replace (depth L / num_heads L) with q by (rewrite Hd, Nat.mul_comm, Nat.div_mul; lia).
  ok_step (reshape_4m_ok t bs (num_heads L) q p). now apply transpose_0213_ok.
Qed.

Lemma input_projection_ok x :
  wf x -> shape x = [bs; p; f] ->
  exists fsi si, input_projection w bs p x = Ok (fsi, si) /\
    shape fsi = [p * bs; depth L] /\ wf fsi /\ shape si = [bs; p; depth L] /\ wf si.
Proof.
  intros Hw Hx. unfold input_projection.
  destruct (reshape_2h_ok x (p * bs) f Hw) as (fi & -> & Hfi & Hfw); [shape_side|nia|].
  cbn [bind].
  destruct (dense_ok fi (input_dense_weight w) (input_dense_bias w) (p * bs) f (depth L))
    as (fsi & -> & Hfsi & Hfsw); try shape_side. cbn [bind].
  destruct (reshape_3h_ok fsi bs p (depth L) Hfsw) as (si & -> & Hsi & Hsw); [shape_side|nia|].
  cbn [bind].
  now exists fsi, si.
Qed.

Lemma attention_branch_ok fsi :
  wf fsi -> shape fsi = [p * bs; depth L] ->
  ok_shape (attention_branch L w bs p fsi) [bs; p; depth L].
Proof.
  intros Hw Hs. unfold attention_branch.
  ok_step (dense_ok fsi (query_dense_weight w) (query_dense_bias w) (p * bs) (depth L) (depth L)).
  ok_step (dense_ok fsi (key_dense_weight w) (key_dense_bias w) (p * bs) (depth L) (depth L)).
  ok_step (dense_ok fsi (value_dense_weight w) (value_dense_bias w) (p * bs) (depth L) (depth L)).
  ok_step (reshape_3h_ok t bs p (depth L)).
  ok_step (reshape_3h_ok t0 bs p (depth L)).
  ok_step (reshape_3h_ok t1 bs p (depth L)).
  ok_step (split_heads_ok t2). ok_step (split_heads_ok t3). ok_step (split_heads_ok t4).
  ok_step (matmul_4_ok t5 t6 bs (num_heads L) p q p true).
  ok_step (bcast_scalar_r_ok Rdiv t8).
  ok_step (mask_logits_ok bs (num_heads L) p t9).
  ok_step (attention_weights_ok t10).
  ok_step (matmul_4_ok t11 t7 bs (num_heads L) p p q false).
  ok_step (transpose_0213_ok t12 bs (num_heads L) p q).
  ok_step (reshape_3m_ok t13 bs (depth L) p).
  ok_step (reshape_2h_ok t14 (bs * p) (depth L)).
  ok_step (dense_ok t15 (dense_weight w) (dense_bias w) (bs * p) (depth L) (depth L)).
  apply reshape_3h_ok; shape_side.
Qed.

Lemma feedforward_ok keep nl :
  wf nl -> shape nl = [bs; p; depth L] ->
  ok_shape (feedforward_branch w keep bs p nl) [bs; p; depth L].
Proof.
  intros Hw Hs. unfold feedforward_branch.
  ok_step (reshape_2h_ok nl (bs * p) (depth L)).
  ok_step (dense_ok t (ff_dense1_weight w) (ff_dense1_bias w) (bs * p) (depth L) (depth L)).
  ok_step (dense_ok (tmap leaky_relu t0) (ff_dense2_weight w) (ff_dense2_bias w)
             (bs * p) (depth L) (depth L)).
  apply reshape_3h_ok; shape_side.
Qed.

Hypothesis Hpad : pad_size L = Some p.

Lemma call_ok keep x :
  wf x -> shape x = [bs; p; f] -> ok_shape (call L w keep x) (compute_output_shape L (shape x)).
Proof.
  intros Hw Hx. unfold call. rewrite Hx, Hpad.
  destruct (input_projection_ok x Hw Hx) as (fsi & si & -> & Hfs & Hfw & Hs & Hsw). cbn [bind].
  ok_step (attention_branch_ok fsi).
  ok_step (gate_add_ok si (random_id_att w) t).
  ok_step (feedforward_ok keep t0).
  ok_step (gate_add_ok t0 (random_id_ff w) t1).
  rewrite reshape_3_id with (a := bs) (b := p) (c := depth L) by shape_side. cbn [bind].
  unfold compute_output_shape. destruct (pool L); simpl.
  - apply (reduce_mean1_ok _ bs p). shape_side.
  - apply ok_ret; shape_side.
Qed.

(** With both gates zero the layer returns its projected input. *)
Lemma call_zero_gates keep x :
  random_id_att w = zeros1 -> random_id_ff w = zeros1 -> wf x -> shape x = [bs; p; f] ->
  call L w keep x = (let* '(_, si) := input_projection w bs p x in
                     if pool L then reduce_mean1 si else Ok si).
Proof.
  intros Ha Hf Hw Hx. unfold call. rewrite Hx, Hpad.
  destruct (input_projection_ok x Hw Hx) as (fsi & si & -> & Hfs & Hfw & Hs & Hsw). cbn [bind].
  destruct (attention_branch_ok fsi Hfw Hfs) as (a & -> & Ha' & _). cbn [bind].
  rewrite Ha, gate_add_zero by congruence. cbn [bind].
  destruct (feedforward_ok keep si Hsw Hs) as (b & -> & Hb & _). cbn [bind].
  rewrite Hf, gate_add_zero by congruence. cbn [bind].
  now rewrite reshape_3_id with (a := bs) (b := p) (c := depth L).
Qed.

End Shapes.

(** A layer whose [pad_size] is not the second dimension of its input
    raises: [tf.reshape(inputs, [pad_size * batch_size, -1])] either fails
    or yields rows whose width is not the input features, and the matmul
    with [input_dense_weight] fails. *)
Lemma call_pad_mismatch L w keep x bs P f p :
  pad_size L = Some p -> shape x = [bs; P; f] -> wf x -> 0 < bs -> 0 < f -> p <> P ->
  shape (input_dense_weight w) = [f; depth L] -> exists e, call L w keep x = Err e.
Proof.
  intros Hp Hx Hw Hbs Hf Hne HW. unfold call. rewrite Hx, Hp. unfold input_projection.
  destruct (reshape x _) as [t|e] eqn:E; cbn [bind]; [|eauto].
  destruct (reshape_2h_inv _ _ _ E) as (Ht & Ha & Hsz).
  unfold dense. rewrite (matmul_2_mismatch t _ _ _ f _ Ht HW); [cbn [bind]; eauto|].
  intros Hm. unfold wf in Hw. rewrite Hx in Hw. cbn [size fold_right] in Hw. rewrite Hm, Hw in Hsz.
  apply Hne. apply (Nat.mul_cancel_r _ _ (bs * f)); nia.
Qed.

(** ** Constructor and [build] *)

Lemma init_inv h ps d pool L :
  init h ps (Some d) pool = Ok L ->
  L = mk_layer h ps d pool /\ 0 < h /\ d = h * (d / h).
Proof.
  unfold init. destruct (Nat.eqb_spec h 0); [discriminate|].
  destruct (Nat.eqb_spec (d mod h) 0); [|discriminate]. intros E. injection E as <-.
  split; [reflexivity|split; [lia|]]. pose proof (Nat.div_mod d h n). lia.
Qed.

(** [get_config] saves every constructor argument: a layer the
    constructor accepted is rebuilt identical from its config, so the
    layers of a model reloaded from [model_path] (line 336) have the
    heads, [pad_size], depth and pooling of the saved ones. *)
Theorem from_config_get_config h ps d pool L :
  init h ps d pool = Ok L -> from_config (get_config L) = Ok L.
Proof.
  intros Hi. destruct d as [d|]; [|discriminate].
  destruct (init_inv _ _ _ _ _ Hi) as (-> & _ & _). exact Hi.
Qed.

Section BuildLemmas.

Variable glorot : string -> list nat -> tensor.
Hypothesis glorot_shape : forall name s, shape (glorot name s) = s.

Lemma build_fit L ishape f w :
  hd_error (rev ishape) = Some f -> build glorot L ishape = Ok w -> weights_fit w f (depth L).
Proof.
  unfold build. destruct (rev ishape) as [|f' r]; [discriminate|].
  intros E E'. injection E as <-. injection E' as <-. constructor; simpl; auto.
Qed.

Lemma build_gates L ishape w :
  build glorot L ishape = Ok w -> random_id_att w = zeros1 /\ random_id_ff w = zeros1.
Proof. unfold build. destruct (rev ishape); [discriminate|]. intros E. now injection E as <-. Qed.

End BuildLemmas.

(** ** Properties of the layer *)

Section Properties.

(** C15: a layer whose constructor accepted [depth = d] and [pad_size = p],
    with weights of the shapes [build] gives them, maps a well-formed input
    of shape [(batch, p, features)] with [batch, p, d > 0] to a tensor of
    the shape [compute_output_shape] announces: [(batch, p, d)], or
    [(batch, d)] when [pool] is set.  No step of [call] raises. *)
Theorem call_output_shape h p d pool L w keep x bs f :
  init h (Some p) (Some d) pool = Ok L -> weights_fit w f d ->
  wf x -> shape x = [bs; p; f] -> 0 < bs -> 0 < p -> 0 < d ->
  ok_shape (call L w keep x) (compute_output_shape L (shape x)).
Proof.
  intros Hi Hfit Hw Hx Hbs Hp Hd. destruct (init_inv _ _ _ _ _ Hi) as (-> & Hh & Hq).
  eapply (call_ok _ w f bs p (d / h)); simpl; eauto; nia.
Qed.

(** C16: at initialisation both gates [random_id_att] and [random_id_ff]
    are zero, so [call] returns the input projection [scaled_input]
    (averaged over axis 1 when [pool] is set), whatever the dropout draw:
    the attention and feed-forward branches do not contribute. *)
Theorem call_identity_at_init (glorot : string -> list nat -> tensor) h p d pool L w keep x bs f :
  (forall name s, shape (glorot name s) = s) ->
  init h (Some p) (Some d) pool = Ok L -> build glorot L (shape x) = Ok w ->
  wf x -> shape x = [bs; p; f] -> 0 < bs -> 0 < p -> 0 < d ->
  call L w keep x = (let* '(_, scaled_input) := input_projection w bs p x in
                     if pool then reduce_mean1 scaled_input else Ok scaled_input).
Proof.
  intros Hg Hi Hb Hw Hx Hbs Hp Hd. destruct (build_gates _ _ _ _ Hb) as [Ha Hf].
  pose proof (Hfit := build_fit glorot Hg L (shape x) f w ltac:(now rewrite Hx) Hb).
  destruct (init_inv _ _ _ _ _ Hi) as (-> & Hh & Hq).
  erewrite (call_zero_gates _ w f bs p (d / h)); [reflexivity|..]; simpl; eauto; nia.
Qed.

(** C17: every attention weight [sigmoid(l) * tanh(l)] lies strictly
    between [-1/2] and [1], and the weights have the shape of the logits. *)
Theorem attention_weights_bounded logits :
  wf logits ->
  exists t, attention_weights logits = Ok t /\ shape t = shape logits /\
    Forall (fun z => -1/2 < z < 1)%R (data t).
Proof.
  intros Hw. unfold attention_weights. rewrite bcast_same by reflexivity.
  eexists. split; [reflexivity|]. split; [reflexivity|]. apply tabulate_Forall.
  intros i Hi. simpl. rewrite !get_tmap by assumption. apply sigmoid_tanh_bounds.
Qed.

(** The mask of [call] is [tf.ones], so [(1.0 - mask) * -1e9] is zero
    and adding it leaves the logits unchanged: no position is masked. *)
Theorem mask_logits_noop bs h p logits :
  wf logits -> shape logits = [bs; h; p; p] -> mask_logits bs h p logits = Ok logits.
Proof.
  intros Hw Hs. rewrite mask_logits_eq, <- Hs, bcast_same by reflexivity.
  rewrite <- (tabulate_get logits Hw) at 2. f_equal. apply tabulate_ext. intros i Hi.
  rewrite Hs in Hi |- *. rewrite get_tabulate by exact Hi. lra.
Qed.

(** C19: [call] applies [tf.nn.dropout(flat_ff2, 0.1)] with no training
    switch: the feed-forward branch of a constructed layer is computed
    through the dropout draw on every call, so a draw that drops every
    entry makes its output all zeros (at inference as well). *)
Theorem feedforward_dropout_always h p d pool L w nl bs f :
  init h (Some p) (Some d) pool = Ok L -> weights_fit w f d ->
  wf nl -> shape nl = [bs; p; d] -> 0 < bs -> 0 < p -> 0 < d ->
  exists t, feedforward_branch w (fun _ => false) bs p nl = Ok t /\
    shape t = [bs; p; d] /\ Forall (fun z => z = 0%R) (data t).
Proof.
  intros Hi Hfit Hw Hs Hbs Hp Hd. destruct (init_inv _ _ _ _ _ Hi) as (-> & Hh & Hq).
  destruct (feedforward_ok (mk_layer h (Some p) d pool) w f bs p (d / h) Hfit) with
    (keep := fun _ : nat => false) (nl := nl) as (t & Ht & Hts & _); simpl; try nia; auto.
  exists t. split; [exact Ht|split; [exact Hts|]]. revert Ht. unfold feedforward_branch.
  destruct (reshape _ _) as [a|]; [cbn [bind]|discriminate].
  destruct (dense _ _ _) as [b|]; [cbn [bind]|discriminate].
  destruct (dense _ _ _) as [c|]; [cbn [bind]|discriminate].
  intros E. rewrite (reshape_data _ _ _ E). simpl. apply Forall_map, Forall_forall. auto.
Qed.

End Properties.

(** ** Witnesses *)

Definition ex_glorot (_ : string) (s : list nat) : tensor := ones s.

Definition ex_layer : layer := mk_layer 1 (Some 2) 2 false.

Definition ex_input : tensor := tabulate [1; 2; 3] (fun _ => 1%R).

Definition ex_weights : weights :=
  match build ex_glorot ex_layer [1; 2; 3] with Ok w => w | Err _ => mk_weights
    zeros1 zeros1 zeros1 zeros1 zeros1 zeros1 zeros1 zeros1 zeros1 zeros1 zeros1 zeros1
    zeros1 zeros1 zeros1 zeros1 end.

Lemma call_output_shape_witness :
  ok_shape (call ex_layer ex_weights (fun _ => true) ex_input) [1; 2; 2].
Proof.
  apply (call_output_shape 1 2 2 false ex_layer ex_weights (fun _ => true) ex_input 1 3);
    try reflexivity; try lia. constructor; reflexivity.
Defined.

Lemma call_identity_at_init_witness :
  call ex_layer ex_weights (fun _ => false) ex_input
  = (let* '(_, si) := input_projection ex_weights 1 2 ex_input in Ok si).
Proof.
  apply (call_identity_at_init ex_glorot 1 2 2 false ex_layer ex_weights (fun _ => false) ex_input 1 3);
    try reflexivity; lia.
Defined.

Lemma attention_weights_bounded_witness :
  exists t, attention_weights (tabulate [2; 2] (fun _ => 0%R)) = Ok t /\ shape t = [2; 2] /\
    Forall (fun z => -1/2 < z < 1)%R (data t).
Proof. apply (attention_weights_bounded (tabulate [2; 2] (fun _ => 0%R))), tabulate_wf. Defined.

Lemma feedforward_dropout_always_witness :
  exists t, feedforward_branch ex_weights (fun _ => false) 1 2 (tabulate [1; 2; 2] (fun _ => 1%R)) = Ok t /\
    shape t = [1; 2; 2] /\ Forall (fun z => z = 0%R) (data t).
Proof.
  apply (feedforward_dropout_always 1 2 2 false ex_layer ex_weights _ 1 3);
    try reflexivity; try lia. constructor; reflexivity.
Defined.

Lemma mask_logits_noop_witness :
  mask_logits 1 1 2 (tabulate [1; 1; 2; 2] (fun _ => 3%R)) = Ok (tabulate [1; 1; 2; 2] (fun _ => 3%R)).
Proof. apply mask_logits_noop; [apply tabulate_wf | reflexivity]. Defined.

Lemma from_config_get_config_witness :
  from_config (get_config ex_layer) = Ok ex_layer.
Proof. exact (from_config_get_config 1 (Some 2) (Some 2) false ex_layer eq_refl). Defined.

End TransformerLayer.
