(* ===== verification/ModelGraph.v ===== *)
(** * The Keras graph of [run()] (src/train.py, lines 316-332)

    [Input(shape=(sequenceSize, predictSteps))], [Permute((2, 1))], a
    [Conv1D] with kernel size 1 and [mish], two [TransformerLayer]s (the
    first of depth [dimension], the second of depth [sequenceSize], both
    with [num_heads=4] and [pad_size=arrayDimension]), [Permute((2, 1))]
    and a linear [Dense(arrayDimension)].  [make_layers] is the
    construction of the two layers, [forward] the evaluation of the model
    on a batch, with Keras's check of the input against the [Input] shape.
    The layers' [pad_size] is [arrayDimension], but after the first
    [Permute] the axis it stands for has [predictSteps] entries. *)

From Stdlib Require Import List Arith Lia ZArith Reals Lra.
From S2P Require Import Prelude Config Tensor Attention.
Import ListNotations.
Import Tensor TransformerLayer.
Open Scope fjlm_scope.
Open Scope bool_scope.
Open Scope nat_scope.

Module ModelGraph.

(** [activation="mish"]: [x * tanh(softplus(x))]. *)
Definition mish (x : R) : R := Rmult x (tanh (ln (Rplus 1 (exp x)))).

(** [tf.keras.layers.Permute((2, 1))]: the two non-batch axes swapped. *)
Definition permute21 (t : tensor) : result tensor := transpose t [0; 2; 1].

(** [Conv1D(filters, kernel_size=1, strides=1, padding="same", activation)]
    on [(batch, steps, channels)], kernel of shape [(1, channels, filters)]. *)
Definition conv1d_k1 (act : R -> R) (kernel bias t : tensor) : result tensor :=
  match shape t, shape kernel, shape bias with
  | [bt; n; cin], [1; cin'; f], [f'] =>
      if (cin =? cin') && (f =? f') then
        Ok (tabulate [bt; n; f] (fun oi =>
              act (Rplus (sum_range cin (fun ch =>
                            Rmult (get t [nth 0 oi 0; nth 1 oi 0; ch]) (get kernel [0; ch; nth 2 oi 0])))
                         (get bias [nth 2 oi 0]))))
      else Err ShapeError
  | _, _, _ => Err ShapeError
  end.

(** [Dense(units, activation="linear")] on the last axis of a rank-3
    tensor, kernel of shape [(channels, units)]. *)
Definition dense_last (kernel bias t : tensor) : result tensor :=
  match shape t, shape kernel, shape bias with
  | [bt; n; cin], [cin'; f], [f'] =>
      if (cin =? cin') && (f =? f') then
        Ok (tabulate [bt; n; f] (fun oi =>
              Rplus (sum_range cin (fun ch =>
                       Rmult (get t [nth 0 oi 0; nth 1 oi 0; ch]) (get kernel [ch; nth 2 oi 0])))
                    (get bias [nth 2 oi 0])))
      else Err ShapeError
  | _, _, _ => Err ShapeError
  end.

Record model_weights : Type := {
  conv_kernel : tensor;
  conv_bias : tensor;
  tl1 : weights;
  tl2 : weights;
  dense_kernel : tensor;
  dense_bias : tensor
}.

(** Lines 326 and 328: the two [TransformerLayer] constructors. *)
Definition make_layers (c : cfg) : result (layer * layer) :=
  let* L1 := init 4 (Some (arrayDimension c)) (Some (dimension c)) false in
  let* L2 := init 4 (Some (arrayDimension c)) (Some (sequenceSize c)) false in
  Ok (L1, L2).

(** The model on a batch [x]; [keep1], [keep2] are the dropout draws of
    the two layers. *)
Definition forward (c : cfg) (L1 L2 : layer) (mw : model_weights) (keep1 keep2 : nat -> bool)
  (x : tensor) : result tensor :=
  match shape x with
  | [bt; s; p] =>
      if (s =? sequenceSize c) && (p =? predictSteps c) then
        let* x := permute21 x in
        let* x := conv1d_k1 mish (conv_kernel mw) (conv_bias mw) x in
        let* x := call L1 (tl1 mw) keep1 x in
        let* x := call L2 (tl2 mw) keep2 x in
        let* x3a := permute21 x in
        dense_last (dense_kernel mw) (dense_bias mw) x3a
      else Err ValueError
  | _ => Err ValueError
  end.

(** The shapes Keras gives the weights when it builds the graph. *)
Record model_fit (c : cfg) (mw : model_weights) : Prop := {
  fit_conv_kernel : shape (conv_kernel mw) = [1; sequenceSize c; dimension c];
  fit_conv_bias : shape (conv_bias mw) = [dimension c];
  fit_tl1 : weights_fit (tl1 mw) (dimension c) (dimension c);
  fit_tl2 : weights_fit (tl2 mw) (dimension c) (sequenceSize c);
  fit_dense_kernel : shape (dense_kernel mw) = [predictSteps c; arrayDimension c];
  fit_dense_bias : shape (dense_bias mw) = [arrayDimension c]
}.

(** ** Shapes through the graph *)

Lemma permute21_ok t a b d : shape t = [a; b; d] -> ok_shape (permute21 t) [a; d; b].
Proof. intros E. unfold permute21, transpose. rewrite E. apply ok_tabulate. Qed.

Lemma conv1d_k1_ok act k b t bt n cin f :
  shape t = [bt; n; cin] -> shape k = [1; cin; f] -> shape b = [f] ->
  ok_shape (conv1d_k1 act k b t) [bt; n; f].
Proof. intros Et Ek Eb. unfold conv1d_k1. rewrite Et, Ek, Eb, !Nat.eqb_refl. apply ok_tabulate. Qed.

Lemma dense_last_ok k b t bt n cin f :
  shape t = [bt; n; cin] -> shape k = [cin; f] -> shape b = [f] ->
  ok_shape (dense_last k b t) [bt; n; f].
Proof. intros Et Ek Eb. unfold dense_last. rewrite Et, Ek, Eb, !Nat.eqb_refl. apply ok_tabulate. Qed.

Lemma make_layers_inv c L1 L2 :
  make_layers c = Ok (L1, L2) ->
  L1 = mk_layer 4 (Some (arrayDimension c)) (dimension c) false /\
  L2 = mk_layer 4 (Some (arrayDimension c)) (sequenceSize c) false /\
  dimension c = 4 * (dimension c / 4) /\ sequenceSize c = 4 * (sequenceSize c / 4).
Proof.
  unfold make_layers.
  destruct (init 4 _ (Some (dimension c)) false) as [L1'|] eqn:E1; [|discriminate].
  destruct (init 4 _ (Some (sequenceSize c)) false) as [L2'|] eqn:E2; [|discriminate].
  intros E. injection E as <- <-.
  destruct (init_inv _ _ _ _ _ E1) as (-> & _ & H1). destruct (init_inv _ _ _ _ _ E2) as (-> & _ & H2).
  auto.
Qed.

Section Graph.

Variable c : cfg.
Variables (L1 L2 : layer) (mw : model_weights) (keep1 keep2 : nat -> bool).
Hypothesis Hlayers : make_layers c = Ok (L1, L2).
Hypothesis Hfit : model_fit c mw.
Hypothesis Hdim : 0 < dimension c.
Hypothesis Hseq : 0 < sequenceSize c.

(** The layers accept the output of the [Conv1D] exactly when
    [arrayDimension = predictSteps]. *)
Lemma forward_ok x bt :
  wf x -> shape x = [bt; sequenceSize c; predictSteps c] -> 0 < bt -> 0 < predictSteps c ->
  arrayDimension c = predictSteps c ->
  ok_shape (forward c L1 L2 mw keep1 keep2 x) [bt; sequenceSize c; arrayDimension c].
Proof.
  intros Hw Hx Hbt HP HA. destruct (make_layers_inv c L1 L2 Hlayers) as (-> & -> & Hd1 & Hd2).
  unfold forward. rewrite Hx, !Nat.eqb_refl. cbn [andb].
  eapply ok_bind; [apply (permute21_ok x bt (sequenceSize c) (predictSteps c) Hx)|intros t1 E1 W1].
  eapply ok_bind; [apply (conv1d_k1_ok _ _ _ t1 bt (predictSteps c) (sequenceSize c) (dimension c));
                   auto using fit_conv_kernel, fit_conv_bias|intros t2 E2 W2].
  eapply ok_bind; [eapply (call_ok _ _ (dimension c) bt (predictSteps c) (dimension c / 4));
                   cbn [depth num_heads pad_size]; rewrite ?HA; eauto using fit_tl1; lia|intros t3 E3 W3].
  rewrite E2 in E3. unfold compute_output_shape in E3. simpl in E3.
  eapply ok_bind; [eapply (call_ok _ _ (dimension c) bt (predictSteps c) (sequenceSize c / 4));
                   cbn [depth num_heads pad_size]; rewrite ?HA; eauto using fit_tl2; lia|intros t4 E4 W4].
  rewrite E3 in E4. unfold compute_output_shape in E4. simpl in E4.
  eapply ok_bind; [apply (permute21_ok t4 _ _ _ E4)|intros t5 E5 W5].
  apply (dense_last_ok _ _ _ _ _ (predictSteps c)); auto using fit_dense_kernel, fit_dense_bias.
Qed.

Lemma forward_mismatch x bt :
  wf x -> shape x = [bt; sequenceSize c; predictSteps c] -> 0 < bt -> 0 < predictSteps c ->
  arrayDimension c <> predictSteps c -> exists e, forward c L1 L2 mw keep1 keep2 x = Err e.
Proof.
  intros Hw Hx Hbt HP HA. destruct (make_layers_inv c L1 L2 Hlayers) as (-> & -> & Hd1 & Hd2).
  unfold forward. rewrite Hx, !Nat.eqb_refl. cbn [andb].
  destruct (permute21_ok x bt (sequenceSize c) (predictSteps c) Hx) as (t1 & -> & E1 & W1). cbn [bind].
  destruct (conv1d_k1_ok mish (conv_kernel mw) (conv_bias mw) t1 bt (predictSteps c) (sequenceSize c) (dimension c))
    as (t2 & -> & E2 & W2); auto using fit_conv_kernel, fit_conv_bias. cbn [bind].
  edestruct (call_pad_mismatch (mk_layer 4 (Some (arrayDimension c)) (dimension c) false) (tl1 mw) keep1
               t2 bt (predictSteps c) (dimension c) (arrayDimension c)) as [e ->]; eauto.
  - apply (fit_input_w _ _ _ (fit_tl1 _ _ Hfit)).
  - now exists e.
Qed.

End Graph.

(** C29: with the two layers the script constructs and weights of the
    shapes Keras builds, the model maps a batch of the [Input] shape
    [(batch, sequenceSize, predictSteps)] to [(batch, sequenceSize,
    arrayDimension)] if and only if [arrayDimension = predictSteps]:
    otherwise the first layer's [pad_size] does not match the axis that
    the [Permute] put in second place and its [call] raises. *)
Theorem forward_succeeds_iff c L1 L2 mw keep1 keep2 x bt :
  make_layers c = Ok (L1, L2) -> model_fit c mw -> 0 < dimension c -> 0 < sequenceSize c ->
  wf x -> shape x = [bt; sequenceSize c; predictSteps c] -> 0 < bt -> 0 < predictSteps c ->
  (exists y, forward c L1 L2 mw keep1 keep2 x = Ok y /\ shape y = [bt; sequenceSize c; arrayDimension c])
  <-> arrayDimension c = predictSteps c.
Proof.
  intros Hl Hf Hd Hs Hw Hx Hbt HP. split.
  - intros (y & E & _). destruct (Nat.eq_dec (arrayDimension c) (predictSteps c)) as [|Hne]; [assumption|].
    destruct (forward_mismatch c L1 L2 mw keep1 keep2 Hl Hf Hd x bt Hw Hx Hbt HP Hne) as [e He].
    congruence.
  - intros HA. destruct (forward_ok c L1 L2 mw keep1 keep2 Hl Hf Hd Hs x bt Hw Hx Hbt HP HA)
      as (y & E & Hy & _). eauto.
Qed.

Definition default_layers : layer * layer :=
  (mk_layer 4 (Some 8) 512 false, mk_layer 4 (Some 8) 512 false).

Definition ones_weights (f d : nat) : weights :=
  mk_weights (ones [1]) (ones [1]) (ones [f; d]) (ones [d]) (ones [d; d]) (ones [d]) (ones [d; d])
    (ones [d]) (ones [d; d]) (ones [d]) (ones [d; d]) (ones [d]) (ones [d; d]) (ones [d])
    (ones [d; d]) (ones [d]).

Definition default_weights : model_weights :=
  {| conv_kernel := ones [1; 512; 512]; conv_bias := ones [512]; tl1 := ones_weights 512 512;
     tl2 := ones_weights 512 512; dense_kernel := ones [8; 8]; dense_bias := ones [8] |}.

Lemma forward_succeeds_iff_witness :
  (exists y, forward default_cfg (fst default_layers) (snd default_layers) default_weights
               (fun _ => true) (fun _ => true) (tabulate [2; 512; 8] (fun _ => 0%R)) = Ok y /\
             shape y = [2; 512; 8]) <-> 8 = 8.
Proof.
  apply (forward_succeeds_iff default_cfg);
    [reflexivity | | cbv; lia | cbv; lia | apply tabulate_wf | reflexivity | lia | cbv; lia].
  constructor; try reflexivity; constructor; reflexivity.
Defined.

End ModelGraph.
