(* ===== verification/Mfu.v ===== *)
(** * Mfu: [estimate_mfu] ([src/train.py] lines 235-253)

    The model-flops-utilisation estimate: a parameter count, a flop count
    per token from the configuration, and the ratio of the flops achieved
    in [dt] seconds to the A100 peak.  Exact arithmetic over [Q] (the
    script's floats are not rounded here); [cfg['dimension'] //
    cfg['sequenceSize']] and [1.0/dt] raise [ZeroDivisionError] on zero.
    The only call of [estimate_mfu] (line 415) is commented out.  The
    parameter count is taken on the variables of the model [run()] builds
    ([trainable_variables]), so the estimate for the script's
    configuration is given in closed form. *)

From Stdlib Require Import List Arith Lia ZArith QArith.
From S2P Require Import Prelude Config Tensor Attention ModelGraph.
Import ListNotations.
Open Scope fjlm_scope.

Module Mfu.
Import Tensor TransformerLayer ModelGraph.

Local Open Scope nat_scope.

(** Line 237: [N = sum(np.prod(v.shape) for v in model.trainable_variables)];
    [np.prod(())] is [1]. *)
Definition param_count (shapes : list (list nat)) : nat :=
  fold_right (fun s acc => fold_right Nat.mul 1 s + acc) 0 shapes.

(** Line 250: the A100 bfloat16 peak, [312e12]. *)
Definition flops_promised : Q := inject_Z (312 * 10 ^ 12)%Z.

(** Lines 239-246: the flops of one iteration. *)
Definition flops_per_iter (c : cfg) (N fwdbwd_per_iter : nat) : result nat :=
  if sequenceSize c =? 0 then Err ZeroDivisionError
  else
    let L := sequenceSize c in
    let H := dimension c / sequenceSize c in
    let Qd := sequenceSize c in
    let T := sequenceSize c in
    let flops_per_token := 6 * N + 12 * L * H * Qd * T in
    let flops_per_fwdbwd := flops_per_token * T in
    Ok (flops_per_fwdbwd * fwdbwd_per_iter).

(** Lines 235-253. *)
Definition estimate_mfu (c : cfg) (shapes : list (list nat)) (fwdbwd_per_iter : nat) (dt : Q)
  : result Q :=
  let N := param_count shapes in
  let* flops := flops_per_iter c N fwdbwd_per_iter in
  if Qeq_bool dt 0%Q then Err ZeroDivisionError
  else
    let flops_achieved := (inject_Z (Z.of_nat flops) * (1 / dt))%Q in
    Ok (flops_achieved / flops_promised)%Q.

(** The script's configuration: [H = 512 // 512 = 1] head and
    [L = 512] "layers", so an iteration counts
    [(6 N + 12 * 512 ^ 3) * 512] flops per forward-backward pass. *)
Lemma flops_per_iter_default N f :
  flops_per_iter default_cfg N f = Ok ((6 * N + 12 * 512 * 512 * 512) * 512 * f).
Proof. unfold flops_per_iter. cbn -[Nat.mul]. f_equal. Qed.

(** The estimate is the flops of an iteration over [dt] seconds, as a
    fraction of the peak. *)
Lemma estimate_mfu_value c shapes f dt flops :
  flops_per_iter c (param_count shapes) f = Ok flops -> ~ (dt == 0)%Q ->
  exists m, estimate_mfu c shapes f dt = Ok m
            /\ (m == inject_Z (Z.of_nat flops) / (dt * flops_promised))%Q.
Proof.
  intros E Hdt. unfold estimate_mfu. rewrite E. cbn [bind].
  destruct (Qeq_bool dt 0%Q) eqn:Eq; [apply Qeq_bool_eq in Eq; contradiction|].
  eexists. split; [reflexivity|]. unfold flops_promised. field.
  split; [discriminate|exact Hdt].
Qed.

(** A [sequenceSize] of zero raises before the time is looked at. *)
Lemma estimate_mfu_zero_sequence c shapes f dt :
  sequenceSize c = 0 -> estimate_mfu c shapes f dt = Err ZeroDivisionError.
Proof. intros H. unfold estimate_mfu, flops_per_iter. now rewrite H. Qed.

(** A positive count of flops over a positive duration gives a positive
    estimate. *)
Lemma estimate_mfu_pos c shapes f dt flops :
  flops_per_iter c (param_count shapes) f = Ok flops -> 0 < flops -> (0 < dt)%Q ->
  exists m, estimate_mfu c shapes f dt = Ok m /\ (0 < m)%Q.
Proof.
  intros E Hf Hdt.
  destruct (estimate_mfu_value c shapes f dt flops E) as [m [Em Hm]];
    [intros H; rewrite H in Hdt; discriminate|].
  exists m. split; [exact Em|]. rewrite Hm. unfold Qdiv.
  apply Qmult_lt_0_compat; [unfold Qlt; simpl; lia|].
  apply Qinv_lt_0_compat, Qmult_lt_0_compat; [exact Hdt|].
  unfold flops_promised, Qlt. simpl. lia.
Qed.

(** ** The parameters of the model [run()] builds *)

(** The sixteen variables [build] adds to a [TransformerLayer]
    (lines 98-113), in the order it adds them. *)
Definition layer_variables (w : weights) : list tensor :=
  [random_id_att w; random_id_ff w; input_dense_weight w; input_dense_bias w;
   query_dense_weight w; query_dense_bias w; key_dense_weight w; key_dense_bias w;
   value_dense_weight w; value_dense_bias w; dense_weight w; TransformerLayer.dense_bias w;
   ff_dense1_weight w; ff_dense1_bias w; ff_dense2_weight w; ff_dense2_bias w].

(** [model.trainable_variables] (line 237) of the graph of lines 318-332:
    the [Conv1D] kernel and bias, the variables of the two layers, and the
    [Dense] kernel and bias. *)
Definition trainable_variables (mw : model_weights) : list tensor :=
  [conv_kernel mw; conv_bias mw] ++ layer_variables (tl1 mw) ++ layer_variables (tl2 mw)
  ++ [dense_kernel mw; dense_bias mw].

Lemma param_count_app s1 s2 : param_count (s1 ++ s2) = param_count s1 + param_count s2.
Proof. induction s1 as [|s s1 IH]; simpl; [reflexivity|]. rewrite IH. lia. Qed.

Lemma layer_param_count w f d :
  weights_fit w f d -> param_count (map shape (layer_variables w)) = 2 + f * d + d + 6 * (d * d + d).
Proof.
  intros Hw. unfold layer_variables. cbn [map].
  rewrite (fit_att _ _ _ Hw), (fit_ff _ _ _ Hw), (fit_input_w _ _ _ Hw), (fit_input_b _ _ _ Hw),
    (fit_query_w _ _ _ Hw), (fit_query_b _ _ _ Hw), (fit_key_w _ _ _ Hw), (fit_key_b _ _ _ Hw),
    (fit_value_w _ _ _ Hw), (fit_value_b _ _ _ Hw), (fit_dense_w _ _ _ Hw), (fit_dense_b _ _ _ Hw),
    (fit_ff1_w _ _ _ Hw), (fit_ff1_b _ _ _ Hw), (fit_ff2_w _ _ _ Hw), (fit_ff2_b _ _ _ Hw).
  cbn. lia.
Qed.

(** The parameter count of the model: the [Conv1D] ([sequenceSize]
    inputs, [dimension] filters), the first layer (depth [dimension] on
    [dimension] features), the second (depth [sequenceSize] on
    [dimension] features) and the [Dense] ([predictSteps] inputs,
    [arrayDimension] units). *)
Lemma model_param_count c mw :
  model_fit c mw ->
  param_count (map shape (trainable_variables mw))
  = let S := sequenceSize c in let D := dimension c in
    (S * D + D) + (2 + D * D + D + 6 * (D * D + D)) + (2 + D * S + S + 6 * (S * S + S))
    + (predictSteps c * arrayDimension c + arrayDimension c).
Proof.
  intros Hf. unfold trainable_variables. rewrite !map_app, !param_count_app.
  rewrite (layer_param_count _ _ _ (fit_tl1 _ _ Hf)), (layer_param_count _ _ _ (fit_tl2 _ _ Hf)).
  cbn [map param_count fold_right]. rewrite (fit_conv_kernel _ _ Hf), (fit_conv_bias _ _ Hf),
    (fit_dense_kernel _ _ Hf), (fit_dense_bias _ _ Hf). cbn [fold_right]. lia.
Qed.

(** With the script's configuration the model has 3939916 parameters,
    and one pass per iteration counts [(6 N + 12 * 512^3) * 512] flops. *)
Lemma param_count_script mw :
  model_fit default_cfg mw -> Z.of_nat (param_count (map shape (trainable_variables mw))) = 3939916%Z.
Proof. intros Hf. rewrite (model_param_count _ _ Hf). cbv zeta. unfold default_cfg; cbn [sequenceSize dimension predictSteps arrayDimension]. lia. Qed.

Lemma estimate_mfu_script mw dt :
  model_fit default_cfg mw -> ~ (dt == 0)%Q ->
  exists m, estimate_mfu default_cfg (map shape (trainable_variables mw)) 1 dt = Ok m
  /\ (m == inject_Z ((6 * 3939916 + 12 * 512 ^ 3) * 512) / (dt * flops_promised))%Q.
Proof.
  intros Hf Hdt.
  destruct (estimate_mfu_value default_cfg (map shape (trainable_variables mw)) 1 dt _
              (flops_per_iter_default _ 1) Hdt) as [m [E Hm]].
  exists m. split; [exact E|]. rewrite Hm.
  assert (Hz : Z.of_nat ((6 * param_count (map shape (trainable_variables mw)) + 12 * 512 * 512 * 512)
                         * 512 * 1) = ((6 * 3939916 + 12 * 512 ^ 3) * 512)%Z).
  { rewrite <- (param_count_script mw Hf). lia. }
  rewrite Hz. reflexivity.
Qed.

End Mfu.
