(* ===== verification/Decode.v ===== *)
(** * Decode: the dictionary over the reals and the display of predictions

    [Vocab.v] states the dictionary over an interface [Numeric] and runs
    it over [Q] with the squared norm.  This file gives the instance the
    code means: real numbers with [np.linalg.norm] as the Euclidean norm
    [sqrt (sum of squares)], proves its laws, and shows that the
    executable [Q] model of [reverser] returns the same key as this one,
    so the theorems and witnesses over [Q] are about the real search.

    It then models the display at the end of an epoch (lines 427-441):
    one window of [last_batch] through the model, and the three decoded
    lines INPUT, REAL and PREDICT, the last one [tokenizer.decode] of
    [int(reverser(s))] for every row [s] of the prediction, and composes
    it with the model of [ModelGraph]: on the graph [run()] builds, the
    three lines are produced exactly when the dictionary's width is both
    [arrayDimension] and [predictSteps]. *)

From Stdlib Require Import String List Arith Lia ZArith QArith Qreals Reals Lra.
From S2P Require Import Prelude Config Tensor Vocab Attention ModelGraph.
Import ListNotations.
Open Scope fjlm_scope.

Module Decode.
Import VectorDictionary QInstance Tensor TransformerLayer ModelGraph.

Local Open Scope R_scope.

Definition Rltb (a b : R) : bool := if Rlt_dec a b then true else false.
Definition Reqb (a b : R) : bool := if Req_EM_T a b then true else false.
Definition sum_sq_R (v : list R) : R := fold_right (fun x acc => x * x + acc) 0 v.

(** [float(token)]: the value of the decimal string. *)
Definition R_of_string (s : string) : result R := let* q := q_of_string s in Ok (Q2R q).

(** Floats as reals: [np.linalg.norm] is [sqrt] of the sum of squares. *)
#[export] Instance Numeric_R : Numeric R := {
  num_zero := 0;
  num_of_string := R_of_string;
  num_eqb := Reqb;
  num_sub := Rminus;
  num_norm := fun v => sqrt (sum_sq_R v);
  num_ltb := Rltb
}.

(** The same operations with the squared norm, the choice [QInstance]
    makes. *)
Definition Numeric_Rsq : Numeric R := {|
  num_zero := 0;
  num_of_string := R_of_string;
  num_eqb := Reqb;
  num_sub := Rminus;
  num_norm := sum_sq_R;
  num_ltb := Rltb
|}.

(** ** Laws *)

Lemma Rltb_spec a b : Rltb a b = true <-> a < b.
Proof. unfold Rltb. destruct (Rlt_dec a b); split; intros; auto; discriminate. Qed.

Lemma Rltb_false a b : Rltb a b = false <-> b <= a.
Proof. unfold Rltb. destruct (Rlt_dec a b); split; intros; try lra; auto; discriminate. Qed.

Lemma sum_sq_R_nonneg v : 0 <= sum_sq_R v.
Proof. induction v as [|x v IH]; simpl; nra. Qed.

Lemma sum_sq_R_self (v : list R) : sum_sq_R (@vsub R Numeric_R v v) = 0.
Proof.
  induction v as [|x v IH]; [reflexivity|]. unfold vsub in *. simpl in *.
  rewrite IH. ring.
Qed.

Lemma sum_sq_R_pos (v w : list R) :
  length v = length w -> @vec_eqb R Numeric_R w v = false -> 0 < sum_sq_R (@vsub R Numeric_R w v).
Proof.
  revert w; induction v as [|x v IH]; intros [|y w] Hl Heq; try discriminate.
  injection Hl as Hl. unfold vsub in *. cbn [combine map fst snd sum_sq_R fold_right] in *.
  pose proof (sum_sq_R_nonneg (map (fun p => num_sub (fst p) (snd p)) (combine w v))) as Hn.
  change (Reqb y x && vec_eqb w v = false) in Heq. cbn [num_sub Numeric_R] in *.
  unfold Reqb in Heq. destruct (Req_EM_T y x) as [->|Hxy]; simpl in Heq.
  - specialize (IH w Hl Heq). unfold sum_sq_R in *. nra.
  - assert (0 < (y - x) * (y - x)); [|unfold sum_sq_R in *; nra].
    assert (y - x <> 0) by lra. nra.
Qed.

#[export] Instance NumericLaws_R : NumericLaws R.
Proof.
  constructor; cbn [num_eqb num_ltb num_norm num_zero Numeric_R].
  - unfold Reqb. destruct (Req_EM_T 0 0); [reflexivity|lra].
  - intros a b Hab. apply Rltb_spec in Hab. apply Rltb_false. lra.
  - intros a b c Hab Hbc. apply Rltb_false in Hab, Hbc. apply Rltb_false. lra.
  - intros v w Hl Heq. apply Rltb_spec. rewrite sum_sq_R_self.
    rewrite sqrt_0. apply sqrt_lt_R0, sum_sq_R_pos; assumption.
Qed.

(** ** The squared norm picks the same row *)

Lemma Rltb_sqrt a b : 0 <= a -> 0 <= b -> Rltb (sqrt a) (sqrt b) = Rltb a b.
Proof.
  intros Ha Hb. destruct (Rltb a b) eqn:E.
  - apply Rltb_spec in E. apply Rltb_spec. apply sqrt_lt_1_alt. lra.
  - apply Rltb_false in E. apply Rltb_false. apply sqrt_le_1_alt. exact E.
Qed.

(** [np.argmin] of the norms and of their squares is the same index, so
    [reverser] with [np.linalg.norm] and with the squared norm agree. *)
Lemma reverser_norm_squared (vw2v : @dict R) (arr : list R) :
  @reverser R Numeric_R vw2v arr = @reverser R Numeric_Rsq vw2v arr.
Proof.
  unfold reverser.
  change (@eff_vec R Numeric_Rsq) with (@eff_vec R Numeric_R).
  change (@bcast_sub R Numeric_Rsq) with (@bcast_sub R Numeric_R).
  destruct (map _ vw2v) as [|r rs]; [reflexivity|].
  destruct (np_array2 (r :: rs)) as [sh|e]; [|reflexivity]. cbn [bind].
  destruct (map_result _ (r :: rs)) as [diffs|e]; [|reflexivity]. cbn [bind].
  rewrite (argmin_map (@num_ltb R Numeric_R) (@num_ltb R Numeric_Rsq)
             (@num_norm R Numeric_R) (@num_norm R Numeric_Rsq)); [reflexivity|].
  intros a b _ _. cbn [num_ltb num_norm Numeric_R Numeric_Rsq].
  apply Rltb_sqrt; apply sum_sq_R_nonneg.
Qed.

(** ** The executable model over [Q] computes the real search *)

Lemma Q2R_0 : Q2R 0 = 0.
Proof. unfold Q2R. simpl. apply Rmult_0_l. Qed.

(** A table of [vec.vec] with its [Q] values read as reals. *)
Definition tbl_R (tbl : @dict Q) : @dict R := map (fun kv => (fst kv, map Q2R (snd kv))) tbl.

Lemma eff_vec_Q2R v : @eff_vec R Numeric_R (map Q2R v) = map Q2R (@eff_vec Q Numeric_Q v).
Proof. destruct v; [|reflexivity]. simpl. now rewrite Q2R_0. Qed.

Lemma np_array2_map {A B} (h : A -> B) (rows : list (list A)) :
  np_array2 (map (map h) rows) = np_array2 rows.
Proof.
  destruct rows as [|r rows]; [reflexivity|]. unfold np_array2. cbn [map]. rewrite !length_map.
  assert (E : forall l, forallb (fun r' => length r' =? length r) (map (map h) l)
                        = forallb (fun r' => length r' =? length r) l)
    by (induction l as [|x l IH]; simpl; [reflexivity|now rewrite length_map, IH]).
  change (map h r :: map (map h) rows) with (map (map h) (r :: rows)).
  now rewrite E, length_map.
Qed.

Lemma hd_Q2R arr : hd 0 (map Q2R arr) = Q2R (hd 0%Q arr).
Proof. destruct arr; simpl; [symmetry; apply Q2R_0|reflexivity]. Qed.

Lemma vsub_Q2R v w :
  @vsub R Numeric_R (map Q2R v) (map Q2R w) = map Q2R (@vsub Q Numeric_Q v w).
Proof.
  revert w; induction v as [|x v IH]; intros [|y w]; try reflexivity.
  unfold vsub in *. simpl. rewrite IH. f_equal. symmetry. apply Q2R_minus.
Qed.

Lemma bcast_sub_Q2R row arr :
  @bcast_sub R Numeric_R (map Q2R row) (map Q2R arr)
  = match @bcast_sub Q Numeric_Q row arr with Ok d => Ok (map Q2R d) | Err e => Err e end.
Proof.
  unfold bcast_sub. rewrite !length_map.
  destruct (length row =? length arr); [now rewrite vsub_Q2R|].
  destruct (length arr =? 1).
  - apply (f_equal Ok). rewrite !map_map, hd_Q2R. apply map_ext. intros x. symmetry. apply Q2R_minus.
  - destruct (length row =? 1); [|reflexivity].
    apply (f_equal Ok). rewrite !map_map, hd_Q2R. apply map_ext. intros x. symmetry. apply Q2R_minus.
Qed.

Lemma map_result_bcast_Q2R vs arr :
  map_result (fun row => @bcast_sub R Numeric_R row (map Q2R arr)) (map (map Q2R) vs)
  = match map_result (fun row => @bcast_sub Q Numeric_Q row arr) vs with
    | Ok ds => Ok (map (map Q2R) ds) | Err e => Err e end.
Proof.
  induction vs as [|v vs IH]; [reflexivity|]. cbn [map map_result].
  rewrite bcast_sub_Q2R. destruct (bcast_sub v arr); [|reflexivity]. cbn [bind].
  rewrite IH. now destruct (map_result _ vs).
Qed.

Lemma sum_sq_Q2R v : sum_sq_R (map Q2R v) = Q2R (sum_sq v).
Proof.
  induction v as [|x v IH]; simpl; [symmetry; apply Q2R_0|].
  rewrite IH, Q2R_plus, Q2R_mult. reflexivity.
Qed.

Lemma Rltb_Q2R x y : Rltb (Q2R x) (Q2R y) = negb (Qle_bool y x).
Proof.
  destruct (Qle_bool y x) eqn:E; simpl.
  - apply Rltb_false. apply Qle_Rle, Qle_bool_iff, E.
  - apply Rltb_spec. apply Qlt_Rlt. apply Qnot_le_lt. intros H. apply Qle_bool_iff in H. congruence.
Qed.

(** The executable search over [Q] (squared norm, exact
    arithmetic) returns the key the search over the reals with
    [np.linalg.norm] (the square root of the sum of squares) returns, on
    the same table and vector read as reals, errors included: minimising
    the squared distance is minimising the distance. *)
Lemma reverser_Q_R (tbl : @dict Q) (arr : list Q) :
  @reverser Q Numeric_Q tbl arr = @reverser R Numeric_R (tbl_R tbl) (map Q2R arr).
Proof.
  rewrite reverser_norm_squared. unfold reverser.
  change (@eff_vec R Numeric_Rsq) with (@eff_vec R Numeric_R).
  change (@bcast_sub R Numeric_Rsq) with (@bcast_sub R Numeric_R).
  replace (map (fun item => @eff_vec R Numeric_R (snd item)) (tbl_R tbl))
    with (map (map Q2R) (map (fun item => @eff_vec Q Numeric_Q (snd item)) tbl))
    by (unfold tbl_R; rewrite !map_map; apply map_ext; intros kv; symmetry; apply eff_vec_Q2R).
  destruct (map (fun item => eff_vec (snd item)) tbl) as [|r rs] eqn:Ev; [reflexivity|].
  change (map (map Q2R) (r :: rs)) with (map Q2R r :: map (map Q2R) rs).
  change (map Q2R r :: map (map Q2R) rs) with (map (map Q2R) (r :: rs)).
  rewrite np_array2_map, map_result_bcast_Q2R.
  destruct (np_array2 (r :: rs)) as [sh|e]; [|reflexivity]. cbn [bind].
  destruct (map_result _ (r :: rs)) as [diffs|e]; [|reflexivity]. cbn [bind].
  rewrite map_map.
  rewrite (argmin_map (@num_ltb Q Numeric_Q) (@num_ltb R Numeric_Rsq)
             (@num_norm Q Numeric_Q) (fun d => @num_norm R Numeric_Rsq (map Q2R d)) diffs).
  - cbn [map]. destruct (argmin _ _) as [i|e]; [|reflexivity]. cbn [bind].
    unfold tbl_R. rewrite nth_error_map. destruct (nth_error tbl i) as [[k v]|]; reflexivity.
  - intros a b _ _. cbn [num_ltb num_norm Numeric_Q Numeric_Rsq].
    rewrite !sum_sq_Q2R, Rltb_Q2R. reflexivity.
Qed.

(** ** The sample shown at the end of an epoch (lines 427-441) *)

(** [tx11 = np.array([item[0] for item in s])] for [s = [last_batch[r]]]:
    a batch of one window. *)
Definition np_batch1 (xs : list (list R)) : result tensor :=
  let* sh := np_array2 xs in Ok (mk_tensor (1%nat :: sh) (concat xs)).

Fixpoint rows (n m : nat) (l : list R) : list (list R) :=
  match n with
  | O => []
  | S n' => firstn m l :: rows n' m (skipn m l)
  end.

(** [a = res[0]] for the rank-3 prediction [res], as the list of its rows
    ([for s in a] iterates them); [res[0]] of an empty batch raises. *)
Definition first_rows (res : tensor) : result (list (list R)) :=
  match shape res with
  | [b; n; m] => if (0 <? b)%nat then Ok (rows n m (data res)) else Err IndexError
  | _ => Err ShapeError
  end.

(** Line 441: [list(map(lambda s: int(reverser(s)), a))], the ids handed to
    [tokenizer.decode]. *)
Definition predict_ids (vw2v : @dict R) (a : list (list R)) : result (list Z) :=
  map_result (fun s => let* key := reverser vw2v s in py_int key) a.

(** Lines 427-441 once the window [w = last_batch[r]] is drawn:
    [model.predict(tx11)], then the INPUT, REAL and PREDICT lines, in the
    order the code logs them. *)
Definition show_sample (decode : list Z -> string) (model : tensor -> result tensor)
  (vw2v : @dict R) (w : list (list R) * list (list R)) : result (string * string * string) :=
  let* tx11 := np_batch1 (fst w) in
  let* res := model tx11 in
  let* a := first_rows res in
  let* input_ids := reparse_ids vw2v (fst w) in
  let* real_ids := reparse_ids vw2v (snd w) in
  let* predicted_ids := predict_ids vw2v a in
  Ok (decode input_ids, decode real_ids, decode predicted_ids).

(** [reparse] (line 257) and the decoding of line 441 hand the same ids to
    [tokenizer.decode] when no row is empty. *)
Lemma reparse_predict_ids (vw2v : @dict R) (v : list (list R)) :
  Forall (fun item => item <> []) v -> reparse_ids vw2v v = predict_ids vw2v v.
Proof.
  intros Hne. unfold reparse_ids, predict_ids.
  assert (E : map_result (fun item => match item with
                                       | [] => Ok None
                                       | _ => let* key := reverser vw2v item in
                                              let* z := py_int key in Ok (Some z)
                                       end) v
              = match map_result (fun s => let* key := reverser vw2v s in py_int key) v with
                | Ok zs => Ok (map Some zs) | Err e => Err e end).
  { induction Hne as [|item v Hi _ IH]; [reflexivity|]. cbn [map_result].
    destruct item as [|x item]; [contradiction|].
    destruct (reverser vw2v (x :: item)) as [key|e]; [|reflexivity]. cbn [bind].
    destruct (py_int key); [|reflexivity]. cbn [bind]. rewrite IH.
    now destruct (map_result (fun s => let* key0 := reverser vw2v s in py_int key0) v). }
  rewrite E. clear E.
  destruct (map_result (fun s => let* key := reverser vw2v s in py_int key) v) as [zs|e];
    cbn [bind]; [now rewrite collect_some|reflexivity].
Qed.

(** A model whose prediction is the window's target rows makes the
    PREDICT line equal to the REAL line. *)
Lemma show_sample_perfect decode model (vw2v : @dict R) w tx11 res :
  np_batch1 (fst w) = Ok tx11 -> model tx11 = Ok res -> first_rows res = Ok (snd w) ->
  Forall (fun item => item <> []) (snd w) ->
  show_sample decode model vw2v w
  = let* input_ids := reparse_ids vw2v (fst w) in
    let* real_ids := reparse_ids vw2v (snd w) in
    Ok (decode input_ids, decode real_ids, decode real_ids).
Proof.
  intros E1 E2 E3 Hne. unfold show_sample. rewrite E1. cbn [bind]. rewrite E2. cbn [bind].
  rewrite E3. cbn [bind]. destruct (reparse_ids vw2v (fst w)); [|reflexivity]. cbn [bind].
  rewrite <- (reparse_predict_ids vw2v (snd w) Hne).
  destruct (reparse_ids vw2v (snd w)); reflexivity.
Qed.

(** ** The display on the script's model *)

(** The keys of the dictionary are token ids [int()] accepts (the first
    column of [vec.vec]). *)
Definition keys_int (vw2v : @dict R) : Prop :=
  forall kv, In kv vw2v -> exists z, py_int (fst kv) = Ok z.

Lemma rows_length n m l : length (rows n m l) = n.
Proof. revert l; induction n as [|n IH]; intros l; simpl; [reflexivity|now rewrite IH]. Qed.

Lemma rows_width n m l : (n * m <= length l)%nat -> Forall (fun r => length r = m) (rows n m l).
Proof.
  revert l; induction n as [|n IH]; intros l Hl; simpl; constructor.
  - rewrite length_firstn. lia.
  - apply IH. rewrite length_skipn. lia.
Qed.

Lemma length_concat_uniform (xs : list (list R)) m :
  Forall (fun x => length x = m) xs -> length (concat xs) = (length xs * m)%nat.
Proof. induction 1; simpl; [reflexivity|]. rewrite length_app. lia. Qed.

Lemma np_batch1_ok xs m :
  (0 < length xs)%nat -> Forall (fun x => length x = m) xs ->
  np_batch1 xs = Ok (mk_tensor [1%nat; length xs; m] (concat xs))
  /\ wf (mk_tensor [1%nat; length xs; m] (concat xs)).
Proof.
  intros Hn Hw. unfold np_batch1.
  rewrite (np_array2_uniform m) by (apply Forall_forall, Hw).
  rewrite (shape2_uniform m) by (apply Forall_forall, Hw).
  destruct xs as [|x xs']; [simpl in Hn; lia|]. split; [reflexivity|].
  unfold wf, size. cbn [shape data fold_right]. rewrite (length_concat_uniform _ m Hw). lia.
Qed.

Lemma first_rows_ok res n m :
  shape res = [1%nat; n; m] -> wf res ->
  first_rows res = Ok (rows n m (data res)) /\ Forall (fun r => length r = m) (rows n m (data res))
  /\ length (rows n m (data res)) = n.
Proof.
  intros Hs Hw. unfold first_rows. rewrite Hs. split; [reflexivity|]. split; [|apply rows_length].
  apply rows_width. unfold wf, size in Hw. rewrite Hw, Hs. simpl. lia.
Qed.

(** Decoding rows of the table's width never raises when the keys are
    token ids: one id per row. *)
Lemma predict_ids_ok (vw2v : @dict R) (a : list (list R)) m :
  vw2v <> [] -> table_width vw2v m -> keys_int vw2v -> Forall (fun r => length r = m) a ->
  exists ids, predict_ids vw2v a = Ok ids /\ length ids = length a.
Proof.
  intros Hne Htw Hk Ha. apply map_result_exists. intros r Hr.
  rewrite Forall_forall in Ha. rewrite <- (Ha r Hr) in Htw.
  destruct (reverser_some_row vw2v r Hne Htw) as [key [v [-> Hin]]]. cbn [bind].
  exact (Hk _ Hin).
Qed.


(** C18: the display at the end of an epoch on the model [run()] builds.
    For a window of [sequenceSize] input rows and target rows all of the
    dictionary's width [d], a dictionary of rows of width [d] keyed by
    token ids, the layers the script constructs and weights of Keras's
    shapes, the INPUT, REAL and PREDICT lines are produced (one
    predicted id per position) if and only if [arrayDimension] and
    [predictSteps] both equal [d]; otherwise [model.predict] raises
    before anything is logged. *)
Theorem show_sample_ok c L1 L2 mw keep1 keep2 decode (vw2v : @dict R) d xs ys :
  make_layers c = Ok (L1, L2) -> model_fit c mw -> (0 < dimension c)%nat ->
  (0 < sequenceSize c)%nat -> (0 < d)%nat ->
  length xs = sequenceSize c -> Forall (fun x => length x = d) xs ->
  Forall (fun y => length y = d) ys ->
  vw2v <> [] -> table_width vw2v d -> keys_int vw2v ->
  (exists i r p, show_sample decode (forward c L1 L2 mw keep1 keep2) vw2v (xs, ys)
                 = Ok (decode i, decode r, decode p) /\ length p = sequenceSize c)
  <-> arrayDimension c = d /\ predictSteps c = d.
Proof.
  intros Hl Hf Hd Hs Hdpos Hxn Hxw Hyw Hne Htw Hk.
  assert (Hnil : forall v : list (list R), Forall (fun r => length r = d) v -> Forall (fun r => r <> []) v).
  { intros v Hv. eapply Forall_impl; [|exact Hv]. intros r Hr ->. simpl in Hr. lia. }
  destruct (np_batch1_ok xs d) as [Eb Wb]; [lia|exact Hxw|]. rewrite Hxn in Eb, Wb.
  unfold show_sample. cbn [fst snd]. rewrite Eb. cbn [bind]. split.
  - intros (i & r & p & E & _).
    destruct (Nat.eq_dec (predictSteps c) d) as [HP|HP].
    + split; [|exact HP]. destruct (Nat.eq_dec (arrayDimension c) d) as [HA|HA]; [exact HA|].
      destruct (forward_mismatch c L1 L2 mw keep1 keep2 Hl Hf Hd _ 1 Wb) as [e He];
        [cbn; now rewrite HP | lia | lia | lia|].
      rewrite He in E. discriminate.
    + unfold forward in E. cbn [shape] in E. rewrite Nat.eqb_refl in E.
      destruct (Nat.eqb_spec d (predictSteps c)); [lia|discriminate].
  - intros [HA HP].
    destruct (forward_ok c L1 L2 mw keep1 keep2 Hl Hf Hd Hs _ 1 Wb) as (y & Ey & Sy & Wy);
      [cbn; congruence | lia | lia | lia|].
    rewrite Ey. cbn [bind].
    destruct (first_rows_ok y _ _ Sy Wy) as (Ea & Wa & La). rewrite HA in Ea, Wa, La.
    rewrite Ea. cbn [bind].
    destruct (predict_ids_ok vw2v xs d Hne Htw Hk Hxw) as [i [Ei _]].
    destruct (predict_ids_ok vw2v ys d Hne Htw Hk Hyw) as [r [Er _]].
    destruct (predict_ids_ok vw2v _ d Hne Htw Hk Wa) as [p [Ep Lp]].
    rewrite (reparse_predict_ids vw2v xs (Hnil _ Hxw)), Ei. cbn [bind].
    rewrite (reparse_predict_ids vw2v ys (Hnil _ Hyw)), Er. cbn [bind]. rewrite Ep.
    exists i, r, p. split; [reflexivity|]. now rewrite Lp, La.
Qed.

Definition ex_rows : list (list R) := repeat (repeat 0 8) 512.

Definition ex_dict : @dict R := [("1"%string, repeat 0 8)].

Lemma ex_rows_width : Forall (fun x => length x = 8%nat) ex_rows.
Proof. apply Forall_forall. intros x Hx. apply repeat_spec in Hx. now subst x. Qed.

(** The script's configuration, its model and a window of zeros. *)
Lemma show_sample_ok_witness :
  (exists i r p : list Z, show_sample (fun _ => EmptyString)
                   (forward default_cfg (fst default_layers) (snd default_layers) default_weights
                      (fun _ => true) (fun _ => true)) ex_dict (ex_rows, ex_rows)
                 = Ok (EmptyString, EmptyString, EmptyString) /\ length p = 512%nat)
  <-> 8%nat = 8%nat /\ 8%nat = 8%nat.
Proof.
  apply (show_sample_ok default_cfg _ _ _ _ _ (fun _ => EmptyString) ex_dict 8 ex_rows ex_rows);
    [reflexivity | | cbv; lia | cbv; lia | lia | reflexivity | exact ex_rows_width
    | exact ex_rows_width | discriminate | | ].
  - constructor; try reflexivity; constructor; reflexivity.
  - intros kv [<-|[]]. reflexivity.
  - intros kv [<-|[]]. now exists 1%Z.
Defined.

End Decode.
