(* ===== verification/Training.v ===== *)
(** * The training glue of [src/train.py]

    [Module Adler]: [addler] (lines 196-204), with Python's [%] (the sign
    of the divisor, [ZeroDivisionError] on [0]) and its closed form.
    [Module Split]: [hash_based_split] (lines 286-296), the MD5 digest a
    parameter, [hash_num] exact (the float rounding of a 128-bit integer
    is not modelled), the two listings of the books (line 210, never
    read, and line 279) and the split of the second (line 298).  [Module Schedule]: [decay_steps] (line 69) and the
    staircase [ExponentialDecay] the optimizer is built with (lines
    72-79).  [Module EpochEnd]: [on_epoch_end] (lines 407-465) as the list
    of its effects and the checkpoint it leaves, the sessions of epochs
    [model.fit] runs (lines 467-477), and the resumption from the
    checkpoint (lines 61-65). *)

From Stdlib Require Import String List Permutation Arith Lia ZArith QArith Reals Lra Setoid Morphisms.
From S2P Require Import Prelude Config.
Import ListNotations.
Open Scope fjlm_scope.

Module Adler.

Local Open Scope Z_scope.

(** One pass of [for value in data]: [a = (a + value) % MOD_ADLER],
    [b = (b + a) % MOD_ADLER]. *)
Definition addler_step (MOD_ADLER : Z) (acc : result (Z * Z)) (value : Z) : result (Z * Z) :=
  let* '(a, b) := acc in
  if MOD_ADLER =? 0 then Err ZeroDivisionError
  else let a := (a + value) mod MOD_ADLER in Ok (a, (b + a) mod MOD_ADLER).

Definition addler (data : list Z) (MOD_ADLER : Z) : result Z :=
  let* '(_, b) := fold_left (addler_step MOD_ADLER) data (Ok (1, 0)) in Ok b.

Definition zsum (l : list Z) : Z := fold_right Z.add 0 l.

(** The reference: [b] is the sum, over the prefixes of [data], of
    [1 + sum(prefix)], reduced modulo [MOD_ADLER]. *)
Definition adler_b (data : list Z) : Z :=
  zsum (map (fun i => 1 + zsum (firstn i data)) (seq 1 (length data))).

Lemma zsum_app l1 l2 : zsum (l1 ++ l2) = zsum l1 + zsum l2.
Proof. unfold zsum. rewrite fold_right_app. induction l1; simpl; lia. Qed.

Lemma adler_b_snoc l v : adler_b (l ++ [v]) = adler_b l + (1 + zsum (l ++ [v])).
Proof.
  unfold adler_b. rewrite length_app, seq_app, map_app, zsum_app. cbn [length seq map].
  f_equal; [|unfold zsum at 1; cbn [fold_right]; rewrite firstn_all2 by (rewrite length_app; simpl; lia); lia].
  f_equal. apply map_ext_in. intros i Hi. apply in_seq in Hi.
  rewrite firstn_app, (proj2 (Nat.sub_0_le i (length l))) by lia. simpl. now rewrite app_nil_r.
Qed.

Section Loop.

Variable MOD_ADLER : Z.
Hypothesis Hm : MOD_ADLER <> 0.

Lemma mod_congr_add x y y' : y mod MOD_ADLER = y' mod MOD_ADLER ->
  (x + y) mod MOD_ADLER = (x + y') mod MOD_ADLER.
Proof. intros H. now rewrite <- Zplus_mod_idemp_r, H, Zplus_mod_idemp_r. Qed.

(** The loop invariant: [a] is [1 + sum(data[:i])] and [b] the reference,
    both modulo [MOD_ADLER]. *)
Lemma addler_loop l :
  exists a, fold_left (addler_step MOD_ADLER) l (Ok (1, 0)) = Ok (a, adler_b l mod MOD_ADLER) /\
            a mod MOD_ADLER = (1 + zsum l) mod MOD_ADLER.
Proof.
  induction l as [|v l (a & E & Ha)] using rev_ind.
  - exists 1. split; [now rewrite Z.mod_0_l|reflexivity].
  - rewrite fold_left_app, E. cbn [fold_left]. unfold addler_step. cbn [bind].
    rewrite (proj2 (Z.eqb_neq _ _) Hm). eexists. split; [f_equal; f_equal|].
    + rewrite Zplus_mod_idemp_l, Zplus_mod_idemp_r, adler_b_snoc, zsum_app.
      replace (adler_b l + (a + v)) with (adler_b l + v + a) by lia.
      rewrite (mod_congr_add _ _ _ Ha). replace (zsum [v]) with v by (cbn; lia). f_equal. lia.
    + rewrite Z.mod_mod, zsum_app by exact Hm.
      replace (a + v) with (v + a) by lia. rewrite (mod_congr_add _ _ _ Ha).
      replace (zsum [v]) with v by (cbn; lia). f_equal. lia.
Qed.

End Loop.

(** For a non-zero modulus, [addler] returns the sum over the
    prefixes [data[:i]] ([1 <= i <= len(data)]) of [1 + sum(data[:i])],
    reduced modulo [MOD_ADLER] with Python's [%]. *)
Theorem addler_closed_form data MOD_ADLER :
  MOD_ADLER <> 0 -> addler data MOD_ADLER = Ok (adler_b data mod MOD_ADLER).
Proof.
  intros Hm. unfold addler. destruct (addler_loop MOD_ADLER Hm data) as (a & -> & _). reflexivity.
Qed.

Lemma addler_closed_form_witness : addler [3; 4; -5] 7 = Ok 1.
Proof. rewrite (addler_closed_form [3; 4; -5] 7) by lia. reflexivity. Defined.

End Adler.

Module Split.

Local Open Scope Q_scope.

Section Split.

(** [int(hashlib.md5(filename.encode()).hexdigest(), 16)]. *)
Variable md5 : string -> Z.

(** [int(hash_val, 16) / float(1 << 128)]. *)
Definition hash_num (filename : string) : Q := Qmake (md5 filename) (Pos.pow 2 128).

Definition is_test (test_split : Q) (filename : string) : bool :=
  negb (Qle_bool test_split (hash_num filename)).

Definition split_step (test_split : Q) (acc : list string * list string) (filename : string)
  : list string * list string :=
  let '(train_files, test_files) := acc in
  if is_test test_split filename then (train_files, test_files ++ [filename])
  else (train_files ++ [filename], test_files).

Definition hash_based_split (filenames : list string) (test_split : Q) : list string * list string :=
  fold_left (split_step test_split) filenames ([], []).

Lemma split_fold test_split l tr te :
  fold_left (split_step test_split) l (tr, te)
  = (tr ++ filter (fun f => negb (is_test test_split f)) l, te ++ filter (is_test test_split) l).
Proof.
  revert tr te. induction l as [|f l IH]; intros tr te; simpl; [now rewrite !app_nil_r|].
  destruct (is_test test_split f); simpl; rewrite IH, <- app_assoc; reflexivity.
Qed.

(** C24: [hash_based_split] (lines 286-296) sends a file to the test list
    exactly when [md5(name) / 2^128 < test_split] (strictly: a hash equal
    to [test_split] goes to training), and to the training list
    otherwise, each list keeping the input order: a file's side depends
    on its name only, so adding or removing files never moves another
    file between train and test. *)
Theorem hash_based_split_filter filenames test_split :
  hash_based_split filenames test_split
  = (filter (fun f => Qle_bool test_split (md5 f # 2 ^ 128)) filenames,
     filter (fun f => negb (Qle_bool test_split (md5 f # 2 ^ 128))) filenames)
  /\ forall f,
     (In f (snd (hash_based_split filenames test_split)) <-> In f filenames /\ md5 f # 2 ^ 128 < test_split)
     /\ (In f (fst (hash_based_split filenames test_split)) <-> In f filenames /\ test_split <= md5 f # 2 ^ 128).
Proof.
  unfold hash_based_split. rewrite split_fold. cbn [app fst snd]. split.
  - unfold is_test, hash_num. f_equal. apply filter_ext. intros f. apply negb_involutive.
  - intros f. rewrite !filter_In. unfold is_test, hash_num.
    rewrite negb_involutive, negb_true_iff, Qle_bool_iff.
    split; split; intros [H1 H2]; split; auto.
    + apply Qnot_le_lt. intros Hle. apply Qle_bool_iff in Hle. congruence.
    + apply not_true_iff_false. rewrite Qle_bool_iff. apply Qlt_not_le, H2.
Qed.

(** [file.endswith(suffix)]. *)
Definition ends_with (suffix s : string) : bool :=
  (String.length suffix <=? String.length s)%nat
  && String.eqb (substring (String.length s - String.length suffix) (String.length suffix) s) suffix.

(** Line 279: [[file for file in os.listdir('./data') if file.endswith('.txt')
    and not file.startswith('.DS_Store')]]. *)
Definition list_books (files : list string) : list string :=
  filter (fun file => ends_with ".txt" file && negb (String.prefix ".DS_Store" file)) files.

(** Lines 279-280 and 298: the listing, [random.shuffle(books)] (the
    permutation [shuffle] draws), and [hash_based_split(books,
    test_split=0.2)]. *)
Definition train_val_books (shuffle : list string -> list string) (files : list string)
  : list string * list string :=
  hash_based_split (shuffle (list_books files)) (2 # 10).

(** [os.path.join(root, file)] for a [file] without a separator (the
    names [os.walk] lists): a [/] is inserted unless [root] is empty or
    already ends with one. *)
Definition path_join (root file : string) : string :=
  if String.eqb root "" then file
  else if ends_with "/" root then root ++ file else root ++ "/" ++ file.

(** Line 210: [[os.path.join(root, file) for root, dirs, files in
    os.walk('./data') for file in files if not
    file.endswith('.DS_Store')]], [walk] being the triples [os.walk]
    yields, in its order. *)
Definition walk_books (walk : list (string * list string * list string)) : list string :=
  flat_map (fun '(root, _, files) =>
              map (path_join root) (filter (fun file => negb (ends_with ".DS_Store" file)) files))
    walk.

(** The paths line 210 lists: every file of every directory of the walk,
    joined to its directory, except the [.DS_Store] files. *)
Lemma walk_books_spec walk p :
  In p (walk_books walk)
  <-> exists root dirs files file, In (root, dirs, files) walk /\ In file files
                                   /\ ends_with ".DS_Store" file = false /\ p = path_join root file.
Proof.
  unfold walk_books. rewrite in_flat_map. split.
  - intros [[[root dirs] files] [Hw Hp]]. apply in_map_iff in Hp as [file [<- Hf]].
    apply filter_In in Hf as [Hf Hn]. apply negb_true_iff in Hn. eauto 10.
  - intros (root & dirs & files & file & Hw & Hf & Hn & ->). exists (root, dirs, files).
    split; [exact Hw|]. apply in_map, filter_In. split; [exact Hf|]. now rewrite Hn.
Qed.

(** Line 210 lists paths under ['./data'], subdirectories and non-text
    files included; line 279 rebinds [books] to the bare [.txt] names of
    the top directory, so the first list is never read. *)
Lemma walk_books_example :
  walk_books [("./data", ["sub"], ["a.txt"; ".DS_Store"; "n.md"]); ("./data/sub", [], ["b.txt"])]%string
  = ["./data/a.txt"; "./data/n.md"; "./data/sub/b.txt"]%string
  /\ list_books ["a.txt"; ".DS_Store"; "n.md"; "sub"]%string = ["a.txt"]%string.
Proof. split; reflexivity. Qed.

(** A listing with a hidden macOS file and a non-text file. *)
Lemma list_books_example :
  list_books ["a.txt"; ".DS_Store"; "notes.md"; ".DS_Store.txt"; "b.txt"]%string
  = ["a.txt"; "b.txt"]%string.
Proof. reflexivity. Qed.

Lemma filter_split_perm (f : string -> bool) l :
  Permutation (filter (fun x => negb (f x)) l ++ filter f l) l.
Proof.
  induction l as [|a l IH]; simpl; [constructor|].
  destruct (f a); simpl; [|now constructor].
  rewrite <- Permutation_middle. now constructor.
Qed.

(** Whatever the shuffle, the two lists partition the listed books, and a
    book is a test book exactly when its hash is below [0.2]. *)
Lemma train_val_books_partition (shuffle : list string -> list string) files :
  Permutation (shuffle (list_books files)) (list_books files) ->
  Permutation (fst (train_val_books shuffle files) ++ snd (train_val_books shuffle files))
              (list_books files)
  /\ (forall f, In f (snd (train_val_books shuffle files))
                <-> In f (list_books files) /\ is_test (2 # 10) f = true).
Proof.
  intros Hp. unfold train_val_books, hash_based_split. rewrite split_fold. cbn [fst snd app].
  split; [rewrite filter_split_perm; exact Hp|].
  intros f. rewrite filter_In. split; intros [H1 H2]; split; auto;
    [apply (Permutation_in _ Hp) | apply (Permutation_in _ (Permutation_sym Hp))]; exact H1.
Qed.

End Split.

End Split.

Module Schedule.

Local Open Scope R_scope.

Definition max_iters : Z := 10000.
Definition learning_rate : R := 5 / 10000.
Definition decay_rate : R := 96 / 100.

(** [decay_steps = max_iters - checkpoint_data['last_epoch']]. *)
Definition decay_steps (last_epoch : Z) : Z := (max_iters - last_epoch)%Z.

(** [ExponentialDecay(initial, decay_steps, decay_rate, staircase=True)] at
    [step]: [initial * decay_rate ^ floor(step / decay_steps)]; with
    [decay_steps = 0] the exponent is not finite and no rate is defined. *)
Definition exponential_decay (initial : R) (ds : Z) (rate : R) (step : Z) : option R :=
  if (ds =? 0)%Z then None else Some (initial * powerRZ rate (step / ds)).

(** The optimizer's schedule (lines 67-79). *)
Definition lr_schedule (last_epoch step : Z) : option R :=
  exponential_decay learning_rate (decay_steps last_epoch) decay_rate step.

(** The staircase formula on one stair. *)
Lemma exponential_decay_stairs initial ds rate q j :
  (0 < ds)%Z -> (0 <= j < ds)%Z ->
  exponential_decay initial ds rate (q * ds + j) = Some (initial * powerRZ rate q).
Proof.
  intros Hds Hj. unfold exponential_decay. rewrite (proj2 (Z.eqb_neq ds 0)) by lia.
  do 3 f_equal. rewrite Z.add_comm, Z.div_add, Z.div_small by lia. lia.
Qed.

(** C23: while the checkpoint's [last_epoch] is below 10000, the
    optimizer's rate is constant on stairs of [10000 - last_epoch] steps
    (lines 67-79): at step [q * (10000 - last_epoch) + j] with
    [0 <= j < 10000 - last_epoch] it is [0.0005 * 0.96 ^ q].  The stair
    length, the initial rate and the decay rate are the script's
    numbers, not the names of the model. *)
Theorem lr_schedule_stairs last_epoch q j :
  (last_epoch < 10000)%Z -> (0 <= j < 10000 - last_epoch)%Z ->
  lr_schedule last_epoch (q * (10000 - last_epoch) + j) = Some (5 / 10000 * powerRZ (96 / 100) q).
Proof.
  intros H Hj. apply exponential_decay_stairs; [unfold decay_steps, max_iters; lia|exact Hj].
Qed.

Lemma lr_schedule_stairs_witness :
  lr_schedule 9900 150 = Some (5 / 10000 * powerRZ (96 / 100) 1).
Proof. apply (lr_schedule_stairs 9900 1 50); lia. Defined.

(** One stair back multiplies the rate by [/ rate]. *)
Lemma exponential_decay_prev initial ds rate step x :
  rate <> 0 -> exponential_decay initial ds rate step = Some x ->
  exponential_decay initial ds rate (step - ds) = Some (x / rate).
Proof.
  unfold exponential_decay. destruct (Z.eqb_spec ds 0) as [|Hds]; [discriminate|].
  intros Hr E. injection E as <-. f_equal.
  replace (step - ds)%Z with (step + (-1) * ds)%Z by lia. rewrite Z.div_add by exact Hds.
  rewrite powerRZ_add by exact Hr. simpl. field. exact Hr.
Qed.

(** C22: once the checkpoint's [last_epoch] passes [max_iters = 10000],
    [decay_steps] is negative and the learning rate grows with the step:
    [|decay_steps|] steps later it is divided by [decay_rate = 0.96]; at
    [last_epoch = 10000] exactly the schedule is undefined. *)
Theorem lr_schedule_grows last_epoch step :
  (max_iters < last_epoch)%Z ->
  exists x y, lr_schedule last_epoch step = Some x /\
              lr_schedule last_epoch (step + (last_epoch - max_iters)) = Some y /\ 0 < x < y.
Proof.
  intros H. unfold lr_schedule.
  assert (Hd : decay_steps last_epoch <> 0%Z) by (unfold decay_steps; lia).
  set (x := learning_rate * powerRZ decay_rate (step / decay_steps last_epoch)).
  assert (Ex : exponential_decay learning_rate (decay_steps last_epoch) decay_rate step = Some x)
    by (unfold exponential_decay; now rewrite (proj2 (Z.eqb_neq _ _) Hd)).
  assert (Hx : 0 < x) by (apply Rmult_lt_0_compat; [unfold learning_rate; lra|apply powerRZ_lt; unfold decay_rate; lra]).
  exists x, (x / decay_rate). split; [exact Ex|split].
  - replace (step + (last_epoch - max_iters))%Z with (step - decay_steps last_epoch)%Z
      by (unfold decay_steps; lia).
    apply exponential_decay_prev; [unfold decay_rate; lra|exact Ex].
  - split; [exact Hx|]. unfold decay_rate. lra.
Qed.

Lemma lr_schedule_grows_witness :
  exists x y, lr_schedule 10001 0 = Some x /\ lr_schedule 10001 (0 + (10001 - max_iters)) = Some y /\ 0 < x < y.
Proof. apply lr_schedule_grows. unfold max_iters. lia. Defined.

Lemma lr_schedule_undefined : lr_schedule max_iters 0 = None.
Proof. reflexivity. Qed.

End Schedule.

Module EpochEnd.

Local Open Scope nat_scope.

Section EpochEnd.

(** The windows [last_batch] holds (pairs of converted arrays). *)
Context {W : Type}.

(** The script's constant [wandb_log = True]. *)
Definition wandb_log : bool := true.

Inductive effect : Type :=
| SaveModel                        (** [model.save(model_path)] *)
| WriteCheckpoint (last_epoch : nat) (** [json.dump(checkpoint_data, file)] *)
| ShowSample (w : W)               (** [model.predict] and the three [reparse] logs;
                                       their failures are modelled by
                                       [Decode.show_sample], and never
                                       happen with the script's [cfg]
                                       ([Decode.show_sample_ok]) *)
| WandbLog (iter tokens : nat)     (** [wandb.log({...})] that returned *)
| WandbFailed.                     (** [logging.error(...)] in its [except] *)

(** [estimate_loss(model, dataset, eval_iters)] on a dataset of
    [val_batches] batches: [next(dataset_iter)] raises [StopIteration]
    once they are used up (lines 300-311).  [Loss.estimate_loss] models
    the loop in full and refines this outcome. *)
Definition estimate_loss (val_batches eval_iters : nat) : result unit :=
  if eval_iters <=? val_batches then Ok tt else Err StopIteration.

Variable c : cfg.

(** [iters = 100; if cfg['batchSize'] >= 512: iters = 10] (lines 444-446). *)
Definition eval_iters : nat := if 512 <=? batchSize c then 10 else 100.

(** [len(train_books)] and the number of batches of [val_dataset]. *)
Variable n_train_books val_batches : nat.

(** What the [try] of lines 452-463 meets at the end of each epoch: the
    record ([logs["accuracy"]] included) is built and [wandb.log]
    returns, or one of them raises. *)
Variable wandb_result : nat -> result unit.

(** [on_epoch_end(epoch, logs)]; [last_epoch] is the module value read
    from the checkpoint at start, [r] the draw of [random.randint(0,
    len(last_batch) - 1)], [ck] the [last_epoch] held by [checkpoint_data];
    the result is the new [checkpoint_data['last_epoch']]. *)
Definition on_epoch_end (last_epoch : nat) (last_batch : list W) (epoch r ck : nat) : gen effect nat :=
  match last_batch with
  | [] => gret ck
  | _ =>
      do% _ <- gyield SaveModel ;;
      let ck' := last_epoch + epoch in
      do% _ <- gyield (WriteCheckpoint ck') ;;
      do% w <- glift (match nth_error last_batch r with Some w => Ok w | None => Err IndexError end) ;;
      do% _ <- (if epoch mod 10 =? 0 then gyield (ShowSample w) else gret tt) ;;
      if wandb_log then
        do% _ <- glift (estimate_loss val_batches eval_iters) ;;
        do% _ <- gcatch (do% _ <- glift (wandb_result epoch) ;;
                         gyield (WandbLog (last_epoch + epoch) ((last_epoch + epoch) * n_train_books / 128)))
                        (fun _ => gyield WandbFailed) ;;
        gret ck'
      else gret ck'
  end.

(** The epochs [epoch, epoch + count) of one [model.fit], [last_batch] and
    the draw at each epoch end given by [lbs] and [rs]. *)
Fixpoint epochs_from (last_epoch : nat) (lbs : nat -> list W) (rs : nat -> nat)
  (epoch count ck : nat) : gen effect nat :=
  match count with
  | 0 => gret ck
  | S count' =>
      do% ck' <- on_epoch_end last_epoch (lbs epoch) epoch (rs epoch) ck ;;
      epochs_from last_epoch lbs rs (S epoch) count' ck'
  end.

(** One run of the script: [last_epoch] is read from the checkpoint (lines
    61-65) and [model.fit] runs [epochs] epochs from epoch 0. *)
Definition session (last_epoch : nat) (lbs : nat -> list W) (rs : nat -> nat) (epochs : nat)
  : gen effect nat :=
  epochs_from last_epoch lbs rs 0 epochs last_epoch.

(** [epochs=len(train_books) // 128] and [steps_per_epoch =
    len(train_books) // cfg['batchSize']] (lines 467-472). *)
Definition fit_args (n_books : nat) : result (nat * nat) :=
  if batchSize c =? 0 then Err ZeroDivisionError else Ok (n_books / 128, n_books / batchSize c).

Definition logged_iters (evs : list effect) : list nat :=
  flat_map (fun ev => match ev with WandbLog i _ => [i] | _ => [] end) evs.

Lemma sample_ok (lb : list W) r : r < length lb ->
  exists w, (match nth_error lb r with Some w => Ok w | None => Err IndexError end) = Ok w.
Proof. intros H. destruct (nth_error lb r) eqn:E; [eauto|]. apply nth_error_None in E. lia. Qed.

Lemma show_ok epoch (w : W) :
  exists evs, (if epoch mod 10 =? 0 then gyield (ShowSample w) else gret tt) = (evs, Ok tt) /\
              logged_iters evs = [].
Proof. destruct (epoch mod 10 =? 0); eexists; split; reflexivity. Qed.

Section Good.

Hypothesis Hval : eval_iters <= val_batches.
Hypothesis Hwandb : forall e, wandb_result e = Ok tt.

(** An epoch end with a non-empty [last_batch] saves, writes the
    checkpoint [last_epoch + epoch] and logs that iteration. *)
Lemma on_epoch_end_ok last_epoch lb epoch r ck :
  lb <> [] -> r < length lb ->
  exists evs, on_epoch_end last_epoch lb epoch r ck = (evs, Ok (last_epoch + epoch)) /\
              logged_iters evs = [last_epoch + epoch].
Proof.
  intros Hlb Hr. destruct (sample_ok lb r Hr) as [w Hw]. destruct (show_ok epoch w) as (evs & Hs & Hl).
  unfold on_epoch_end. destruct lb as [|x lb']; [congruence|].
  rewrite !gbind_yield, Hw, gbind_lift_ok, Hs. unfold wandb_log, estimate_loss.
  rewrite (proj2 (Nat.leb_le _ _) Hval), Hwandb. cbn. eexists. split; [reflexivity|].
  unfold logged_iters in *. cbn [flat_map app]. rewrite flat_map_app, Hl. reflexivity.
Qed.

Lemma epochs_from_ok last_epoch lbs rs count : forall epoch ck,
  (forall e, lbs e <> []) -> (forall e, rs e < length (lbs e)) ->
  exists evs, epochs_from last_epoch lbs rs epoch count ck
              = (evs, Ok (match count with 0 => ck | S k => last_epoch + epoch + k end)) /\
              logged_iters evs = map (fun e => last_epoch + e) (seq epoch count).
Proof.
  induction count as [|k IH]; intros epoch ck Hlb Hr; [exists []; split; reflexivity|].
  cbn [epochs_from]. destruct (on_epoch_end_ok last_epoch (lbs epoch) epoch (rs epoch) ck (Hlb _) (Hr _))
    as (evs & -> & Hl).
  destruct (IH (S epoch) (last_epoch + epoch) Hlb Hr) as (evs' & E & Hl'). cbn [gbind]. rewrite E.
  exists (evs ++ evs'). split; [do 2 f_equal; destruct k; lia|].
  unfold logged_iters in *. rewrite flat_map_app, Hl, Hl'. reflexivity.
Qed.

End Good.

End EpochEnd.

(** ** Runs that differ only at the metrics sink *)

Section Sink.

Context {W : Type}.

(** The effects other than the metrics sink's: saves, checkpoints and
    samples. *)
Definition strip_wandb (evs : list (@effect W)) : list (@effect W) :=
  filter (fun ev => match ev with WandbLog _ _ | WandbFailed => false | _ => true end) evs.

(** Two computations that end alike and do the same thing apart from
    what reaches, or fails to reach, the metrics sink. *)
Definition sink_equiv {A} (m1 m2 : gen (@effect W) A) : Prop :=
  snd m1 = snd m2 /\ strip_wandb (fst m1) = strip_wandb (fst m2).

#[local] Instance sink_equiv_equivalence {A} : Equivalence (@sink_equiv A).
Proof.
  split; unfold sink_equiv; [intros m; auto | intros m1 m2 [? ?]; auto
  | intros m1 m2 m3 [? ?] [? ?]; split; congruence].
Qed.

#[local] Instance gbind_sink_proper {A B} :
  Proper (sink_equiv ==> pointwise_relation A sink_equiv ==> sink_equiv) (@gbind (@effect W) A B).
Proof.
  intros [e1 r1] [e2 r2] [Hr He] k1 k2 Hk. cbn [fst snd] in Hr, He. subst r2.
  destruct r1 as [a|e]; [|split; [reflexivity|exact He]].
  rewrite !gbind_ok. destruct (Hk a) as [Hr' He']. split; [exact Hr'|].
  cbn [fst]. unfold strip_wandb in *. now rewrite !filter_app, He, He'.
Qed.

(** The [try] around the record and [wandb.log]: whatever it meets, it
    returns and leaves no other effect. *)
Lemma wandb_try_sink (x : result unit) i t :
  sink_equiv (gcatch (do% _ <- glift x ;; gyield (WandbLog i t)) (fun _ => gyield WandbFailed))
             (gcatch (do% _ <- glift (Ok tt) ;; gyield (WandbLog i t)) (fun _ => gyield (@WandbFailed W))).
Proof. destruct x as [[]|e]; split; reflexivity. Qed.

Lemma on_epoch_end_sink c n vb wr last_epoch (lb : list W) epoch r ck :
  sink_equiv (on_epoch_end c n vb wr last_epoch lb epoch r ck)
             (on_epoch_end c n vb (fun _ => Ok tt) last_epoch lb epoch r ck).
Proof.
  unfold on_epoch_end. destruct lb as [|x lb']; [reflexivity|].
  repeat (apply gbind_sink_proper; [try reflexivity|intro]).
  - apply wandb_try_sink.
  - reflexivity.
Qed.

Lemma epochs_from_sink c n vb wr last_epoch (lbs : nat -> list W) rs count : forall epoch ck,
  sink_equiv (epochs_from c n vb wr last_epoch lbs rs epoch count ck)
             (epochs_from c n vb (fun _ => Ok tt) last_epoch lbs rs epoch count ck).
Proof.
  induction count as [|k IH]; intros epoch ck; cbn [epochs_from]; [reflexivity|].
  rewrite on_epoch_end_sink. setoid_rewrite IH. reflexivity.
Qed.

End Sink.

Section Claims.

Context {W : Type}.

(** C20: the checkpoint records the index of the last finished epoch
    ([last_epoch + epoch], Keras counting epochs from 0), not the number of
    epochs run, and a resumed run restarts [model.fit] at epoch 0: a run of
    [E > 0] epochs leaves [last_epoch + E - 1], and the first epoch of the
    next run logs the same [iter] as the last epoch of the previous one. *)
Theorem resume_repeats_iter c n_train_books val_batches wr last_epoch (lbs : nat -> list W) rs E E2 :
  eval_iters c <= val_batches -> (forall e, wr e = Ok tt) ->
  (forall e, lbs e <> []) -> (forall e, rs e < length (lbs e)) -> 0 < E -> 0 < E2 ->
  snd (session c n_train_books val_batches wr last_epoch lbs rs E) = Ok (last_epoch + E - 1) /\
  ~ NoDup (logged_iters (fst (session c n_train_books val_batches wr last_epoch lbs rs E))
           ++ logged_iters (fst (session c n_train_books val_batches wr (last_epoch + E - 1) lbs rs E2))).
Proof.
  intros Hv Hwr Hlb Hr HE HE2. unfold session.
  destruct (epochs_from_ok c n_train_books val_batches wr Hv Hwr last_epoch lbs rs E 0 last_epoch Hlb Hr)
    as (evs & -> & Hl).
  destruct (epochs_from_ok c n_train_books val_batches wr Hv Hwr (last_epoch + E - 1) lbs rs E2 0
              (last_epoch + E - 1) Hlb Hr) as (evs2 & -> & Hl2).
  simpl fst. simpl snd. split; [destruct E; [lia|f_equal; lia]|].
  rewrite Hl, Hl2. destruct E2 as [|k]; [lia|]. simpl seq. simpl map. intros Hnd.
  apply NoDup_remove_2 in Hnd. apply Hnd, in_or_app. left. apply in_map_iff.
  exists (E - 1). split; [lia|]. apply in_seq. lia.
Qed.

(** C21: [estimate_loss] runs outside the [try] that guards [wandb.log]:
    when the validation dataset has fewer batches than [eval_iters] (10
    for [batchSize >= 512]), [next(dataset_iter)] raises [StopIteration]
    out of [on_epoch_end], after the model and the checkpoint were saved
    and before any metric is logged, and the run stops. *)
Theorem on_epoch_end_stop_iteration c n_train_books val_batches wr last_epoch (lb : list W) epoch r ck :
  val_batches < eval_iters c -> lb <> [] -> r < length lb ->
  exists evs, on_epoch_end c n_train_books val_batches wr last_epoch lb epoch r ck
              = (SaveModel :: WriteCheckpoint (last_epoch + epoch) :: evs, Err StopIteration) /\
              logged_iters evs = [].
Proof.
  intros Hv Hlb Hr. destruct (sample_ok lb r Hr) as [w Hw]. destruct (show_ok epoch w) as (evs & Hs & Hl).
  unfold on_epoch_end. destruct lb as [|x lb']; [congruence|].
  rewrite !gbind_yield, Hw, gbind_lift_ok, Hs. unfold wandb_log, estimate_loss.
  rewrite (proj2 (Nat.leb_gt _ _) Hv). exists (evs ++ []). split; [reflexivity|].
  now rewrite app_nil_r.
Qed.

(** C25: metrics-sink failures are non-fatal, as section 7 of the spec
    requires: whatever the [try] around [wandb.log] meets at each epoch
    end (a missing [logs["accuracy"]], a failing [wandb.log]), a session
    ends with the same result (the checkpoint value, or the same
    exception) and performs the same saves, checkpoint writes and sample
    displays, in the same order, as one in which every log succeeds. *)
Theorem session_wandb_nonfatal c n_train_books val_batches wr last_epoch (lbs : nat -> list W) rs E :
  snd (session c n_train_books val_batches wr last_epoch lbs rs E)
  = snd (session c n_train_books val_batches (fun _ => Ok tt) last_epoch lbs rs E)
  /\ strip_wandb (fst (session c n_train_books val_batches wr last_epoch lbs rs E))
     = strip_wandb (fst (session c n_train_books val_batches (fun _ => Ok tt) last_epoch lbs rs E)).
Proof. apply epochs_from_sink. Qed.

End Claims.

Lemma resume_repeats_iter_witness :
  snd (session default_cfg 300 12 (fun _ => Ok tt) 5 (fun _ => [tt]) (fun _ => 0) 3) = Ok (5 + 3 - 1) /\
  ~ NoDup (logged_iters (fst (session default_cfg 300 12 (fun _ => Ok tt) 5 (fun _ => [tt]) (fun _ => 0) 3))
           ++ logged_iters (fst (session default_cfg 300 12 (fun _ => Ok tt) (5 + 3 - 1)
                                   (fun _ => [tt]) (fun _ => 0) 2))).
Proof.
  apply (resume_repeats_iter default_cfg 300 12 (fun _ => Ok tt) 5 (fun _ => [tt]) (fun _ => 0) 3 2);
    try (intros; simpl); try reflexivity; try discriminate; try lia; vm_compute; lia.
Defined.

Lemma on_epoch_end_stop_iteration_witness :
  exists evs, on_epoch_end default_cfg 300 4 (fun _ => Ok tt) 0 [tt] 10 0 0
              = (SaveModel :: WriteCheckpoint (0 + 10) :: evs, Err StopIteration) /\ logged_iters evs = [].
Proof. apply on_epoch_end_stop_iteration; [vm_compute; lia|discriminate|simpl; lia]. Defined.


End EpochEnd.
