(* ===== verification/Loss.v ===== *)
(** * Loss: the Huber loss and [estimate_loss] ([src/train.py] lines 301-312)

    [estimate_loss(model, dataset, eval_iters)] pulls [eval_iters] batches
    from the validation dataset, runs the model on each input and averages
    [tf.keras.losses.Huber()(Y, logits)] with [np.mean].  The model is a
    parameter (the forward pass of [ModelGraph.v] with its dropout draw is
    one instance); the Huber loss is Keras's definition with its default
    [delta = 1.0] and its default reduction (sum over the per-sample losses
    divided by their number), over [R]: float32 rounding is not modelled.

    The theorems show that this detailed [estimate_loss] has the outcome
    the abstract [EpochEnd.estimate_loss] of [Training.v] gives it
    (a value, or [StopIteration] when the dataset runs out), and that the
    value it returns is a non-negative number that is zero exactly when the
    model reproduces every target it was shown. *)

From Stdlib Require Import List Arith Lia Reals Lra.
From S2P Require Import Prelude Tensor Training.
Import ListNotations.
Open Scope fjlm_scope.

Module Loss.
Import Tensor.

Local Open Scope R_scope.

Definition sum_list (l : list R) : R := fold_right Rplus 0 l.

(** The rows along the last axis of [k] rows of length [p] in row-major
    order. *)
Fixpoint chunks (k p : nat) (l : list R) : list (list R) :=
  match k with
  | O => []
  | S k' => firstn p l :: chunks k' p (skipn p l)
  end.

(** [tf.reduce_mean(t, axis=-1)]; a scalar has no axis [-1]. *)
Definition reduce_mean_last (t : tensor) : result tensor :=
  match rev (shape t) with
  | [] => Err ShapeError
  | p :: rs =>
      Ok (mk_tensor (rev rs)
            (map (fun row => sum_list row / INR p) (chunks (size (rev rs)) p (data t))))
  end.

(** [Huber(delta=1.0)]. *)
Definition delta : R := 1.

(** The loss of one error [e = y_pred - y_true]: [0.5 * e ** 2] where
    [|e| <= delta], [delta * |e| - 0.5 * delta ** 2] elsewhere. *)
Definition huber_elem (e : R) : R :=
  if Rle_dec (Rabs e) delta then / 2 * (e * e) else delta * Rabs e - / 2 * (delta * delta).

(** [tf.keras.losses.huber(y_true, y_pred)]: the errors with broadcasting,
    then the mean over the last axis. *)
Definition huber (y_true y_pred : tensor) : result tensor :=
  let* error := bcast Rminus y_pred y_true in
  reduce_mean_last (tmap huber_elem error).

(** [tf.keras.losses.Huber()(y_true, y_pred)]: the per-sample losses
    summed and divided by their number. *)
Definition Huber (y_true y_pred : tensor) : result R :=
  let* losses := huber y_true y_pred in
  Ok (sum_list (data losses) / INR (size (shape losses))).

(** [np.mean(losses)]; [estimate_loss] is only called with [eval_iters]
    10 or 100, so the empty mean (NaN in numpy) does not arise. *)
Definition np_mean (l : list R) : R := sum_list l / INR (length l).

Section EstimateLoss.

(** [model(X, training=False)]. *)
Variable model : tensor -> result tensor.

(** Lines 303-310: [for k in range(eval_iters): X, Y = next(dataset_iter);
    logits = model(X, training=False); losses.append(Huber()(Y, logits))]. *)
Fixpoint loss_loop (eval_iters : nat) (dataset_iter : list (tensor * tensor)) : result (list R) :=
  match eval_iters with
  | O => Ok []
  | S k =>
      match dataset_iter with
      | [] => Err StopIteration
      | (X, Y) :: rest =>
          let* logits := model X in
          let* loss_value := Huber Y logits in
          let* losses := loss_loop k rest in
          Ok (loss_value :: losses)
      end
  end.

(** Lines 301-312. *)
Definition estimate_loss (dataset : list (tensor * tensor)) (eval_iters : nat) : result R :=
  let* losses := loss_loop eval_iters dataset in
  Ok (np_mean losses).

End EstimateLoss.

(** ** Sums and means *)

Lemma sum_list_app l1 l2 : sum_list (l1 ++ l2) = sum_list l1 + sum_list l2.
Proof. induction l1 as [|x l1 IH]; simpl; [ring|]. rewrite IH. ring. Qed.

Lemma sum_list_nonneg l : Forall (Rle 0) l -> 0 <= sum_list l.
Proof. induction 1; simpl; lra. Qed.

Lemma sum_list_zero l : Forall (Rle 0) l -> sum_list l = 0 -> Forall (eq 0) l.
Proof.
  induction 1 as [|x l Hx Hl IH]; simpl; intros H; constructor;
    pose proof (sum_list_nonneg l Hl); [lra|apply IH; lra].
Qed.

Lemma sum_list_zeros l : Forall (eq 0) l -> sum_list l = 0.
Proof. induction 1 as [|x l <- _ IH]; simpl; lra. Qed.

Lemma sum_list_map_zero {A} (l : list A) : sum_list (map (fun _ => 0) l) = 0.
Proof. induction l; simpl; lra. Qed.

(** The mean of the row means is the mean of all entries. *)
Lemma sum_list_chunks k p l :
  length l = (k * p)%nat ->
  sum_list (map (fun row => sum_list row / INR p) (chunks k p l)) = sum_list l / INR p.
Proof.
  revert l; induction k as [|k IH]; intros l Hl; simpl.
  - destruct l; [|discriminate]. simpl. unfold Rdiv. ring.
  - rewrite IH by (rewrite length_skipn; lia).
    rewrite <- (firstn_skipn p l) at 3. rewrite sum_list_app. unfold Rdiv. ring.
Qed.

(** [x / n = 0] for [n > 0] only when [x = 0]. *)
Lemma div_INR_zero x n : (0 < n)%nat -> x / INR n = 0 -> x = 0.
Proof.
  intros Hn H. apply Rmult_integral in H as [H|H]; [exact H|].
  exfalso. apply (Rinv_neq_0_compat (INR n)); [apply not_0_INR; lia|exact H].
Qed.

Lemma div_INR_nonneg x n : 0 <= x -> 0 <= x / INR n.
Proof.
  intros Hx. unfold Rdiv. apply Rmult_le_pos; [exact Hx|].
  destruct n; [change (INR 0) with 0; rewrite Rinv_0; lra|]. left. apply Rinv_0_lt_compat, lt_0_INR. lia.
Qed.

Lemma size_app a b : size (a ++ b) = (size a * size b)%nat.
Proof. induction a as [|d a IH]; simpl; [lia|]. rewrite IH. lia. Qed.

(** ** The Huber loss *)

Lemma huber_elem_nonneg e : 0 <= huber_elem e.
Proof.
  unfold huber_elem, delta. pose proof (Rabs_pos e) as Ha.
  destruct (Rle_dec (Rabs e) 1) as [H|H]; [nra|apply Rnot_le_lt in H; lra].
Qed.

Lemma huber_elem_zero e : huber_elem e = 0 -> e = 0.
Proof.
  unfold huber_elem, delta. intros He.
  destruct (Rle_dec (Rabs e) 1) as [H|H]; [nra|apply Rnot_le_lt in H; lra].
Qed.

Lemma huber_elem_0 : huber_elem 0 = 0.
Proof.
  unfold huber_elem, delta. rewrite Rabs_R0.
  destruct (Rle_dec 0 1) as [_|H]; [ring|lra].
Qed.

(** The value of [Huber()(y_true, y_pred)] on two tensors of one shape:
    the mean over all entries of the loss of [y_pred - y_true]. *)
Definition huber_value (y_true y_pred : tensor) : R :=
  sum_list (map (fun i => huber_elem (nth i (data y_pred) 0 - nth i (data y_true) 0))
                (seq 0 (size (shape y_true))))
  / INR (size (shape y_true)).

Lemma Huber_same_shape y_true y_pred :
  wf y_true -> wf y_pred -> shape y_pred = shape y_true -> shape y_true <> [] ->
  Huber y_true y_pred = Ok (huber_value y_true y_pred).
Proof.
  intros Ht Hp Hs Hne. unfold Huber, huber, huber_value.
  rewrite bcast_same by exact Hs. cbn [bind]. rewrite Hs.
  unfold reduce_mean_last, tmap, tabulate. cbn [shape data].
  destruct (rev (shape y_true)) as [|p rs] eqn:Er.
  { apply (f_equal (@rev nat)) in Er. rewrite rev_involutive in Er. contradiction. }
  assert (Es : shape y_true = rev rs ++ [p])
    by (rewrite <- (rev_involutive (shape y_true)), Er; reflexivity).
  assert (HN : size (shape y_true) = (size (rev rs) * p)%nat)
    by (rewrite Es, size_app; simpl; lia).
  cbn [bind shape data].
  rewrite sum_list_chunks by (rewrite !length_map, length_seq; exact HN).
  rewrite !map_map.
  rewrite (map_ext_in _ (fun i => huber_elem (nth i (data y_pred) 0 - nth i (data y_true) 0))).
  - rewrite HN, mult_INR. f_equal. unfold Rdiv. rewrite Rinv_mult. ring.
  - intros i Hi. apply in_seq in Hi. unfold get. rewrite Hs, flatten_unflatten by lia.
    reflexivity.
Qed.

Lemma huber_value_nonneg y_true y_pred : 0 <= huber_value y_true y_pred.
Proof.
  apply div_INR_nonneg, sum_list_nonneg, Forall_forall. intros x Hx.
  apply in_map_iff in Hx as [i [<- _]]. apply huber_elem_nonneg.
Qed.

(** The loss is zero exactly on a perfect prediction. *)
Lemma huber_value_zero y_true y_pred :
  wf y_true -> wf y_pred -> shape y_pred = shape y_true ->
  huber_value y_true y_pred = 0 <-> y_pred = y_true.
Proof.
  intros Ht Hp Hs. unfold wf in *. split.
  - intros H0. destruct y_true as [st dt], y_pred as [sp dp]. unfold huber_value in H0.
    cbn [shape data] in *. subst sp. f_equal.
    apply nth_ext with (d := 0) (d' := 0); [lia|]. intros i Hi.
    destruct (size st) as [|N] eqn:EN; [lia|].
    apply div_INR_zero in H0; [|lia].
    apply sum_list_zero in H0;
      [|apply Forall_forall; intros x Hx; apply in_map_iff in Hx as [j [<- _]];
        apply huber_elem_nonneg].
    rewrite Forall_forall in H0. specialize (H0 (huber_elem (nth i dp 0 - nth i dt 0))).
    assert (nth i dp 0 - nth i dt 0 = 0); [|lra].
    apply huber_elem_zero. symmetry. apply H0, in_map_iff. exists i. split; [reflexivity|].
    apply in_seq. lia.
  - intros ->. unfold huber_value.
    rewrite (map_ext _ (fun _ => 0)) by (intros i; rewrite Rminus_diag; apply huber_elem_0).
    rewrite sum_list_map_zero. unfold Rdiv. ring.
Qed.

(** ** [estimate_loss] *)

Section Estimate.
Variable model : tensor -> result tensor.

(** The model answers each of the first [n] inputs with a well-formed
    prediction of its target's shape (a tensor of rank at least one). *)
Definition predicts (dataset : list (tensor * tensor)) (n : nat) : Prop :=
  forall X Y, In (X, Y) (firstn n dataset) ->
    wf Y /\ shape Y <> [] /\ exists P, model X = Ok P /\ wf P /\ shape P = shape Y.

Lemma predicts_cons X Y dataset n :
  predicts ((X, Y) :: dataset) (S n) ->
  predicts dataset n
  /\ wf Y /\ shape Y <> [] /\ exists P, model X = Ok P /\ wf P /\ shape P = shape Y.
Proof.
  intros H. split; [intros X' Y' Hin; apply H; right; exact Hin|]. apply H. left. reflexivity.
Qed.

(** The loop over [n] available batches collects [n] non-negative losses,
    all zero exactly when the model reproduces every target. *)
Lemma loss_loop_ok n dataset :
  (n <= length dataset)%nat -> predicts dataset n ->
  exists losses, loss_loop model n dataset = Ok losses /\ length losses = n
    /\ Forall (Rle 0) losses
    /\ (Forall (eq 0) losses <-> forall X Y, In (X, Y) (firstn n dataset) -> model X = Ok Y).
Proof.
  revert dataset; induction n as [|n IH]; intros dataset Hn Hp.
  - exists []. split; [reflexivity|]. split; [reflexivity|]. split; [constructor|].
    split; [intros _ X Y []|intros _; constructor].
  - destruct dataset as [|[X Y] rest]; [simpl in Hn; lia|].
    apply predicts_cons in Hp as (Hrest & HwY & HY & P & HP & HwP & Hs).
    destruct (IH rest ltac:(simpl in Hn; lia) Hrest) as (losses & E & Hl & Hnn & Hz).
    exists (huber_value Y P :: losses). cbn [loss_loop]. rewrite HP. cbn [bind].
    rewrite Huber_same_shape, E by assumption. cbn [bind].
    split; [reflexivity|]. split; [simpl; lia|].
    split; [constructor; [apply huber_value_nonneg|exact Hnn]|].
    rewrite Forall_cons_iff, Hz. split.
    + intros [H0 Hall] X' Y' [Heq|Hin]; [|now apply Hall].
      inversion Heq; subst. rewrite HP. f_equal.
      apply (huber_value_zero Y' P); auto.
    + intros Hall. split; [|intros X' Y' Hin; apply Hall; right; exact Hin].
      symmetry. apply huber_value_zero; auto.
      specialize (Hall X Y (or_introl eq_refl)). congruence.
Qed.

(** The loop over more batches than the dataset holds raises
    [StopIteration] from [next(dataset_iter)]. *)
Lemma loss_loop_stop n dataset :
  (length dataset < n)%nat -> predicts dataset n ->
  loss_loop model n dataset = Err StopIteration.
Proof.
  revert n; induction dataset as [|[X Y] rest IH]; intros n Hn Hp;
    (destruct n as [|n]; [simpl in Hn; lia|]); [reflexivity|].
  apply predicts_cons in Hp as (Hrest & HwY & HY & P & HP & HwP & Hs).
  cbn [loss_loop]. rewrite HP. cbn [bind]. rewrite Huber_same_shape by assumption.
  cbn [bind]. rewrite IH by (auto; simpl in Hn; lia). reflexivity.
Qed.

End Estimate.

Section Claims.
Variable model : tensor -> result tensor.

(** C36: [estimate_loss] refines the abstract model of [Training.v]: for
    a model that answers each input it is shown with a prediction of the
    target's shape, [estimate_loss(model, dataset, eval_iters)] returns a
    value exactly when [EpochEnd.estimate_loss] succeeds (the dataset
    holds [eval_iters] batches), and raises [StopIteration] exactly when
    that one does. *)
Theorem estimate_loss_refines dataset eval_iters :
  predicts model dataset eval_iters ->
  (let* _ := estimate_loss model dataset eval_iters in Ok tt)
  = EpochEnd.estimate_loss (length dataset) eval_iters.
Proof.
  intros Hp. unfold estimate_loss, EpochEnd.estimate_loss.
  destruct (Nat.leb_spec eval_iters (length dataset)) as [Hle|Hgt].
  - destruct (loss_loop_ok model eval_iters dataset Hle Hp) as (losses & -> & _).
    reflexivity.
  - rewrite loss_loop_stop by assumption. reflexivity.
Qed.

(** C37: with [eval_iters > 0] batches available and predictions of the
    targets' shapes, [estimate_loss] returns a value [v >= 0], and [v = 0]
    exactly when the model reproduces every target it was shown. *)
Theorem estimate_loss_value dataset eval_iters :
  (0 < eval_iters)%nat -> (eval_iters <= length dataset)%nat ->
  predicts model dataset eval_iters ->
  exists v, estimate_loss model dataset eval_iters = Ok v /\ 0 <= v
    /\ (v = 0 <-> forall X Y, In (X, Y) (firstn eval_iters dataset) -> model X = Ok Y).
Proof.
  intros Hn Hle Hp.
  destruct (loss_loop_ok model eval_iters dataset Hle Hp) as (losses & E & Hl & Hnn & Hz).
  unfold estimate_loss. rewrite E. cbn [bind]. eexists. split; [reflexivity|].
  unfold np_mean. split; [apply div_INR_nonneg, sum_list_nonneg, Hnn|].
  rewrite <- Hz. split.
  - intros H0. apply sum_list_zero; [exact Hnn|]. apply (div_INR_zero _ (length losses));
      [lia|exact H0].
  - intros H0. rewrite sum_list_zeros by exact H0. unfold Rdiv. ring.
Qed.

End Claims.

(** A one-entry batch and a model that copies its input. *)
Definition ex_t : tensor := mk_tensor [1%nat] [1].

Definition ex_model (X : tensor) : result tensor := Ok X.

Lemma ex_predicts : predicts ex_model [(ex_t, ex_t)] 1.
Proof.
  intros X Y [H|[]]. inversion H; subst. unfold ex_model.
  split; [reflexivity|]. split; [discriminate|]. eexists. split; [reflexivity|]. split; reflexivity.
Qed.

Lemma estimate_loss_refines_witness :
  (let* _ := estimate_loss ex_model [(ex_t, ex_t)] 2 in Ok tt) = Err StopIteration.
Proof.
  exact (estimate_loss_refines ex_model [(ex_t, ex_t)] 2
           ltac:(intros X Y HXY; apply ex_predicts; exact HXY)).
Defined.

Lemma estimate_loss_value_witness :
  exists v, estimate_loss ex_model [(ex_t, ex_t)] 1 = Ok v /\ 0 <= v
    /\ (v = 0 <-> forall X Y, In (X, Y) (firstn 1 [(ex_t, ex_t)]) -> ex_model X = Ok Y).
Proof.
  exact (estimate_loss_value ex_model [(ex_t, ex_t)] 1 ltac:(lia) ltac:(simpl; lia) ex_predicts).
Defined.

End Loss.
