(* ===== verification/Checkpoint.v ===== *)
(** * Checkpoint: the checkpoint file across runs

    Lines 34-37 (the default [checkpoint_data]), 61-69 (reading the file
    at start, [last_epoch] and [decay_steps]) and 422-425 (the update of
    [checkpoint_data['last_epoch']] and [json.dump] at each epoch end).
    The file holds what [json.dump] wrote; the value [json.load] returns
    is a [json] value ([json] round-trips ints, [None], bools, strings,
    lists and string-keyed dicts, in order), or [ValueError]
    ([json.JSONDecodeError]) for a file that is not JSON.  Numbers with a
    fraction are not modelled. *)

From Stdlib Require Import String List Arith Lia ZArith.
From S2P Require Import Prelude Training.
Import ListNotations.
Open Scope fjlm_scope.

Module Checkpoint.

Local Open Scope Z_scope.
Local Set Warnings "-register-all".


(** The values [json.load] returns. *)
Inductive json : Type :=
| JNull
| JBool (b : bool)
| JInt (z : Z)
| JStr (s : string)
| JList (l : list json)
| JObj (kvs : list (string * json)).

(** Lines 34-37: [checkpoint_data = {'last_epoch': 0, 'other_data': None}]. *)
Definition default_checkpoint : json :=
  JObj [("last_epoch"%string, JInt 0); ("other_data"%string, JNull)].

(** [d[k]]: a dict lookup, [KeyError] for a missing key, [TypeError] on
    a value that is not a dict. *)
Definition py_getitem (d : json) (k : string) : result json :=
  match d with
  | JObj kvs => match dict_get kvs k with Some v => Ok v | None => Err KeyError end
  | _ => Err TypeError
  end.

(** [d[k] = v] on a dict. *)
Definition py_setitem (d : json) (k : string) (v : json) : result json :=
  match d with
  | JObj kvs => Ok (JObj (dict_set kvs k v))
  | _ => Err TypeError
  end.

(** The value as an operand of [-] or [+] with an int: a bool counts as
    [0] or [1]; [None], a string, a list or a dict raises [TypeError]. *)
Definition py_int_value (v : json) : result Z :=
  match v with
  | JInt z => Ok z
  | JBool b => Ok (if b then 1 else 0)
  | _ => Err TypeError
  end.

(** Lines 61-63: the file if it exists ([None] when it does not). *)
Definition load_checkpoint (file : option (result json)) : result json :=
  match file with
  | None => Ok default_checkpoint
  | Some r => r
  end.

(** Lines 61-69: [checkpoint_data], [last_epoch] and [decay_steps]. *)
Definition startup (file : option (result json)) : result (json * Z * Z) :=
  let* checkpoint_data := load_checkpoint file in
  let* last_epoch := py_getitem checkpoint_data "last_epoch" in
  let* le := py_int_value last_epoch in
  Ok (checkpoint_data, le, Schedule.decay_steps le).

(** Lines 422-425: [checkpoint_data['last_epoch'] = last_epoch + epoch],
    then [json.dump(checkpoint_data, file)]: the new [checkpoint_data] and
    the file the next run reads. *)
Definition save_checkpoint (checkpoint_data : json) (last_epoch : Z) (epoch : nat)
  : result (json * option (result json)) :=
  let* d := py_setitem checkpoint_data "last_epoch" (JInt (last_epoch + Z.of_nat epoch)) in
  Ok (d, Some (Ok d)).

(** The saves of one run: [on_epoch_end] assigns into the one module-level
    [checkpoint_data] and dumps it at every epoch whose [last_batch] is not
    empty; [epochs] lists those epochs in order, and [last_epoch] keeps the
    value read at start. *)
Fixpoint saves (checkpoint_data : json) (last_epoch : Z) (epochs : list nat)
  (file : option (result json)) : result (json * option (result json)) :=
  match epochs with
  | [] => Ok (checkpoint_data, file)
  | epoch :: epochs' =>
      let* '(d, file') := save_checkpoint checkpoint_data last_epoch epoch in
      saves d last_epoch epochs' file'
  end.

(** One run of the script as the checkpoint file sees it: read at start
    (lines 61-69), written at the epoch ends of [epochs] (lines 422-425). *)
Definition run (file : option (result json)) (epochs : list nat)
  : result (option (result json)) :=
  let* '(checkpoint_data, last_epoch, _) := startup file in
  let* '(_, file') := saves checkpoint_data last_epoch epochs file in
  Ok file'.

(** The files a sequence of runs leaves behind, from no file at all. *)
Inductive reachable : option (result json) -> Prop :=
| reachable_none : reachable None
| reachable_run file epochs file' :
    reachable file -> run file epochs = Ok file' -> reachable file'.

(** The dict the script writes: the default with [last_epoch] replaced. *)
Definition checkpoint_of (le : Z) : json :=
  JObj [("last_epoch"%string, JInt le); ("other_data"%string, JNull)].

(** ** Reading the file *)

Lemma startup_checkpoint_of le :
  startup (Some (Ok (checkpoint_of le))) = Ok (checkpoint_of le, le, Schedule.decay_steps le).
Proof. reflexivity. Qed.

(** A first run starts from the default: epoch offset [0] and
    [decay_steps = max_iters]. *)
Lemma startup_fresh : startup None = Ok (default_checkpoint, 0, Schedule.max_iters).
Proof. reflexivity. Qed.

(** C12: reading an existing checkpoint file aborts the run before any
    training (lines 61-69), with the exception of the statement that
    fails: [ValueError] from [json.load] for a file that is not JSON,
    [TypeError] from [checkpoint_data['last_epoch']] for a JSON value
    that is not a dict, [KeyError] for a dict without [last_epoch], and
    [TypeError] from [max_iters - last_epoch] (line 69) for a
    [last_epoch] that is neither an int nor a bool.  The spec calls
    persistence failures non-fatal. *)
Theorem startup_errors kvs v :
  startup (Some (Err ValueError)) = Err ValueError /\
  (forall l, startup (Some (Ok (JList l))) = Err TypeError) /\
  (dict_get kvs "last_epoch" = None -> startup (Some (Ok (JObj kvs))) = Err KeyError) /\
  (dict_get kvs "last_epoch" = Some v -> (forall z, v <> JInt z) -> (forall b, v <> JBool b) ->
   startup (Some (Ok (JObj kvs))) = Err TypeError).
Proof.
  unfold startup; cbn. repeat split; intros; try reflexivity.
  - now rewrite H.
  - rewrite H. destruct v; cbn; try reflexivity; [now destruct (H1 b) | now destruct (H0 z)].
Qed.

Lemma startup_errors_witness :
  startup (Some (Err ValueError)) = Err ValueError /\
  startup (Some (Ok (JList []))) = Err TypeError /\
  startup (Some (Ok (JObj [("other_data"%string, JNull)]))) = Err KeyError /\
  startup (Some (Ok (JObj [("last_epoch"%string, JStr "3")]))) = Err TypeError.
Proof.
  destruct (startup_errors [("other_data"%string, JNull)] JNull) as [H1 [H2 [H3 _]]].
  destruct (startup_errors [("last_epoch"%string, JStr "3")] (JStr "3")) as [_ [_ [_ H4]]].
  split; [exact H1|]. split; [exact (H2 [])|]. split; [exact (H3 eq_refl)|].
  apply H4; [reflexivity | intros z; discriminate | intros b; discriminate].
Defined.

(** A bool is an int to [-]: a file holding [{"last_epoch": true}] resumes
    at offset [1]. *)
Lemma startup_bool_last_epoch :
  startup (Some (Ok (JObj [("last_epoch"%string, JBool true)])))
  = Ok (JObj [("last_epoch"%string, JBool true)], 1, Schedule.decay_steps 1).
Proof. reflexivity. Qed.

(** ** Writing the file *)

(** An epoch end assigns [last_epoch + epoch], keeps every other key, and
    the file it writes reads back as the new dict. *)
Lemma save_startup kvs le epoch :
  exists d', save_checkpoint (JObj kvs) le epoch = Ok (d', Some (Ok d'))
  /\ startup (Some (Ok d')) = Ok (d', le + Z.of_nat epoch, Schedule.decay_steps (le + Z.of_nat epoch))
  /\ forall k, k <> "last_epoch"%string -> py_getitem d' k = py_getitem (JObj kvs) k.
Proof.
  eexists. split; [reflexivity|]. split.
  - cbn. now rewrite dict_get_set, String.eqb_refl.
  - intros k Hk. cbn. rewrite dict_get_set.
    destruct (String.eqb_spec k "last_epoch"); [contradiction|reflexivity].
Qed.

Lemma save_checkpoint_of le le' epoch :
  save_checkpoint (checkpoint_of le) le' epoch
  = Ok (checkpoint_of (le' + Z.of_nat epoch), Some (Ok (checkpoint_of (le' + Z.of_nat epoch)))).
Proof. reflexivity. Qed.

(** The saves of a run leave the dict of the last epoch saved, in memory
    and in the file. *)
Lemma saves_checkpoint_of le le' epochs e file :
  saves (checkpoint_of le) le' (epochs ++ [e]) file
  = Ok (checkpoint_of (le' + Z.of_nat e), Some (Ok (checkpoint_of (le' + Z.of_nat e)))).
Proof.
  revert le file. induction epochs as [|e0 epochs IH]; intros le file; cbn [app saves].
  - rewrite save_checkpoint_of. reflexivity.
  - rewrite save_checkpoint_of. cbn [bind]. apply IH.
Qed.

(** A run that read the dict the script writes, and saved at least once,
    leaves the file of its last save. *)
Lemma run_saves file le ds epochs e :
  startup file = Ok (checkpoint_of le, le, ds) ->
  run file (epochs ++ [e]) = Ok (Some (Ok (checkpoint_of (le + Z.of_nat e)))).
Proof. intros H. unfold run. rewrite H. cbn [bind]. now rewrite saves_checkpoint_of. Qed.

Lemma run_no_save file : run file [] = let* _ := startup file in Ok file.
Proof. unfold run. destruct (startup file) as [[[d le] ds]|e]; reflexivity. Qed.


(** ** The model store beside the checkpoint

    Lines 335-341: a model found at [model_path] is loaded with
    [tf.keras.models.load_model], which compiles it with the optimizer it
    was saved with (its [ExponentialDecay] and the [decay_steps] of that
    time); otherwise the new model is compiled with [optimizer] (line 79),
    whose schedule has this run's [decay_steps].  [saved_model] is the
    [decay_steps] of the schedule stored with the model, [None] when there
    is no model. *)
Record disk : Type := {
  saved_model : option Z;
  checkpoint_file : option (result json)
}.

Definition train_schedule (saved_model : option Z) (decay_steps : Z) : Z :=
  match saved_model with
  | Some saved => saved
  | None => decay_steps
  end.

(** One run on the two stores: every epoch end that saves writes the
    model (line 419, with the schedule it trains with) and then the
    checkpoint. *)
Definition run_disk (dk : disk) (epochs : list nat) : result disk :=
  let* '(_, _, decay_steps) := startup (checkpoint_file dk) in
  let* file' := run (checkpoint_file dk) epochs in
  Ok {| saved_model := match epochs with
                       | [] => saved_model dk
                       | _ :: _ => Some (train_schedule (saved_model dk) decay_steps)
                       end;
        checkpoint_file := file' |}.

Inductive disk_reachable : disk -> Prop :=
| disk_reachable_empty : disk_reachable {| saved_model := None; checkpoint_file := None |}
| disk_reachable_run dk epochs dk' :
    disk_reachable dk -> run_disk dk epochs = Ok dk' -> disk_reachable dk'.

(** ** Across runs *)

(** C39: whatever sequence of runs came before (each reading the file the
    previous one left and saving at the epoch ends it reached), the
    checkpoint file is either absent or the dict
    [{"last_epoch": le, "other_data": None}] with [le >= 0]; the next run
    reads [le] without error, and if it saves at all, the file it leaves
    holds [le + e] for the last epoch [e] it saved at. *)
Theorem reachable_checkpoint file :
  reachable file ->
  exists le, 0 <= le /\ startup file = Ok (checkpoint_of le, le, Schedule.decay_steps le)
  /\ forall epochs e, run file (epochs ++ [e]) = Ok (Some (Ok (checkpoint_of (le + Z.of_nat e)))).
Proof.
  induction 1 as [|file epochs file' _ [le [Hle [Hst _]]] Hrun].
  - exists 0. split; [lia|]. split; [reflexivity|]. intros. now apply (run_saves _ _ _ _ _ startup_fresh).
  - induction epochs as [|e es _] using rev_ind.
    + rewrite run_no_save, Hst in Hrun. cbn in Hrun. injection Hrun as <-.
      exists le. split; [lia|]. split; [exact Hst|]. intros. now apply (run_saves _ _ _ _ _ Hst).
    + rewrite (run_saves _ _ _ _ _ Hst) in Hrun. injection Hrun as <-.
      exists (le + Z.of_nat e). split; [lia|]. split; [apply startup_checkpoint_of|].
      intros. now apply (run_saves _ _ _ _ _ (startup_checkpoint_of _)).
Qed.

Lemma reachable_checkpoint_witness :
  exists le, 0 <= le /\ startup (Some (Ok (checkpoint_of 3))) = Ok (checkpoint_of le, le, Schedule.decay_steps le)
  /\ forall epochs e, run (Some (Ok (checkpoint_of 3))) (epochs ++ [e])
                      = Ok (Some (Ok (checkpoint_of (le + Z.of_nat e)))).
Proof.
  apply (reachable_checkpoint (Some (Ok (checkpoint_of 3)))).
  apply (reachable_run None [1%nat; 3%nat]); [exact reachable_none | reflexivity].
Defined.

(** A run leaves the file as it found it exactly when it saved at no
    epoch; otherwise the file of its last save. *)
Lemma run_cases file le ds epochs file' :
  startup file = Ok (checkpoint_of le, le, ds) -> run file epochs = Ok file' ->
  (epochs = [] /\ file' = file) \/
  (epochs <> [] /\ exists e : nat, file' = Some (Ok (checkpoint_of (le + Z.of_nat e)))).
Proof.
  intros Hst Hrun. induction epochs as [|e es _] using rev_ind.
  - left. rewrite run_no_save, Hst in Hrun. now injection Hrun as <-.
  - right. split; [now destruct es|]. exists e.
    rewrite (run_saves _ _ _ _ _ Hst) in Hrun. now injection Hrun as <-.
Qed.

(** The two stores of a reachable disk: both empty, or a model saved with
    the schedule of [decay_steps = max_iters] beside the checkpoint dict
    with some [le >= 0]. *)
Lemma disk_invariant dk :
  disk_reachable dk ->
  (saved_model dk = None /\ checkpoint_file dk = None) \/
  (exists le, 0 <= le /\ saved_model dk = Some Schedule.max_iters
              /\ checkpoint_file dk = Some (Ok (checkpoint_of le))).
Proof.
  induction 1 as [|dk epochs dk' _ IH Hrun]; [now left|].
  unfold run_disk in Hrun.
  destruct (startup (checkpoint_file dk)) as [[[d le] ds]|] eqn:E; cbn in Hrun; [|discriminate].
  destruct (run (checkpoint_file dk) epochs) as [file'|] eqn:Er; cbn in Hrun; [|discriminate].
  injection Hrun as <-. cbn.
  destruct IH as [[Hm Hf] | [le0 [Hle [Hm Hf]]]]; rewrite Hm; rewrite Hf in E, Er.
  - rewrite startup_fresh in E. injection E as <- <- <-.
    destruct (run_cases _ 0 _ _ _ startup_fresh Er) as [[-> ->] | [Hne [e ->]]]; [now left|].
    right. destruct epochs; [contradiction|]. exists (0 + Z.of_nat e). split; [lia|auto].
  - rewrite startup_checkpoint_of in E. injection E as <- <- <-.
    right. destruct (run_cases _ le0 _ _ _ (startup_checkpoint_of _) Er)
      as [[-> ->] | [Hne [e ->]]].
    + exists le0. auto.
    + destruct epochs; [contradiction|]. exists (le0 + Z.of_nat e). split; [lia|auto].
Qed.

(** C40: [decay_steps = max_iters - last_epoch] (line 69) reaches the
    optimizer only in the run that builds the model: every later run loads
    the model an earlier one saved, whose schedule was built from
    [last_epoch = 0].  On every disk a sequence of runs leaves, a saved
    model trains with [decay_steps = max_iters], whatever [last_epoch] the
    checkpoint beside it holds. *)
Theorem saved_model_schedule dk s :
  disk_reachable dk -> saved_model dk = Some s -> s = Schedule.max_iters.
Proof.
  intros H Hs. destruct (disk_invariant dk H) as [[Hm _] | [le [_ [Hm _]]]]; congruence.
Qed.

(** Two runs saving at epochs [0, 1, 2], then [0, 1]: the checkpoint
    holds [3], line 69 computes [decay_steps = 9997], and the model trains
    with [10000]. *)
Lemma saved_model_schedule_witness :
  startup (Some (Ok (checkpoint_of 3))) = Ok (checkpoint_of 3, 3, 9997) /\ 10000 = Schedule.max_iters.
Proof.
  split; [reflexivity|].
  apply (saved_model_schedule {| saved_model := Some 10000; checkpoint_file := Some (Ok (checkpoint_of 3)) |});
    [|reflexivity].
  apply (disk_reachable_run {| saved_model := Some 10000; checkpoint_file := Some (Ok (checkpoint_of 2)) |}
           [0%nat; 1%nat]); [|reflexivity].
  apply (disk_reachable_run {| saved_model := None; checkpoint_file := None |} [0%nat; 1%nat; 2%nat]);
    [constructor | reflexivity].
Defined.

End Checkpoint.
